(** * Pella keep-alive script: a shallow embedding of [pella_checkin.py]

    Part I holds the definitions, in the order of the script:

    - Python strings and the few [str] methods the script calls;
    - a backtracking matcher for the regular expressions of
      [extract_expiry_days], the five patterns and the parser itself;
    - the comparison of the two snapshots at the end of [renew_server];
    - the Selenium driver as an explicit world, with the locator chain
      [find_element_with_multiple_selectors], the two [wait_for_element_*]
      helpers and the last step of [login];
    - the text built by [send_notification];
    - [run] and [MultiAccountManager.run_all].

    Part II holds the properties.

    Numbers.  Python [int] is [Z], with the limit [int(str)] puts on the
    number of digits.  Python [float] is IEEE 754 binary64, through the
    operations of the Standard Library's [SpecFloat]: sums, differences,
    products and quotients are rounded as the machine rounds them, a
    conversion or a division of integers beyond the range of a float raises
    [OverflowError], and [round] raises on an infinity or a NaN.

    Sleeping and logging.  [time.sleep] and the logger return nothing and
    raise nothing; they are left out. *)

From Stdlib Require Import Bool Ascii String List NArith ZArith QArith Qround Qpower Lia Lqa.
From Stdlib Require Import DecimalString SpecFloat.
Import ListNotations.

(** ** Python strings *)

(** A Python [str] is a sequence of Unicode code points. *)
Definition char := N.
Definition str := list char.

Module Utf8.

(** Literals of this file are written as UTF-8 and decoded once. *)
Fixpoint decode (bs : list N) (need : nat) (acc : N) : str :=
  match bs with
  | [] => []
  | b :: bs' =>
    match need with
    | O =>
      if (b <? 128)%N then b :: decode bs' 0 0%N
      else if (b <? 224)%N then decode bs' 1 (b - 192)%N
      else if (b <? 240)%N then decode bs' 2 (b - 224)%N
      else decode bs' 3 (b - 240)%N
    | S O => (acc * 64 + (b - 128))%N :: decode bs' 0 0%N
    | S n => decode bs' n (acc * 64 + (b - 128))%N
    end
  end.

Definition of_string (s : string) : str :=
  decode (map N_of_ascii (list_ascii_of_string s)) 0 0%N.

End Utf8.

Definition u : string -> str := Utf8.of_string.

Definition char_eqb (a b : char) : bool := N.eqb a b.

Fixpoint str_eqb (a b : str) : bool :=
  match a, b with
  | [], [] => true
  | x :: a', y :: b' => char_eqb x y && str_eqb a' b'
  | _, _ => false
  end.

(** [s.startswith(p)] *)
Fixpoint startswith (s p : str) : bool :=
  match p, s with
  | [], _ => true
  | _ :: _, [] => false
  | x :: p', y :: s' => char_eqb x y && startswith s' p'
  end.

(** [p in s] for strings: [p] occurs somewhere in [s]. *)
Fixpoint contains (s p : str) : bool :=
  startswith s p ||
  match s with
  | [] => false
  | _ :: s' => contains s' p
  end.

(** [s.split(c, 1)] when [c in s]: the text before the first [c] and the text
    after it. *)
Fixpoint split_once (c : char) (s : str) : option (str * str) :=
  match s with
  | [] => None
  | x :: s' =>
    if char_eqb x c then Some ([], s')
    else match split_once c s' with
         | Some (a, b) => Some (x :: a, b)
         | None => None
         end
  end.

(** [s.split(c)[0]]: the text before the first [c], all of [s] without one. *)
Fixpoint split_head (c : char) (s : str) : str :=
  match s with
  | [] => []
  | x :: s' => if char_eqb x c then [] else x :: split_head c s'
  end.

(** [s[:n]] *)
Definition slice_to (n : nat) (s : str) : str := firstn n s.

(** [" ".join(parts)] *)
Fixpoint join (sep : str) (parts : list str) : str :=
  match parts with
  | [] => []
  | [p] => p
  | p :: ps => p ++ sep ++ join sep ps
  end.

(** [str(n)] and [f"{n}"] for an [int]. *)
Definition str_of_int (n : Z) : str :=
  map N_of_ascii (list_ascii_of_string (NilZero.string_of_int (Z.to_int n))).

Definition NEWLINE : char := 10%N.
Definition AT_SIGN : char := 64%N.
Definition SPACE : str := [32%N].

(** ** Exceptions *)

(** The classes the script raises or catches.  [TimeoutException] is a
    [WebDriverException], and every class here is an [Exception]. *)
Inductive exn_class :=
| TimeoutException
| WebDriverException
| ValueError
| TypeError
| OverflowError
| Exception.

Record exn := Exn { exn_kind : exn_class; exn_text : str }.

(** [str(e)] *)
Definition str_of_exn (e : exn) : str := exn_text e.

Definition is_timeout (e : exn) : bool :=
  match exn_kind e with TimeoutException => true | _ => false end.

Inductive result (A : Type) :=
| Ok (a : A)
| Raise (e : exn).
Arguments Ok {A} a.
Arguments Raise {A} e.

Definition rbind {A B} (r : result A) (f : A -> result B) : result B :=
  match r with
  | Ok a => f a
  | Raise e => Raise e
  end.

Declare Scope result_scope.
Delimit Scope result_scope with result.
Notation "x <- r ;; k" := (rbind r (fun x => k))
  (at level 61, r at next level, right associativity) : result_scope.

(** ** Python numbers

    [int] is [Z].  [float] is IEEE 754 binary64 as the Standard Library
    specifies it in [SpecFloat]: 53 bits of mantissa, the infinities at
    exponent 1024, every operation rounded to the nearest float, a tie to the
    even one. *)

Definition float : Type := spec_float.

(** [sys.float_info.mant_dig] and [sys.float_info.max_exp] *)
Definition MANT_DIG : Z := 53.
Definition MAX_EXP : Z := 1024.

Definition float_add (x y : float) : float := SFadd MANT_DIG MAX_EXP x y.
Definition float_sub (x y : float) : float := SFsub MANT_DIG MAX_EXP x y.
Definition float_mul (x y : float) : float := SFmul MANT_DIG MAX_EXP x y.

(** The float nearest to [m * 2 ** e]; [nearest_float n] is the one nearest
    to the integer [n]. *)
Definition float_literal (m e : Z) : float :=
  binary_normalize MANT_DIG MAX_EXP m e false.
Definition nearest_float (n : Z) : float := float_literal n 0.

(** The least magnitude that rounds up to [2 ** 1024]: half a unit in the
    last place above the largest float. *)
Definition OVERFLOW_THRESHOLD : Z := 2 ^ 1024 - 2 ^ 970.

(** [float(n)], the conversion an [int] operand gets next to a float. *)
Definition float_of_int (n : Z) : result float :=
  if (OVERFLOW_THRESHOLD <=? Z.abs n)%Z then
    Raise (Exn OverflowError (u "int too large to convert to float"))
  else Ok (nearest_float n).

(** The float nearest to the quotient of two integers, the divisor
    positive. *)
Definition nearest_quotient (a : Z) (b : positive) : float :=
  match a with
  | Z0 => S754_zero false
  | Zpos p =>
    SFdiv MANT_DIG MAX_EXP (S754_finite false p 0) (S754_finite false b 0)
  | Zneg p =>
    SFdiv MANT_DIG MAX_EXP (S754_finite true p 0) (S754_finite false b 0)
  end.

(** [a / b] on two [int]s, for a positive [b]. *)
Definition int_true_div (a : Z) (b : positive) : result float :=
  if (OVERFLOW_THRESHOLD * Zpos b <=? Z.abs a)%Z then
    Raise (Exn OverflowError (u "integer division result too large for a float"))
  else Ok (nearest_quotient a b).

(** [a > b] and [a == b] on floats: false when either is a NaN. *)
Definition gt (a b : float) : bool :=
  match SFcompare a b with Some Gt => true | _ => false end.
Definition float_eq (a b : float) : bool := SFeqb a b.

(** [0.0 <= x]: a zero, a positive float or the positive infinity; and
    [not (x < 0.0)], which a NaN satisfies as well. *)
Definition float_nonneg (x : float) : bool := SFleb (S754_zero false) x.
Definition float_not_negative (x : float) : bool := negb (SFltb x (S754_zero false)).

(** The number a float stands for, 0 for an infinity or a NaN. *)
Definition float_value (x : float) : Q :=
  match x with
  | S754_finite s m e => inject_Z (cond_Zopp s (Zpos m)) * Qpower 2 e
  | _ => 0
  end.

(** Python's [round(x)] on a number: the nearest integer, the even one at a
    tie. *)
Definition py_round (x : Q) : Z :=
  let lo := Qfloor x in
  match Qcompare (x - inject_Z lo) (1 # 2) with
  | Lt => lo
  | Gt => (lo + 1)%Z
  | Eq => if Z.even lo then lo else (lo + 1)%Z
  end.

(** [round(x)] on a float. *)
Definition round_float (x : float) : result Z :=
  match x with
  | S754_nan => Raise (Exn ValueError (u "cannot convert float NaN to integer"))
  | S754_infinity _ =>
    Raise (Exn OverflowError (u "cannot convert float infinity to integer"))
  | _ => Ok (py_round (float_value x))
  end.

(** ** Regular expressions

    The fragment of Python's [re] that the five patterns of
    [extract_expiry_days] use: literals, the classes [\d] and [\s], the greedy
    quantifiers [*], [+] and [?] on one character, sequence, alternation and
    numbered groups.  [re.search] is a backtracking search: the leftmost start
    position that matches wins, and at each position the alternatives are tried
    in priority order (greedy first, left branch first). *)

(** What [re] decides character by character.  Python takes these from the
    Unicode database; the parser is verified for any such tables, and the
    examples run it with the ASCII ones. *)
Record re_tables := {
  (** the decimal value of a [\d] character, [None] outside the class *)
  digit_value : char -> option N;
  (** [\s] *)
  is_space : char -> bool;
  (** a literal of the pattern against a character of the text, under
      [re.IGNORECASE] *)
  same_letter : char -> char -> bool
}.

Inductive cclass :=
| Lit (c : char)     (* a literal, case-sensitive *)
| LitI (c : char)    (* a literal under re.IGNORECASE *)
| Digit              (* \d *)
| Space.             (* \s *)

Inductive regex :=
| Eps
| One (k : cclass)
| Star (k : cclass)
| Plus (k : cclass)
| Opt (k : cclass)
| Seq (r1 r2 : regex)
| Alt (r1 r2 : regex)
| Group (i : nat) (r : regex).

(** The groups of a match object, most recently closed first. *)
Definition groups := list (nat * str).

(** [m.group(i)]; [None] is Python's [None] for a group that took no part. *)
Fixpoint group (m : groups) (i : nat) : option str :=
  match m with
  | [] => None
  | (j, s) :: m' => if Nat.eqb i j then Some s else group m' i
  end.

(** The limit of [int(str)] on the number of digits, as Python 3.11 sets
    it, and the exception beyond it. *)
Definition INT_MAX_STR_DIGITS : Z := 4300.

Definition too_many_digits (digits : nat) : exn :=
  Exn ValueError
    (u "Exceeds the limit (4300 digits) for integer string conversion: value has "
     ++ str_of_int (Z.of_nat digits)
     ++ u " digits; use sys.set_int_max_str_digits() to increase the limit").

Section Matcher.

Variable T : re_tables.

Definition in_class (k : cclass) (c : char) : bool :=
  match k with
  | Lit x => char_eqb x c
  | LitI x => same_letter T x c
  | Digit => match digit_value T c with Some _ => true | None => false end
  | Space => is_space T c
  end.

(** Greedy [k*]: take one more character when possible, and give it back when
    the rest of the pattern then fails. *)
Fixpoint star (k : cclass) (s : str) (cont : str -> option groups) : option groups :=
  match s with
  | c :: s' =>
    if in_class k c then
      match star k s' cont with
      | Some m => Some m
      | None => cont s
      end
    else cont s
  | [] => cont s
  end.

(** [s] minus its suffix [rest]: the text a group consumed. *)
Definition consumed (s rest : str) : str := firstn (length s - length rest) s.

Fixpoint matches (r : regex) (s : str) (m : groups)
    (cont : str -> groups -> option groups) : option groups :=
  match r with
  | Eps => cont s m
  | One k =>
    match s with
    | c :: s' => if in_class k c then cont s' m else None
    | [] => None
    end
  | Star k => star k s (fun s' => cont s' m)
  | Plus k =>
    match s with
    | c :: s' => if in_class k c then star k s' (fun s'' => cont s'' m) else None
    | [] => None
    end
  | Opt k =>
    match s with
    | c :: s' =>
      if in_class k c then
        match cont s' m with
        | Some m' => Some m'
        | None => cont s m
        end
      else cont s m
    | [] => cont s m
    end
  | Seq r1 r2 => matches r1 s m (fun s' m' => matches r2 s' m' cont)
  | Alt r1 r2 =>
    match matches r1 s m cont with
    | Some m' => Some m'
    | None => matches r2 s m cont
    end
  | Group i r' => matches r' s m (fun s' m' => cont s' ((i, consumed s s') :: m'))
  end.

(** [re.match(r, s)]: a match starting at the first character. *)
Definition re_match (r : regex) (s : str) : option groups :=
  matches r s [] (fun _ m => Some m).

(** [re.search(r, s)]: the leftmost position with a match. *)
Fixpoint re_search (r : regex) (s : str) : option groups :=
  match re_match r s with
  | Some m => Some m
  | None =>
    match s with
    | [] => None
    | _ :: s' => re_search r s'
    end
  end.

(** [int(s)] on the text of a [(\d+)] group: the decimal value of a non-empty
    run of digits; anything else is a [ValueError], and so is a run of more
    than [sys.get_int_max_str_digits()] digits, leading zeros counted.  (The
    signs, blanks and underscores [int] also reads cannot occur in such a
    group.) *)
Fixpoint int_digits (acc : Z) (s : str) : option Z :=
  match s with
  | [] => Some acc
  | c :: s' =>
    match digit_value T c with
    | Some d => int_digits (10 * acc + Z.of_N d) s'
    | None => None
    end
  end.

Definition int (s : str) : result Z :=
  match s with
  | [] => Raise (Exn ValueError (u "invalid literal for int()"))
  | _ =>
    match int_digits 0 s with
    | Some n =>
      if (INT_MAX_STR_DIGITS <? Z.of_nat (length s))%Z
      then Raise (too_many_digits (length s))
      else Ok n
    | None => Raise (Exn ValueError (u "invalid literal for int()"))
    end
  end.

(** [int(match.group(i))]; [int(None)] is a [TypeError]. *)
Definition int_group (m : groups) (i : nat) : result Z :=
  match group m i with
  | Some s => int s
  | None => Raise (Exn TypeError (u "int() argument must be a string"))
  end.

End Matcher.

(** The tables restricted to ASCII, as Python has them on ASCII text. *)
Module Ascii_tables.

Definition digit (c : char) : option N :=
  if ((48 <=? c) && (c <=? 57))%N then Some (c - 48)%N else None.

Definition space (c : char) : bool :=
  (((9 <=? c) && (c <=? 13)) || ((28 <=? c) && (c <=? 32)))%N.

Definition lower (c : char) : char :=
  if ((65 <=? c) && (c <=? 90))%N then (c + 32)%N else c.

Definition letter (x c : char) : bool := char_eqb (lower x) (lower c).

Definition tables : re_tables :=
  {| digit_value := digit; is_space := space; same_letter := letter |}.

End Ascii_tables.

(** ** The patterns of [extract_expiry_days] *)

Definition cat (rs : list regex) : regex := fold_right Seq Eps rs.

(** A run of literal characters, case-sensitive or under [re.IGNORECASE]. *)
Definition lit (s : string) : regex := cat (map (fun c => One (Lit c)) (u s)).
Definition liti (s : string) : regex := cat (map (fun c => One (LitI c)) (u s)).

Definition ws : regex := Star Space.               (* \s* *)
Definition num (i : nat) : regex := Group i (Plus Digit).   (* (\d+) *)
Definition LOWER_S : char := 115%N.

(** [r"Your server expires in\s*(\d+)D\s*(\d+)H\s*(\d+)M"] *)
Definition FORMAT1 : regex :=
  cat [lit "Your server expires in"; ws; num 1; lit "D"; ws; num 2; lit "H";
       ws; num 3; lit "M"].

(** [r"Expires in\s*(\d+)H\s*(\d+)M", re.IGNORECASE] *)
Definition FORMAT2 : regex :=
  cat [liti "Expires in"; ws; num 1; liti "H"; ws; num 2; liti "M"].

(** [r"expiring in\s*(\d+)\s*Hours?\s*(\d+)\s*Minutes?", re.IGNORECASE] *)
Definition FORMAT3 : regex :=
  cat [liti "expiring in"; ws; num 1; ws; liti "Hour"; Opt (LitI LOWER_S);
       ws; num 2; ws; liti "Minute"; Opt (LitI LOWER_S)].

(** [r"Expires in\s*(\d+)D\s*(\d+)H\s*(\d+)M", re.IGNORECASE] *)
Definition FORMAT4 : regex :=
  cat [liti "Expires in"; ws; num 1; liti "D"; ws; num 2; liti "H";
       ws; num 3; liti "M"].

(** [r"(?:expires|expiring) in\s*(\d+)D", re.IGNORECASE] *)
Definition FORMAT5 : regex :=
  cat [Alt (liti "expires") (liti "expiring"); liti " in"; ws; num 1; liti "D"].

(** ** [PellaAutoRenew.extract_expiry_days] *)

(** The local variables of the function. *)
Record locals := Locals {
  days_int : Z;
  hours_int : Z;
  minutes_int : Z;
  found : bool
}.

(** [days_int + (hours_int / 24) + (minutes_int / (24 * 60))], in the order
    Python evaluates it: the first quotient, the conversion of [days_int] for
    the first sum, the second quotient, the second sum. *)
Definition total_days (d h mi : Z) : result float :=
  rbind (int_true_div h 24) (fun hours =>
  rbind (float_of_int d) (fun days =>
  rbind (int_true_div mi (24 * 60)) (fun minutes =>
  Ok (float_add (float_add days hours) minutes)))).

(** The value returned when nothing could be parsed, [-1.0]. *)
Definition UNPARSED : float := SFopp (nearest_float 1).

Definition DAYS : str := u " 天".
Definition HOURS : str := u " 小时".
Definition MINUTES : str := u " 分钟".
Definition ZERO_MINUTES : str := u "0 分钟".
Definition CANNOT_EXTRACT : str := u "无法提取".

(** [parts.append(...)] under its guard. *)
Definition append_if (b : bool) (parts : list str) (p : str) : list str :=
  if b then parts ++ [p] else parts.

(** Lines 211-224: the detail string of a match. *)
Definition detailed_string (l : locals) : str :=
  let parts := [] in
  let parts := append_if (days_int l >? 0)%Z parts (str_of_int (days_int l) ++ DAYS) in
  let parts := append_if (hours_int l >? 0)%Z parts (str_of_int (hours_int l) ++ HOURS) in
  let parts := append_if (minutes_int l >? 0)%Z parts (str_of_int (minutes_int l) ++ MINUTES) in
  match parts with
  | [] => ZERO_MINUTES
  | _ => join SPACE parts
  end.

Section Parser.

Variable T : re_tables.
Local Open Scope result_scope.

(** Format 1, tried unconditionally. *)
Definition try_format1 (page_source : str) (l : locals) : result locals :=
  match re_search T FORMAT1 page_source with
  | Some m =>
    d <- int_group T m 1 ;;
    h <- int_group T m 2 ;;
    mi <- int_group T m 3 ;;
    Ok (Locals d h mi true)
  | None => Ok l
  end.

(** Formats 2 and 3 set hours and minutes, under [if not found]. *)
Definition try_hours_minutes (r : regex) (page_source : str) (l : locals) : result locals :=
  if negb (found l) then
    match re_search T r page_source with
    | Some m =>
      h <- int_group T m 1 ;;
      mi <- int_group T m 2 ;;
      Ok (Locals (days_int l) h mi true)
    | None => Ok l
    end
  else Ok l.

(** Format 4 sets all three, under [if not found]. *)
Definition try_format4 (page_source : str) (l : locals) : result locals :=
  if negb (found l) then
    match re_search T FORMAT4 page_source with
    | Some m =>
      d <- int_group T m 1 ;;
      h <- int_group T m 2 ;;
      mi <- int_group T m 3 ;;
      Ok (Locals d h mi true)
    | None => Ok l
    end
  else Ok l.

(** Format 5 sets the days only, under [if not found]. *)
Definition try_format5 (page_source : str) (l : locals) : result locals :=
  if negb (found l) then
    match re_search T FORMAT5 page_source with
    | Some m =>
      d <- int_group T m 1 ;;
      Ok (Locals d (hours_int l) (minutes_int l) true)
    | None => Ok l
    end
  else Ok l.

Definition extract_expiry_days (page_source : str) : result (str * float) :=
  l <- try_format1 page_source (Locals 0 0 0 false) ;;
  l <- try_hours_minutes FORMAT2 page_source l ;;
  l <- try_hours_minutes FORMAT3 page_source l ;;
  l <- try_format4 page_source l ;;
  l <- try_format5 page_source l ;;
  if found l then
    let detailed_string := detailed_string l in
    total_days_float <- total_days (days_int l) (hours_int l) (minutes_int l) ;;
    Ok (detailed_string, total_days_float)
  else Ok (CANNOT_EXTRACT, UNPARSED).

End Parser.

(** ** What a match of the matcher is

    A declarative reading of the patterns, used to reason about the groups a
    successful search hands to [int]. *)

(** The numbers of the groups of a pattern, in the order they close. *)
Fixpoint ids (r : regex) : list nat :=
  match r with
  | Seq r1 r2 => ids r1 ++ ids r2
  | Alt r1 r2 => ids r1 ++ ids r2
  | Group i r' => i :: ids r'
  | _ => []
  end.

(** Every group of the pattern is [(\d+)], and none sits under [|]. *)
Fixpoint digit_groups (r : regex) : bool :=
  match r with
  | Seq r1 r2 => digit_groups r1 && digit_groups r2
  | Alt r1 r2 => match ids r1 ++ ids r2 with [] => true | _ => false end
  | Group _ (Plus Digit) => true
  | Group _ _ => false
  | _ => true
  end.

Section Match_relation.

Variable T : re_tables.

(** [sem r s m s' m']: [r] consumes a prefix of [s], leaves [s'], and turns
    the groups [m] into [m']. *)
Fixpoint sem (r : regex) (s : str) (m : groups) (s' : str) (m' : groups) : Prop :=
  match r with
  | Eps => s' = s /\ m' = m
  | One k => exists c, s = c :: s' /\ in_class T k c = true /\ m' = m
  | Star k =>
    exists pre, s = pre ++ s' /\ forallb (in_class T k) pre = true /\ m' = m
  | Plus k =>
    exists c pre, s = c :: pre ++ s' /\ in_class T k c = true /\
                  forallb (in_class T k) pre = true /\ m' = m
  | Opt k =>
    (s' = s \/ exists c, s = c :: s' /\ in_class T k c = true) /\ m' = m
  | Seq r1 r2 => exists s1 m1, sem r1 s m s1 m1 /\ sem r2 s1 m1 s' m'
  | Alt r1 r2 => sem r1 s m s' m' \/ sem r2 s m s' m'
  | Group i r' => exists m0, sem r' s m s' m0 /\ m' = (i, consumed s s') :: m0
  end.

(** A non-empty run of [\d] characters. *)
Definition is_number (t : str) : Prop :=
  t <> [] /\ forallb (in_class T Digit) t = true.

End Match_relation.

(** ** The documented reading of the parser

    The five pattern families in their documented order, the components each
    one carries, and the result a family gives.  These follow the text of the
    specification and are compared with [extract_expiry_days] below. *)

Inductive family :=
| Legacy          (* 1. "Your server expires in N D N H N M", case-sensitive *)
| HeaderHM        (* 2. "Expires in N H N M" *)
| BodyHM          (* 3. "expiring in N Hours N Minutes" *)
| HeaderDHM       (* 4. "Expires in N D N H N M" *)
| DaysOnly.       (* 5. "expires|expiring in N D" *)

Definition precedence : list family :=
  [Legacy; HeaderHM; BodyHM; HeaderDHM; DaysOnly].

Definition pattern_of (f : family) : regex :=
  match f with
  | Legacy => FORMAT1
  | HeaderHM => FORMAT2
  | BodyHM => FORMAT3
  | HeaderDHM => FORMAT4
  | DaysOnly => FORMAT5
  end.

Inductive component := Days | Hours | Minutes.

(** The group that holds a component, when the family has one. *)
Definition group_of (f : family) (c : component) : option nat :=
  match f, c with
  | Legacy, Days | HeaderDHM, Days | DaysOnly, Days => Some 1%nat
  | Legacy, Hours | HeaderDHM, Hours => Some 2%nat
  | Legacy, Minutes | HeaderDHM, Minutes => Some 3%nat
  | HeaderHM, Hours | BodyHM, Hours => Some 1%nat
  | HeaderHM, Minutes | BodyHM, Minutes => Some 2%nat
  | _, _ => None
  end.

Definition unit_label (c : component) : str :=
  match c with
  | Days => u "天"
  | Hours => u "小时"
  | Minutes => u "分钟"
  end.

(** The non-zero components with their unit labels, joined by blanks; the
    zero-minutes string when there is none. *)
Definition detail_of (d h mi : Z) : str :=
  let nonzero :=
    filter (fun p => negb (snd p =? 0)%Z) [(Days, d); (Hours, h); (Minutes, mi)] in
  match nonzero with
  | [] => ZERO_MINUTES
  | _ => join SPACE
           (map (fun p => str_of_int (snd p) ++ SPACE ++ unit_label (fst p)) nonzero)
  end.

(** The text a match holds for a component, when the family has a group for
    it. *)
Definition component_text (f : family) (m : groups) (c : component) : option str :=
  match group_of f c with
  | Some i => group m i
  | None => None
  end.

(** A component has no more digits than [int] reads; so has every
    component of the match. *)
Definition component_within_limit (f : family) (m : groups) (c : component) : bool :=
  match component_text f m c with
  | Some t => (Z.of_nat (length t) <=? INT_MAX_STR_DIGITS)%Z
  | None => true
  end.

Definition within_digit_limit (f : family) (m : groups) : bool :=
  forallb (component_within_limit f m) [Days; Hours; Minutes].

(** The three components are within the range of a float: each stays below
    the magnitude at which its conversion or its quotient overflows. *)
Definition within_float_range (d h mi : Z) : bool :=
  ((d <? OVERFLOW_THRESHOLD) && (h <? OVERFLOW_THRESHOLD * 24)
   && (mi <? OVERFLOW_THRESHOLD * 1440))%Z.

(** [days + hours/24 + minutes/1440] in floats: each quotient and each sum
    rounded, from left to right. *)
Definition total_of (d h mi : Z) : float :=
  float_add (float_add (nearest_float d) (nearest_quotient h 24))
            (nearest_quotient mi 1440).

Section Reading.

Variable T : re_tables.
Local Open Scope result_scope.

(** The number a run of digits denotes: a digit [i] places from the right
    counts [10 ^ i] times its value. *)
Fixpoint decimal (t : str) : Z :=
  match t with
  | [] => 0
  | c :: t' =>
    (match digit_value T c with Some d => Z.of_N d | None => 0 end
     * 10 ^ Z.of_nat (length t') + decimal t')%Z
  end.

(** The documented value of a component: the number its digits denote, 0
    when the family has no group for it. *)
Definition reading (f : family) (m : groups) (c : component) : Z :=
  match component_text f m c with
  | Some t => decimal t
  | None => 0
  end.

(** A component of a match: its group read as an integer, 0 without a group. *)
Definition component_value (f : family) (m : groups) (c : component) : result Z :=
  match group_of f c with
  | Some i => int_group T m i
  | None => Ok 0%Z
  end.

(** The result of one family on its match. *)
Definition family_result (f : family) (m : groups) : result (str * float) :=
  d <- component_value f m Days ;;
  h <- component_value f m Hours ;;
  mi <- component_value f m Minutes ;;
  total <- total_days d h mi ;;
  Ok (detailed_string (Locals d h mi true), total).

(** The first family of the list that matches somewhere in the text. *)
Fixpoint first_match (fams : list family) (page_source : str)
    : option (family * groups) :=
  match fams with
  | [] => None
  | f :: fams' =>
    match re_search T (pattern_of f) page_source with
    | Some m => Some (f, m)
    | None => first_match fams' page_source
    end
  end.

End Reading.


(** ** The comparison after the renewals ([renew_server], lines 685-702) *)

(** [round(days_added * 24 * 3600)]; the two [int] factors are converted to
    floats, exactly. *)
Definition added_seconds (initial_value final_value : float) : result Z :=
  let days_added := float_sub final_value initial_value in
  round_float
    (float_mul (float_mul days_added (nearest_float 24)) (nearest_float 3600)).

(** [added_days], [added_hours] and [added_minutes] of lines 692-694. *)
Definition added_days (added_seconds : Z) : Z := (added_seconds / (24 * 3600))%Z.
Definition added_hours (added_seconds : Z) : Z :=
  ((added_seconds mod (24 * 3600)) / 3600)%Z.
Definition added_minutes (added_seconds : Z) : Z := ((added_seconds mod 3600) / 60)%Z.

(** [f"{added_days} 天 {added_hours} 小时 {added_minutes} 分钟"] *)
Definition added_string (initial_value final_value : float) : result str :=
  rbind (added_seconds initial_value final_value) (fun added_seconds =>
    let added_days := (added_seconds / (24 * 3600))%Z in
    let added_hours := ((added_seconds mod (24 * 3600)) / 3600)%Z in
    let added_minutes := ((added_seconds mod 3600) / 60)%Z in
    Ok (str_of_int added_days ++ u " 天 " ++ str_of_int added_hours ++ u " 小时 "
        ++ str_of_int added_minutes ++ u " 分钟")).

Definition renew_success (initial_details final_details added : str) : str :=
  u "✅ 续期成功! 初始 " ++ initial_details ++ u " -> 最终 " ++ final_details
    ++ u " " ++ u "(共续期 " ++ added ++ u ")".

Definition renew_no_increase (final_details : str) : str :=
  u "⚠️ 续期操作完成，但天数未增加 (" ++ final_details ++ u ")。".

Definition RENEW_DECREASED : str := u "❌ 续期操作完成，但天数不升反降!".

(** Lines 688-702, on the two snapshots. *)
Definition compare_expiry (initial_details : str) (initial_value : float)
    (final_details : str) (final_value : float) : result str :=
  if gt final_value initial_value then
    rbind (added_string initial_value final_value) (fun added_string =>
      Ok (renew_success initial_details final_details added_string))
  else if float_eq final_value initial_value then
    Ok (renew_no_increase final_details)
  else Ok RENEW_DECREASED.

(** Lines 685-702: parse the reloaded page and compare it with the snapshot
    taken before the loop. *)
Definition check_renew_result (T : re_tables) (initial_details : str)
    (initial_value : float) (final_page_source : str) : result str :=
  rbind (extract_expiry_days T final_page_source) (fun final =>
    compare_expiry initial_details initial_value (fst final) (snd final)).

(** ** The browser

    Selenium is outside the script.  A [webdriver] gives the calls the script
    makes on it; each takes the world (the browser and the site behind it) and
    returns a value or raises, with the world after the call.  The statements
    below hold for any such driver; [Demo] further down is one that runs. *)

Inductive By := CSS_SELECTOR | XPATH | TAG_NAME.

Definition locator := (By * str)%type.

(** The expected conditions the script waits for. *)
Inductive element_condition :=
| presence_of_element_located (l : locator)
| element_to_be_clickable (l : locator).

Inductive url_condition :=
| url_changes (url : str)
| url_to_be (url : str)
| url_contains (part : str).

(** A [WebDriverWait(driver, timeout).until(condition)] that was started. *)
Inductive wait :=
| Wait_element (c : element_condition) (timeout : Z)
| Wait_url (c : url_condition) (timeout : Z).

Record webdriver (world element : Type) := {
  (** [WebDriverWait(driver, timeout).until(c)]: the element, or
      [TimeoutException] when the deadline passes *)
  until_element : element_condition -> Z -> world -> result element * world;
  until_url : url_condition -> Z -> world -> result unit * world;
  (** [driver.current_url] *)
  current_url : world -> result str * world;
  (** [element.is_displayed()], [element.text] *)
  is_displayed : element -> world -> result bool * world;
  text : element -> world -> result str * world;
  (** [save_debug_info(step_name)]: it catches every exception of its own *)
  save_debug_info : str -> world -> world;
  (** [driver.quit()] *)
  quit : world -> result unit * world
}.
Arguments until_element {world element} _ _ _ _.
Arguments until_url {world element} _ _ _ _.
Arguments current_url {world element} _ _.
Arguments is_displayed {world element} _ _ _.
Arguments text {world element} _ _ _.
Arguments save_debug_info {world element} _ _ _.
Arguments quit {world element} _ _.

(** The state a run threads: the world, and the waits started so far. *)
Record session (world : Type) := Session {
  browser : world;
  waits : list wait
}.
Arguments Session {world} _ _.
Arguments browser {world} _.
Arguments waits {world} _.

(** A method of the script: it returns or raises, and leaves a session. *)
Definition M (world A : Type) : Type := session world -> result A * session world.

Definition ret {world A} (a : A) : M world A := fun s => (Ok a, s).

Definition raise {world A} (e : exn) : M world A := fun s => (Raise e, s).

Definition bind {world A B} (m : M world A) (k : A -> M world B) : M world B :=
  fun s =>
    match m s with
    | (Ok a, s') => k a s'
    | (Raise e, s') => (Raise e, s')
    end.

(** [try: body / except ...: handler]; [handler e = None] when no [except]
    clause takes [e], which then goes on up. *)
Definition try_except {world A} (body : M world A)
    (handler : exn -> option (M world A)) : M world A :=
  fun s =>
    match body s with
    | (Ok a, s') => (Ok a, s')
    | (Raise e, s') =>
      match handler e with
      | Some h => h s'
      | None => (Raise e, s')
      end
    end.

(** [try: body / finally: cleanup]: an exception of the cleanup replaces the
    outcome of the body. *)
Definition try_finally {world A} (body : M world A) (cleanup : M world unit)
    : M world A :=
  fun s =>
    match body s with
    | (r, s') =>
      match cleanup s' with
      | (Ok _, s'') => (r, s'')
      | (Raise e, s'') => (Raise e, s'')
      end
    end.

(** [except TimeoutException:] and [except Exception:] *)
Definition except_timeout {world A} (h : M world A) (e : exn) : option (M world A) :=
  if is_timeout e then Some h else None.

Definition except_exception {world A} (h : exn -> M world A) (e : exn)
    : option (M world A) := Some (h e).

Declare Scope method_scope.
Delimit Scope method_scope with method.
Notation "x <- m ;; k" := (bind m (fun x => k))
  (at level 61, m at next level, right associativity) : method_scope.
Notation "m ;; k" := (bind m (fun _ => k))
  (at level 61, right associativity) : method_scope.

(** [s.strip()]: Python's whitespace, from both ends. *)
Definition py_isspace (c : char) : bool :=
  (((9 <=? c) && (c <=? 13)) || ((28 <=? c) && (c <=? 32)) || (c =? 133)
   || (c =? 160) || (c =? 5760) || ((8192 <=? c) && (c <=? 8202))
   || (c =? 8232) || (c =? 8233) || (c =? 8239) || (c =? 8287) || (c =? 12288))%N.

Fixpoint lstrip (s : str) : str :=
  match s with
  | c :: s' => if py_isspace c then lstrip s' else s
  | [] => []
  end.

Definition strip (s : str) : str := rev (lstrip (rev (lstrip s))).

Definition LOGIN_URL : str := u "https://www.pella.app/login".
Definition HOME_URL : str := u "https://www.pella.app/home".
Definition WAIT_TIME_AFTER_LOGIN : Z := 20.

Definition LOGIN_FAILED : str := u "登录失败".
Definition GOOGLE_REDIRECT : str :=
  u "❌ 检测到重定向至 Google 登录页面。脚本不支持 Google OAuth 登录，请确保您的 Pella 账号已设置密码，并支持直接使用邮箱+密码登录。".
Definition STILL_ON_LOGIN_PAGE : str := u "❌ 登录失败，仍停留在登录页面".

(** The locators tried for an error message after a login that timed out. *)
Definition error_selectors : list locator :=
  [(CSS_SELECTOR, u ".cl-alert-danger");
   (CSS_SELECTOR, u "[data-testid*='error']");
   (CSS_SELECTOR, u "[role='alert']");
   (XPATH, u "//*[contains(@class, 'error')]")].

Section Browser.

Context {world element : Type}.
Variable D : webdriver world element.

Local Open Scope method_scope.

(** One driver call as a method. *)
Definition call {A} (f : world -> result A * world) : M world A :=
  fun s => let (r, w) := f (browser s) in (r, Session w (waits s)).

(** [WebDriverWait(self.driver, timeout).until(c)], noted in [waits]. *)
Definition wait_element (c : element_condition) (timeout : Z) : M world element :=
  fun s =>
    let (r, w) := until_element D c timeout (browser s) in
    (r, Session w (waits s ++ [Wait_element c timeout])).

Definition wait_url (c : url_condition) (timeout : Z) : M world unit :=
  fun s =>
    let (r, w) := until_url D c timeout (browser s) in
    (r, Session w (waits s ++ [Wait_url c timeout])).

Definition debug (step_name : string) : M world unit :=
  fun s => (Ok tt, Session (save_debug_info D (u step_name) (browser s)) (waits s)).

(** [wait_for_element_clickable] and [wait_for_element_present] *)
Definition wait_for_element_clickable (l : locator) (timeout : Z) : M world element :=
  wait_element (element_to_be_clickable l) timeout.

Definition wait_for_element_present (l : locator) (timeout : Z) : M world element :=
  wait_element (presence_of_element_located l) timeout.

(** [find_element_with_multiple_selectors]: the [for] loop over the
    selectors, [None] after the last one. *)
Fixpoint find_element_with_multiple_selectors (selectors : list locator)
    (timeout : Z) : M world (option element) :=
  match selectors with
  | [] => ret None
  | selector :: rest =>
    try_except
      (element <- wait_element (presence_of_element_located selector) timeout ;;
       ret (Some element))
      (except_timeout (find_element_with_multiple_selectors rest timeout))
  end.

(** [login], lines 290-295: the wait for the page to change after the e-mail
    was submitted. *)
Definition wait_for_page_switch (initial_url : str) : M world unit :=
  try_except
    (wait_url (url_changes initial_url) 10)
    (except_timeout (ret tt)).

(** [login], lines 447-464: the look for an error message. *)
Definition check_error_message : M world unit :=
  try_except
    (error_element <- find_element_with_multiple_selectors error_selectors 2 ;;
     match error_element with
     | Some el =>
       shown <- call (is_displayed D el) ;;
       if shown then
         error_text <- call (text D el) ;;
         raise (Exn Exception (u "❌ 登录失败: " ++ strip error_text))
       else ret tt
     | None => ret tt
     end)
    (except_exception (fun e =>
       if contains (str_of_exn e) LOGIN_FAILED then raise e else ret tt)).

(** [login], lines 444-476: the handler of the [TimeoutException] of the wait
    for the home page. *)
Definition login_timed_out : M world bool :=
  debug "error_login_timeout" ;;
  check_error_message ;;
  url <- call (current_url D) ;;
  if contains url (u "accounts.google.com") then
    raise (Exn Exception GOOGLE_REDIRECT)
  else if contains url (u "login") then
    raise (Exn Exception STILL_ON_LOGIN_PAGE)
  else ret true.

(** [login], step 5 (lines 429-476). *)
Definition wait_for_login : M world bool :=
  try_except
    (wait_url (url_to_be HOME_URL) WAIT_TIME_AFTER_LOGIN ;;
     url <- call (current_url D) ;;
     if startswith url HOME_URL then
       debug "step5_login_success" ;; ret true
     else
       current_url <- call (current_url D) ;;
       raise (Exn Exception (u "⚠️ 登录后未跳转到 HOME 页面: " ++ current_url)))
    (except_timeout login_timed_out).

End Browser.

(** ** The end of [renew_server] (lines 661-704) *)

Definition LINKS_NOT_REFRESHED : str := u "⏳ 续期链接尚未刷新，请等待 24 小时后再试。".
Definition NO_CLICKABLE_BUTTON : str := u "⏳ 未找到可点击的续期按钮，可能今日已续期。".
Definition NO_BUTTON_AT_ALL : str := u "⏳ 未找到任何续期按钮。".
Definition NOTHING_RENEWED : str := u "⏳ 未执行续期操作。".

Section Renew_report.

Variable T : re_tables.
(** [str.lower()], from the Unicode database like the tables of [re]. *)
Variable lower : str -> str.
Context {element : Type}.

(** Lines 661-675: no link was processed. *)
Definition nothing_to_renew (disabled_buttons : list element) (page_source : str) : str :=
  if contains page_source (u "Links update every")
     || contains (lower page_source) (u "update every 24 hours")
  then LINKS_NOT_REFRESHED
  else match disabled_buttons with
       | _ :: _ => NO_CLICKABLE_BUTTON
       | [] => NO_BUTTON_AT_ALL
       end.

(** Lines 661-704, after the loop: [renewed_count] links were processed,
    [disabled_buttons] and [page_source] are read when it is 0,
    [final_page_source] is the reloaded page when it is not. *)
Definition renew_report (renewed_count : nat) (disabled_buttons : list element)
    (page_source : str) (initial_details : str) (initial_value : float)
    (final_page_source : str) : result str :=
  if Nat.eqb renewed_count 0 then Ok (nothing_to_renew disabled_buttons page_source)
  else if Nat.ltb 0 renewed_count then
    check_renew_result T initial_details initial_value final_page_source
  else Ok NOTHING_RENEWED.

End Renew_report.

(** ** [MultiAccountManager.send_notification]: the text of the summary *)

(** One entry of [results]: [(email, success, result)]. *)
Definition outcome := (str * bool * str)%type.

Definition RENEWED_MARK : str := u "续期成功".
Definition ALREADY_DONE_MARK : str := u "未找到可点击".

(** [sum(1 for ... in results if test)] *)
Definition count_if (test : outcome -> bool) (results : list outcome) : Z :=
  Z.of_nat (length (filter test results)).

Definition success_count (results : list outcome) : Z :=
  count_if (fun '(_, success, result) => success && contains result RENEWED_MARK) results.

Definition already_done_count (results : list outcome) : Z :=
  count_if (fun '(_, success, result) => success && contains result ALREADY_DONE_MARK)
           results.

Definition failure_count (results : list outcome) : Z :=
  count_if (fun '(_, success, _) => negb success) results.

Definition total_count (results : list outcome) : Z := Z.of_nat (length results).

(** Lines 795-799. *)
Definition summary_header (results : list outcome) : str :=
  u "🎁 Pella自动续期通知" ++ [NEWLINE; NEWLINE]
  ++ u "📋 共处理: " ++ str_of_int (total_count results) ++ u " 个" ++ [NEWLINE]
  ++ u "✅ 续期成功: " ++ str_of_int (success_count results) ++ u " 个" ++ [NEWLINE]
  ++ u "⏳ 已续期: " ++ str_of_int (already_done_count results) ++ u " 个" ++ [NEWLINE]
  ++ u "❌ 失败: " ++ str_of_int (failure_count results) ++ u " 个" ++ [NEWLINE; NEWLINE].

(** Lines 802-807. *)
Definition status_of (success : bool) (result : str) : str :=
  if success && contains result RENEWED_MARK then u "✅"
  else if contains result ALREADY_DONE_MARK then u "⏳"
  else u "❌".

(** Lines 809-813. *)
Definition masked_email (email : str) : str :=
  match split_once AT_SIGN email with
  | Some (local_part, domain) => slice_to 3 local_part ++ u "***@" ++ domain
  | None => slice_to 3 email ++ u "***"
  end.

(** [result.split('\n')[0][:100]] *)
Definition short_result (result : str) : str :=
  slice_to 100 (split_head NEWLINE result).

(** [f"{status} {masked_email}: {short_result}\n"] *)
Definition account_line (o : outcome) : str :=
  let '(email, success, result) := o in
  status_of success result ++ u " " ++ masked_email email ++ u ": "
    ++ short_result result ++ [NEWLINE].

(** The [message] of lines 795-816: the header, then [message += line] for
    each entry of [results]. *)
Definition notification_message (results : list outcome) : str :=
  fold_left (fun message o => message ++ account_line o) results
            (summary_header results).

(** ** [PellaAutoRenew.run] and [MultiAccountManager.run_all] *)

Record account := Account { email : str; password : str }.

Definition is_empty (s : str) : bool :=
  match s with [] => true | _ => false end.

Section Accounts.

Context {world element : Type}.
Variable D : webdriver world element.

(** The parts of the script that [run] and [run_all] only call: what they
    do inside does not matter below, each may return or raise anything. *)
Variable setup_driver : M world unit.             (* webdriver.Chrome(...) *)
Variable login_form : account -> M world unit.    (* login, steps 1 to 4 *)
Variable get_server_url : M world bool.
Variable renew_server : M world str.
(** [send_notification] after the text is built: it returns at once without
    the Telegram settings, and catches every exception of the request. *)
Variable telegram_configured : bool.
Variable post_message : str -> world -> world.

Local Open Scope method_scope.

(** [PellaAutoRenew.__init__] *)
Definition init (a : account) : M world unit :=
  if is_empty (email a) || is_empty (password a) then
    raise (Exn ValueError (u "邮箱和密码不能为空"))
  else setup_driver.

Definition login (a : account) : M world bool :=
  login_form a ;; wait_for_login D.

Definition run (a : account) : M world (bool * str) :=
  try_finally
    (try_except
       (logged_in <- login a ;;
        if logged_in : bool then
          have_url <- get_server_url ;;
          if have_url : bool then
            result <- renew_server ;;
            ret (true, result)
          else ret (false, u "❌ 无法获取服务器URL")
        else ret (false, u "❌ 登录失败"))
       (except_exception (fun e =>
          debug D "error_final" ;;
          ret (false, u "❌ 自动续期失败: " ++ str_of_exn e))))
    (call (quit D)).

(** The body of the [for] loop of [run_all] up to [results.append]: the
    [(success, result)] of one account. *)
Definition run_account (a : account) : M world (bool * str) :=
  try_except
    (init a ;; run a)
    (except_exception (fun e => ret (false, u "❌ 处理账号异常: " ++ str_of_exn e))).

(** The [for] loop of [run_all], [results] being the list built so far. *)
Fixpoint for_accounts (accounts : list account) (results : list outcome)
    : M world (list outcome) :=
  match accounts with
  | [] => ret results
  | a :: rest =>
    r <- run_account a ;;
    for_accounts rest (results ++ [(email a, fst r, snd r)])
  end.

Definition send_notification (results : list outcome) : M world unit :=
  if negb telegram_configured then ret tt
  else fun s =>
    (Ok tt, Session (post_message (notification_message results) (browser s)) (waits s)).

Definition run_all (accounts : list account) : M world (bool * list outcome) :=
  results <- for_accounts accounts [] ;;
  send_notification results ;;
  let success_count := count_if (fun '(_, success, _) => success) results in
  ret (Z.eqb success_count (Z.of_nat (length accounts)), results).

End Accounts.

(** ** A driver that runs

    A page that does not change while the script waits: a wait succeeds at
    once or uses up its whole timeout. *)
Module Demo.

Record element := Element { shown : bool; label : str }.

Record world := World {
  url : str;
  page : list (locator * element);
  elapsed : Z           (* seconds spent in waits that timed out *)
}.

Definition by_eqb (a b : By) : bool :=
  match a, b with
  | CSS_SELECTOR, CSS_SELECTOR | XPATH, XPATH | TAG_NAME, TAG_NAME => true
  | _, _ => false
  end.

Fixpoint lookup (l : locator) (p : list (locator * element)) : option element :=
  match p with
  | [] => None
  | (l', e) :: p' =>
    if by_eqb (fst l) (fst l') && str_eqb (snd l) (snd l') then Some e
    else lookup l p'
  end.

Definition timed_out {A} (timeout : Z) (w : world) : result A * world :=
  (Raise (Exn TimeoutException (u "Message: ")),
   World (url w) (page w) (elapsed w + timeout)).

Definition poll_element (c : element_condition) (timeout : Z) (w : world)
    : result element * world :=
  match c with
  | presence_of_element_located l =>
    match lookup l (page w) with
    | Some e => (Ok e, w)
    | None => timed_out timeout w
    end
  | element_to_be_clickable l =>
    match lookup l (page w) with
    | Some e => if shown e then (Ok e, w) else timed_out timeout w
    | None => timed_out timeout w
    end
  end.

Definition poll_url (c : url_condition) (timeout : Z) (w : world)
    : result unit * world :=
  let holds :=
    match c with
    | url_changes old => negb (str_eqb (url w) old)
    | url_to_be target => str_eqb (url w) target
    | url_contains part => contains (url w) part
    end in
  if holds then (Ok tt, w) else timed_out timeout w.

Definition driver : webdriver world element :=
  Build_webdriver world element
    poll_element
    poll_url
    (fun w => (Ok (url w), w))
    (fun e w => (Ok (shown e), w))
    (fun e w => (Ok (label e), w))
    (fun _ w => w)
    (fun w => (Ok tt, w)).

End Demo.

(** ** Chains of locators that time out *)

Section Chain_outcomes.

Context {world element : Type}.
Variable D : webdriver world element.

(** The waits for the presence of each selector, one after the other, all
    end in [TimeoutException]: the world after the last of them. *)
Fixpoint all_time_out (selectors : list locator) (timeout : Z) (w : world)
    : option world :=
  match selectors with
  | [] => Some w
  | l :: rest =>
    match until_element D (presence_of_element_located l) timeout w with
    | (Raise e, w') => if is_timeout e then all_time_out rest timeout w' else None
    | (Ok _, _) => None
    end
  end.

(** The waits a chain starts when each of [selectors] is tried with [timeout]. *)
Definition presence_waits (selectors : list locator) (timeout : Z) : list wait :=
  map (fun l => Wait_element (presence_of_element_located l) timeout) selectors.

End Chain_outcomes.

(** ** Entries of the report *)

(** The identity an entry of the report is for. *)
Definition outcome_email (o : outcome) : str := fst (fst o).

(** What [run_all] appends for an account whose run raised [e]. *)
Definition account_fault (a : account) (e : exn) : outcome :=
  (email a, false, u "❌ 处理账号异常: " ++ str_of_exn e).

(** ** A batch that runs *)
Module Demo_batch.

Definition world0 : Demo.world := Demo.World HOME_URL [] 0.

Definition setup_driver : M Demo.world unit := ret tt.

(** The form rejects one password. *)
Definition login_form (a : account) : M Demo.world unit :=
  if str_eqb (password a) (u "wrong") then
    raise (Exn Exception (u "❌ 输入密码失败: rejected"))
  else ret tt.

Definition get_server_url : M Demo.world bool := ret true.

Definition renew_server : M Demo.world str := ret NO_CLICKABLE_BUTTON.

Definition first : account := Account (u "alice@example.com") (u "secret").
Definition rejected : account := Account (u "bob@example.com") (u "wrong").
Definition unset : account := Account (u "carol@example.com") [].
Definition last : account := Account (u "dave@example.com") (u "hunter2").

Definition run_all (accounts : list account) :=
  run_all Demo.driver setup_driver login_form get_server_url renew_server
    false (fun _ w => w) accounts (Session world0 []).

End Demo_batch.

(** ** [MultiAccountManager.load_accounts] *)

(** [os.environ]: the variables that are set, with their values. *)
Definition environ := string -> option str.

(** [os.getenv(key, default)] *)
Definition getenv (env : environ) (key : string) (default : str) : str :=
  match env key with
  | Some v => v
  | None => default
  end.

Definition COLON : char := 58%N.
Definition COMMA : char := 44%N.
Definition SEMICOLON : char := 59%N.

(** The class [[;,]]. *)
Definition is_separator (c : char) : bool :=
  char_eqb c SEMICOLON || char_eqb c COMMA.

(** [re.split(r'[;,]', s)] for a pattern that is one character class: the
    pieces between the separators, empty ones included. *)
Fixpoint re_split (sep : char -> bool) (s : str) : list str :=
  match s with
  | [] => [[]]
  | c :: s' =>
    if sep c then [] :: re_split sep s'
    else match re_split sep s' with
         | piece :: pieces => (c :: piece) :: pieces
         | [] => [[c]]
         end
  end.

(** Line 752: [[pair.strip() for pair in re.split(...) if pair.strip()]] *)
Definition account_pairs (accounts_str : str) : list str :=
  map strip
      (filter (fun pair => negb (is_empty (strip pair)))
              (re_split is_separator accounts_str)).

(** Lines 755-762, the body of the loop over the pairs. *)
Definition add_pair (accounts : list account) (pair : str) : list account :=
  match split_once COLON pair with
  | Some (email, password) =>
    let email := strip email in
    let password := strip password in
    if negb (is_empty email) && negb (is_empty password) then
      accounts ++ [Account email password]
    else accounts
  | None => accounts
  end.

(** Lines 752-762: the accounts of a multi-account string. *)
Definition parse_accounts (accounts_str : str) : list account :=
  fold_left add_pair (account_pairs accounts_str) [].

Definition NO_ACCOUNT_CONFIGURED : str := u "⚠️ 未找到有效的账号配置".

Definition load_accounts (env : environ) : result (list account) :=
  let accounts_str :=
    strip (getenv env "PELLA_ACCOUNTS" (getenv env "LEAFLOW_ACCOUNTS" [])) in
  let accounts :=
    if negb (is_empty accounts_str) then parse_accounts accounts_str else [] in
  match accounts with
  | _ :: _ => Ok accounts
  | [] =>
    let single_email :=
      strip (getenv env "PELLA_EMAIL" (getenv env "LEAFLOW_EMAIL" [])) in
    let single_password :=
      strip (getenv env "PELLA_PASSWORD" (getenv env "LEAFLOW_PASSWORD" [])) in
    if negb (is_empty single_email) && negb (is_empty single_password) then
      Ok (accounts ++ [Account single_email single_password])
    else Raise (Exn ValueError NO_ACCOUNT_CONFIGURED)
  end.

(** The multi-account string that lists [accounts]:
    [email1:password1,email2:password2,...]. *)
Definition pair_text (a : account) : str := email a ++ COLON :: password a.

Definition accounts_text (accounts : list account) : str :=
  join [COMMA] (map pair_text accounts).

(** A text [strip] leaves as it is: not empty, no blank at either end. *)
Definition trimmed (s : str) : bool :=
  match s with
  | [] => false
  | c :: _ => negb (py_isspace c) && negb (py_isspace (last s c))
  end.

(** A field that can be written in a multi-account string: trimmed and
    without a separator. *)
Definition plain_field (s : str) : bool :=
  trimmed s && forallb (fun c => negb (is_separator c)) s.

Definition plain_account (a : account) : bool :=
  plain_field (email a) && forallb (fun c => negb (char_eqb c COLON)) (email a)
  && plain_field (password a).

(** ** [MultiAccountManager.__init__] and [main] *)

Record manager := Manager {
  telegram_bot_token : str;
  telegram_chat_id : str;
  accounts : list account
}.

Definition new_manager (env : environ) : result manager :=
  rbind (load_accounts env) (fun accounts =>
    Ok (Manager (getenv env "TG_BOT_TOKEN" []) (getenv env "TG_CHAT_ID" []) accounts)).

(** [send_notification] goes on when both Telegram settings are there. *)
Definition has_telegram (m : manager) : bool :=
  negb (is_empty (telegram_bot_token m)) && negb (is_empty (telegram_chat_id m)).

Section Main.

Context {world element : Type}.
Variable D : webdriver world element.
Variable setup_driver : M world unit.
Variable login_form : account -> M world unit.
Variable get_server_url : M world bool.
Variable renew_server : M world str.
Variable post_message : str -> world -> world.

Local Open Scope method_scope.

(** [main]: the status the process exits with.  [exit(0)] is a [SystemExit],
    which [except Exception] does not catch. *)
Definition main (env : environ) : M world Z :=
  match new_manager env with
  | Raise _ => ret 1%Z
  | Ok m =>
    try_except
      (r <- run_all D setup_driver login_form get_server_url renew_server
              (has_telegram m) post_message (accounts m) ;;
       if fst r : bool then ret 0%Z else ret 0%Z)
      (except_exception (fun _ => ret 1%Z))
  end.

End Main.

(** An account whose two fields [strip] leaves as they are. *)
Definition trimmed_account (a : account) : bool :=
  trimmed (email a) && trimmed (password a).

(** The [success] of an entry of the report. *)
Definition outcome_success (o : outcome) : bool := snd (fst o).

(** The single-account result of [load_accounts] (lines 772-781). *)
Definition single_account (env : environ) : result (list account) :=
  let single_email :=
    strip (getenv env "PELLA_EMAIL" (getenv env "LEAFLOW_EMAIL" [])) in
  let single_password :=
    strip (getenv env "PELLA_PASSWORD" (getenv env "LEAFLOW_PASSWORD" [])) in
  if negb (is_empty single_email) && negb (is_empty single_password) then
    Ok [Account single_email single_password]
  else Raise (Exn ValueError NO_ACCOUNT_CONFIGURED).

(** ** The first four steps of [login], and [get_server_url]

    The driver calls these steps add to the ones of [webdriver]. *)

Inductive script_argument (element : Type) :=
| Element_argument (e : element)
| Text_argument (s : str).
Arguments Element_argument {element} e.
Arguments Text_argument {element} s.

Record page_actions (world element : Type) := {
  (** [driver.get(url)] *)
  get : str -> world -> result unit * world;
  (** [driver.find_elements(by, value)] *)
  find_elements : locator -> world -> result (list element) * world;
  (** [driver.execute_script(script, *args)], its value unused *)
  execute_script : str -> list (script_argument element) -> world
                   -> result unit * world;
  (** [element.clear()], [element.send_keys(text)], [element.click()],
      [element.is_enabled()] *)
  clear : element -> world -> result unit * world;
  send_keys : element -> str -> world -> result unit * world;
  click : element -> world -> result unit * world;
  is_enabled : element -> world -> result bool * world
}.
Arguments get {world element} _ _ _.
Arguments find_elements {world element} _ _ _.
Arguments execute_script {world element} _ _ _ _.
Arguments clear {world element} _ _ _.
Arguments send_keys {world element} _ _ _ _.
Arguments click {world element} _ _ _.
Arguments is_enabled {world element} _ _ _.

Definition SET_VALUE_SCRIPT : str :=
  u "arguments[0].value = arguments[1];"
  ++ u "arguments[0].dispatchEvent(new Event('input', { bubbles: true }));"
  ++ u "arguments[0].dispatchEvent(new Event('change', { bubbles: true }));".
Definition CLICK_SCRIPT : str := u "arguments[0].click();".
Definition SUBMIT_SCRIPT : str := u "arguments[0].closest('form').submit();".

(** [login], step 1 *)
Definition email_selectors : list locator :=
  [(CSS_SELECTOR, u "input[name='identifier']");
   (CSS_SELECTOR, u "input[type='email']");
   (XPATH, u "//input[@name='identifier']");
   (XPATH, u "//input[@type='email']")].

(** [login], step 2 *)
Definition continue_btn_selectors : list locator :=
  [(XPATH, u "//button[contains(translate(text(), 'NEXT', 'next'), 'next') and not(contains(translate(., 'GOOGLE', 'google'), 'google'))]");
   (XPATH, u "//button[contains(translate(., 'NEXT', 'next'), 'next') and not(contains(translate(., 'GOOGLE', 'google'), 'google'))]");
   (XPATH, u "//button[contains(translate(text(), 'CONTINUE', 'continue'), 'continue') and not(contains(translate(., 'GOOGLE', 'google'), 'google'))]");
   (XPATH, u "//button[contains(translate(., 'CONTINUE', 'continue'), 'continue') and not(contains(translate(., 'GOOGLE', 'google'), 'google'))]");
   (CSS_SELECTOR, u "button[type='submit']:not([aria-label*='Google'])");
   (XPATH, u "//button[@type='submit' and not(contains(translate(., 'GOOGLE', 'google'), 'google'))]")].

(** [login], step 3 *)
Definition password_selectors : list locator :=
  [(CSS_SELECTOR, u "input[type='password']");
   (CSS_SELECTOR, u "input[name='password']");
   (XPATH, u "//input[@type='password']");
   (XPATH, u "//input[@name='password']")].

(** [login], step 4 *)
Definition login_btn_selectors : list locator :=
  [(XPATH, u "//button[contains(translate(text(), 'NEXT', 'next'), 'next') and not(contains(translate(., 'GOOGLE', 'google'), 'google'))]");
   (XPATH, u "//button[contains(translate(., 'NEXT', 'next'), 'next') and not(contains(translate(., 'GOOGLE', 'google'), 'google'))]");
   (XPATH, u "//button[@type='submit' and contains(translate(., 'NEXT', 'next'), 'next') and not(contains(translate(., 'GOOGLE', 'google'), 'google'))]");
   (XPATH, u "//button[contains(translate(text(), 'CONTINUE', 'continue'), 'continue') and not(contains(translate(., 'GOOGLE', 'google'), 'google'))]");
   (XPATH, u "//button[contains(translate(., 'CONTINUE', 'continue'), 'continue') and not(contains(translate(., 'GOOGLE', 'google'), 'google'))]");
   (XPATH, u "//button[@type='submit' and contains(translate(., 'CONTINUE', 'continue'), 'continue') and not(contains(translate(., 'GOOGLE', 'google'), 'google'))]");
   (CSS_SELECTOR, u "form button[type='submit']:not([aria-label*='Google'])");
   (XPATH, u "//form//button[@type='submit' and not(contains(translate(., 'GOOGLE', 'google'), 'google'))]");
   (XPATH, u "//button[contains(@class, 'cl-formButtonPrimary')]");
   (XPATH, u "//form//button[contains(@class, 'cl-')]");
   (CSS_SELECTOR, u "button[type='submit']:not([disabled]):not([aria-label*='Google'])");
   (XPATH, u "//button[@type='submit' and not(@disabled) and not(contains(translate(., 'GOOGLE', 'google'), 'google'))]");
   (CSS_SELECTOR, u "button[type='submit']:not([aria-label*='Google'])")].

(** [get_server_url] *)
Definition server_link_selectors : list locator :=
  [(CSS_SELECTOR, u "a[href*='/server/']");
   (XPATH, u "//a[contains(@href, '/server/')]")].

(** [renew_server], the page opened by a renewal link *)
Definition continue_selectors : list locator :=
  [(XPATH, u "//button[contains(translate(text(), 'CONTINUE', 'continue'), 'continue')]");
   (XPATH, u "//a[contains(translate(text(), 'CONTINUE', 'continue'), 'continue')]");
   (XPATH, u "//*[contains(translate(text(), 'CONTINUE', 'continue'), 'continue')]");
   (CSS_SELECTOR, u "button.continue, a.continue");
   (CSS_SELECTOR, u "button[class*='continue'], a[class*='continue']");
   (CSS_SELECTOR, u "button[id*='continue'], a[id*='continue']");
   (CSS_SELECTOR, u "#go-link, .go-link");
   (XPATH, u "//button[@id='go-link']");
   (CSS_SELECTOR, u "#btn-main, .btn-main");
   (XPATH, u "//button[contains(@class, 'btn')]")].

Definition NO_EMAIL_INPUT : str := u "❌ 找不到邮箱输入框".
Definition EMAIL_STEP_FAILED : str := u "❌ 输入邮箱失败: ".
Definition NO_CONTINUE_BUTTON : str := u "❌ 找不到第一个 Next/Continue 按钮".
Definition CONTINUE_STEP_FAILED : str := u "❌ 点击第一个 Continue 按钮失败: ".
Definition NO_PASSWORD_INPUT : str := u "❌ 找不到密码输入框".
Definition PASSWORD_STEP_FAILED : str := u "❌ 输入密码失败: ".
Definition NO_LOGIN_BUTTON : str := u "❌ 找不到最终 Next/Continue 按钮".
Definition ALL_CLICKS_FAILED : str := u "❌ 所有点击方法均失败".
Definition LOGIN_STEP_FAILED : str := u "❌ 点击最终 Continue 按钮失败: ".
Definition NO_SERVER_LINK : str := u "❌ 找不到服务器链接".
Definition SERVER_URL_FAILED : str := u "❌ 获取服务器 URL 失败: ".
Definition RUN_FAILED : str := u "❌ 自动续期失败: ".

(** [max_wait_for_enable] and [wait_interval] of step 4.  [elapsed] only
    takes the values 0, 0.5, ..., 10, which floats hold exactly: the three
    are written as rationals. *)
Definition MAX_WAIT_FOR_ENABLE : Q := 10.
Definition WAIT_INTERVAL : Q := 1 # 2.

Section Login_steps.

Context {world element : Type}.
Variable D : webdriver world element.
Variable A : page_actions world element.

Local Open Scope method_scope.

(** [except Exception as e: ... raise Exception(f"{prefix}{e}")] after a
    screenshot. *)
Definition wrap_failure (step_name : string) (prefix : str) (e : exn)
    : option (M world unit) :=
  Some (debug D step_name ;; raise (Exn Exception (prefix ++ str_of_exn e))).

(** [safe_js_set_value] *)
Definition safe_js_set_value (el : element) (value : str) : M world unit :=
  try_except
    (call (clear A el) ;; call (send_keys A el value))
    (except_exception (fun _ =>
       call (execute_script A SET_VALUE_SCRIPT
               [Element_argument el; Text_argument value]))).

(** Step 1 (lines 238-260). *)
Definition enter_email (email : str) : M world unit :=
  try_except
    (email_input <- find_element_with_multiple_selectors D email_selectors 15 ;;
     match email_input with
     | None =>
       debug D "error_no_email_input" ;;
       raise (Exn Exception NO_EMAIL_INPUT)
     | Some el => safe_js_set_value el email
     end)
    (wrap_failure "error_email_input" EMAIL_STEP_FAILED).

(** Step 2 (lines 263-302). *)
Definition submit_email : M world unit :=
  try_except
    (continue_btn_1 <-
       find_element_with_multiple_selectors D continue_btn_selectors 10 ;;
     match continue_btn_1 with
     | None =>
       debug D "error_no_continue_btn_1" ;;
       raise (Exn Exception NO_CONTINUE_BUTTON)
     | Some btn =>
       initial_url <- call (current_url D) ;;
       call (execute_script A CLICK_SCRIPT [Element_argument btn]) ;;
       wait_for_page_switch D initial_url ;;
       debug D "step2_after_email_submit"
     end)
    (wrap_failure "error_continue_btn_1" CONTINUE_STEP_FAILED).

(** Step 3 (lines 305-329). *)
Definition enter_password (password : str) : M world unit :=
  try_except
    (password_input <-
       find_element_with_multiple_selectors D password_selectors 20 ;;
     match password_input with
     | None =>
       debug D "error_no_password_input" ;;
       raise (Exn Exception NO_PASSWORD_INPUT)
     | Some el =>
       safe_js_set_value el password ;;
       debug D "step3_after_password_input"
     end)
    (wrap_failure "error_password_input" PASSWORD_STEP_FAILED).

(** Lines 366-372: every button of the page is described in the log; what
    reading a button raises is dropped. *)
Definition describe_button (btn : element) : M world unit :=
  try_except
    (call (text D btn) ;; call (is_displayed D btn) ;; call (is_enabled A btn) ;;
     ret tt)
    (except_exception (fun _ => ret tt)).

Fixpoint describe_buttons (all_buttons : list element) : M world unit :=
  match all_buttons with
  | [] => ret tt
  | btn :: rest => describe_button btn ;; describe_buttons rest
  end.

(** Lines 381-384: [while not login_btn.is_enabled() and elapsed <
    max_wait_for_enable], [fuel] bounding the rounds. *)
Fixpoint wait_until_enabled (fuel : nat) (login_btn : element) (elapsed : Q)
    : M world unit :=
  match fuel with
  | O => ret tt
  | S fuel' =>
    enabled <- call (is_enabled A login_btn) ;;
    if negb enabled && negb (Qle_bool MAX_WAIT_FOR_ENABLE elapsed) then
      wait_until_enabled fuel' login_btn (elapsed + WAIT_INTERVAL)
    else ret tt
  end.

(** The rounds the loop can need: [elapsed] goes from 0 to 10 by 0.5. *)
Definition ENABLE_ROUNDS : nat := 21.

(** Lines 392-416: the three ways to click, the next one when one raises. *)
Definition click_login_button (login_btn : element) : M world bool :=
  try_except
    (call (execute_script A CLICK_SCRIPT [Element_argument login_btn]) ;; ret true)
    (except_exception (fun _ =>
       try_except
         (call (click A login_btn) ;; ret true)
         (except_exception (fun _ =>
            try_except
              (call (execute_script A SUBMIT_SCRIPT [Element_argument login_btn]) ;;
               ret true)
              (except_exception (fun _ => ret false)))))).

(** Step 4 (lines 332-427). *)
Definition submit_login : M world unit :=
  try_except
    (login_btn <- find_element_with_multiple_selectors D login_btn_selectors 25 ;;
     match login_btn with
     | None =>
       debug D "error_no_login_btn" ;;
       all_buttons <- call (find_elements A (TAG_NAME, u "button")) ;;
       describe_buttons all_buttons ;;
       raise (Exn Exception NO_LOGIN_BUTTON)
     | Some btn =>
       wait_until_enabled ENABLE_ROUNDS btn 0 ;;
       call (is_enabled A btn) ;;
       click_success <- click_login_button btn ;;
       if click_success : bool then debug D "step4_after_login_submit"
       else
         debug D "error_click_login_btn" ;;
         raise (Exn Exception ALL_CLICKS_FAILED)
     end)
    (wrap_failure "error_login_btn" LOGIN_STEP_FAILED).

(** [login] up to the wait for the home page (lines 229-427). *)
Definition login_form (a : account) : M world unit :=
  call (get A LOGIN_URL) ;;
  debug D "step1_initial_page" ;;
  enter_email (email a) ;;
  submit_email ;;
  enter_password (password a) ;;
  submit_login.

(** [get_server_url] up to [return True]: the URL it stores in
    [self.server_url]. *)
Definition find_server_url : M world str :=
  url <- call (current_url D) ;;
  (if startswith url HOME_URL then ret tt else call (get A HOME_URL)) ;;
  debug D "get_server_url_start" ;;
  try_except
    (server_link <-
       find_element_with_multiple_selectors D server_link_selectors 15 ;;
     match server_link with
     | None =>
       debug D "error_no_server_link" ;;
       raise (Exn Exception NO_SERVER_LINK)
     | Some link =>
       call (click A link) ;;
       wait_url D (url_contains (u "/server/")) 10 ;;
       server_url <- call (current_url D) ;;
       debug D "get_server_url_success" ;;
       ret server_url
     end)
    (fun e => Some (debug D "error_get_server_url" ;;
                    raise (Exn Exception (SERVER_URL_FAILED ++ str_of_exn e)))).

Definition get_server_url : M world bool :=
  find_server_url ;; ret true.

(** [renew_server], lines 595-636: the page a renewal link opened is
    searched for a button to go on, three times at most. *)
Fixpoint click_continue (selectors : list locator) : M world bool :=
  match selectors with
  | [] => ret false
  | selector :: rest =>
    clicked <-
      try_except
        (continue_btn <- wait_element D (element_to_be_clickable selector) 5 ;;
         shown <- call (is_displayed D continue_btn) ;;
         if shown : bool then
           call (execute_script A CLICK_SCRIPT [Element_argument continue_btn]) ;;
           ret true
         else ret false)
        (except_exception (fun _ => ret false)) ;;
    if clicked : bool then ret true else click_continue rest
  end.

Fixpoint pass_ad_page (attempts : nat) : M world bool :=
  match attempts with
  | O => ret false
  | S attempts' =>
    continue_clicked <- click_continue continue_selectors ;;
    if continue_clicked : bool then ret true else pass_ad_page attempts'
  end.

Definition MAX_ATTEMPTS : nat := 3.

End Login_steps.

(** ** The other calls of the driver that runs *)
Module Demo_actions.

Fixpoint matching (l : locator) (p : list (locator * Demo.element))
    : list Demo.element :=
  match p with
  | [] => []
  | (l', e) :: p' =>
    if Demo.by_eqb (fst l) (fst l') && str_eqb (snd l) (snd l')
    then e :: matching l p'
    else matching l p'
  end.

(** Every call goes through; [get] moves the browser, an element is
    enabled when it is shown. *)
Definition actions : page_actions Demo.world Demo.element :=
  Build_page_actions Demo.world Demo.element
    (fun url w => (Ok tt, Demo.World url (Demo.page w) (Demo.elapsed w)))
    (fun l w => (Ok (matching l (Demo.page w)), w))
    (fun _ _ w => (Ok tt, w))
    (fun _ w => (Ok tt, w))
    (fun _ _ w => (Ok tt, w))
    (fun _ w => (Ok tt, w))
    (fun e w => (Ok (Demo.shown e), w)).

End Demo_actions.


(** The waits [click_continue] starts for [selectors]. *)
Definition clickable_waits (selectors : list locator) (timeout : Z) : list wait :=
  map (fun l => Wait_element (element_to_be_clickable l) timeout) selectors.

(** ** [renew_server] around its loop (lines 513-530 and 661-708) *)

Definition NO_SERVER_URL : str := u "❌ 缺少服务器 URL，无法执行续期".
Definition NO_INITIAL_EXPIRY : str := u "❌ 无法提取初始过期时间".
Definition RENEW_FAILED : str := u "❌ 续期流程错误: ".

Definition disabled_buttons_locator : locator :=
  (CSS_SELECTOR,
   u "a[href*='/renew/'].opacity-50, a[href*='/renew/'].pointer-events-none, a.opacity-50, a.pointer-events-none").

(** A pure computation inside a method. *)
Definition lift {world A} (r : result A) : M world A := fun s => (r, s).

(** [not self.server_url]: the attribute is [None] until [get_server_url]
    stores a URL. *)
Definition no_url (server_url : option str) : bool :=
  match server_url with
  | None => true
  | Some url => is_empty url
  end.

Definition url_of (server_url : option str) : str :=
  match server_url with
  | None => []
  | Some url => url
  end.

Section Renew_server.

Variable T : re_tables.
Variable lower : str -> str.
Context {world element : Type}.
Variable D : webdriver world element.
Variable A : page_actions world element.
(** [driver.page_source] *)
Variable page_source : world -> result str * world.
(** Lines 535-659: the loop over the renewal links of the server page.  Of
    what it computes only [renewed_count] is read afterwards; what it does
    with the browser does not matter below, it may return any count or
    raise. *)
Variable renew_links : str -> M world nat.

Local Open Scope method_scope.

(** Lines 661-704. *)
Definition report (url initial_details : str) (initial_value : float)
    (renewed_count : nat) : M world str :=
  if Nat.eqb renewed_count 0 then
    disabled_buttons <- call (find_elements A disabled_buttons_locator) ;;
    page <- call page_source ;;
    ret (nothing_to_renew lower disabled_buttons page)
  else if Nat.ltb 0 renewed_count then
    call (get A url) ;;
    debug D "renew_after_complete" ;;
    page <- call page_source ;;
    lift (check_renew_result T initial_details initial_value page)
  else ret NOTHING_RENEWED.

(** Lines 706-708. *)
Definition renew_failure (e : exn) : option (M world str) :=
  Some (debug D "error_renew" ;;
        raise (Exn Exception (RENEW_FAILED ++ str_of_exn e))).

(** Lines 532-708: the [try] block, with the two values read before it. *)
Definition renew_links_and_report (url initial_details : str) (initial_value : float)
    : M world str :=
  try_except
    (renewed_count <- renew_links url ;;
     report url initial_details initial_value renewed_count)
    renew_failure.

Definition renew_server (server_url : option str) : M world str :=
  if no_url server_url then raise (Exn Exception NO_SERVER_URL)
  else
    let url := url_of server_url in
    call (get A url) ;;
    debug D "renew_start" ;;
    page <- call page_source ;;
    initial <- lift (extract_expiry_days T page) ;;
    if float_eq (snd initial) (SFopp (nearest_float 1)) then
      raise (Exn Exception NO_INITIAL_EXPIRY)
    else renew_links_and_report url (fst initial) (snd initial).

End Renew_server.

(** A server page for the driver that runs, and a loop that processes one
    link. *)
Module Demo_renew.

Definition page_source (text : str) (w : Demo.world) : result str * Demo.world :=
  (Ok text, w).

Definition one_link (url : str) : M Demo.world nat := ret 1%nat.

Definition renew_server (text : str) (server_url : option str) : M Demo.world str :=
  renew_server Ascii_tables.tables (map Ascii_tables.lower) Demo.driver
    Demo_actions.actions (page_source text) one_link server_url.

End Demo_renew.

(** * Part II: properties *)

(** *** Floats: signs *)

Lemma iter_pos_invariant {A} (f : A -> A) (P : A -> Prop) :
  (forall x, P x -> P (f x)) -> forall p x, P x -> P (iter_pos f p x).
Proof.
  intros Hf. induction p as [p IH|p IH|]; intros x Hx; cbn [iter_pos]; auto.
Qed.

Lemma shr_1_nonneg mrs : (0 <= shr_m mrs)%Z -> (0 <= shr_m (shr_1 mrs))%Z.
Proof.
  destruct mrs as [m r s]. cbn [shr_m]. intros H.
  destruct m as [|[p|p|]|p]; cbn; lia.
Qed.

Lemma shr_fexp_nonneg (m e : Z) (l : location) :
  (0 <= m)%Z -> (0 <= shr_m (fst (shr_fexp MANT_DIG MAX_EXP m e l)))%Z.
Proof.
  intros H. unfold shr_fexp, shr.
  assert (H0 : (0 <= shr_m (shr_record_of_loc m l))%Z).
  { destruct l as [|[| |]]; exact H. }
  destruct (fexp MANT_DIG MAX_EXP (Zdigits2 m + e) - e)%Z as [|p|p];
    cbn [fst]; try exact H0.
  apply (iter_pos_invariant shr_1 (fun x => (0 <= shr_m x)%Z) shr_1_nonneg).
  exact H0.
Qed.

Lemma round_nearest_even_nonneg (m : Z) (l : location) :
  (0 <= m)%Z -> (0 <= round_nearest_even m l)%Z.
Proof.
  intros H. destruct l as [|[| |]]; cbn [round_nearest_even]; try lia.
  destruct (Z.even m); lia.
Qed.

(** What rounding gives has the sign it was given, and is no NaN. *)
Lemma binary_round_aux_sign (sx : bool) (mx ex : Z) (lx : location) :
  (0 <= mx)%Z ->
  match binary_round_aux MANT_DIG MAX_EXP sx mx ex lx with
  | S754_zero s | S754_infinity s | S754_finite s _ _ => s = sx
  | S754_nan => False
  end.
Proof.
  intros H. unfold binary_round_aux.
  pose proof (shr_fexp_nonneg mx ex lx H) as H1.
  destruct (shr_fexp MANT_DIG MAX_EXP mx ex lx) as [mrs' e']. cbn [fst] in H1.
  pose proof (shr_fexp_nonneg _ e' loc_Exact
                (round_nearest_even_nonneg _ (loc_of_shr_record mrs') H1)) as H2.
  destruct (shr_fexp MANT_DIG MAX_EXP _ e' loc_Exact) as [mrs'' e''].
  cbn [fst] in H2.
  destruct (shr_m mrs'') as [|p|p]; [reflexivity| |lia].
  destruct (e'' <=? MAX_EXP - MANT_DIG)%Z; reflexivity.
Qed.

Lemma binary_round_aux_nonneg (mx ex : Z) (lx : location) :
  (0 <= mx)%Z ->
  float_nonneg (binary_round_aux MANT_DIG MAX_EXP false mx ex lx) = true.
Proof.
  intros H. pose proof (binary_round_aux_sign false mx ex lx H) as S.
  destruct (binary_round_aux MANT_DIG MAX_EXP false mx ex lx);
    try subst s; [reflexivity|reflexivity|contradiction|reflexivity].
Qed.

Lemma float_literal_nonneg (m e : Z) :
  (0 <= m)%Z -> float_nonneg (float_literal m e) = true.
Proof.
  intros H. unfold float_literal, binary_normalize.
  destruct m as [|p|p]; [reflexivity| |lia].
  unfold binary_round.
  destruct (shl_align p e _) as [mz ez].
  apply binary_round_aux_nonneg. lia.
Qed.

Lemma nearest_quotient_nonneg (a : Z) (b : positive) :
  (0 <= a)%Z -> float_nonneg (nearest_quotient a b) = true.
Proof.
  intros H. unfold nearest_quotient.
  destruct a as [|p|p]; [reflexivity| |lia].
  unfold SFdiv, SFdiv_core_binary.
  set (m' := match (0 - 0 - _)%Z with Z0 => Zpos p | Zpos _ => _ | Zneg _ => 0%Z end).
  assert (Hm : (0 <= m')%Z).
  { subst m'. destruct (0 - 0 - _)%Z; [lia| |lia].
    apply Z.shiftl_nonneg. lia. }
  pose proof (Z.div_pos m' (Zpos b) Hm ltac:(lia)) as Hq.
  unfold Z.div in Hq.
  destruct (Z.div_eucl m' (Zpos b)) as [q r]. cbn [fst] in Hq.
  cbn [xorb]. apply binary_round_aux_nonneg. exact Hq.
Qed.

Lemma float_add_nonneg (x y : float) :
  float_nonneg x = true -> float_nonneg y = true ->
  float_nonneg (float_add x y) = true.
Proof.
  destruct x as [sx|[|]| |[|] mx ex]; try discriminate;
    destruct y as [sy|[|]| |[|] my ey]; try discriminate; intros _ _;
    try reflexivity.
  - destruct sx, sy; reflexivity.
  - unfold float_add, SFadd, binary_normalize. cbn [cond_Zopp].
    destruct (shl_align mx ex _) as [mx' ex'].
    destruct (shl_align my ey _) as [my' ey']. cbn [fst Z.add].
    unfold binary_round. destruct (shl_align _ _ _) as [mz ez].
    apply binary_round_aux_nonneg. lia.
Qed.

Lemma float_nonneg_not_unparsed (x : float) :
  float_nonneg x = true -> float_eq x UNPARSED = false.
Proof.
  destruct x as [s|[|]| |[|] m e]; try discriminate; intros _; reflexivity.
Qed.

Lemma float_nonneg_not_negative (x : float) :
  float_nonneg x = true -> float_not_negative x = true.
Proof.
  destruct x as [s|[|]| |[|] m e]; try discriminate; intros _; reflexivity.
Qed.

Lemma float_mul_not_negative (x y : float) :
  float_not_negative x = true -> float_nonneg y = true ->
  float_not_negative (float_mul x y) = true.
Proof.
  destruct x as [sx|[|]| |[|] mx ex]; try discriminate;
    destruct y as [sy|[|]| |[|] my ey]; try discriminate; intros _ _;
    try reflexivity.
  unfold float_mul, SFmul. cbn [xorb].
  apply float_nonneg_not_negative, binary_round_aux_nonneg. lia.
Qed.

(** *** Floats: a difference of ordered floats *)

Lemma digits2_pos_bounds (m : positive) :
  (2 ^ (Zpos (digits2_pos m) - 1) <= Zpos m < 2 ^ Zpos (digits2_pos m))%Z.
Proof.
  induction m as [m IH|m IH|]; cbn [digits2_pos].
  - rewrite Pos2Z.inj_succ.
    replace (Z.succ (Zpos (digits2_pos m)) - 1)%Z
      with (Z.succ (Zpos (digits2_pos m) - 1)) by lia.
    rewrite !Z.pow_succ_r by lia. lia.
  - rewrite Pos2Z.inj_succ.
    replace (Z.succ (Zpos (digits2_pos m)) - 1)%Z
      with (Z.succ (Zpos (digits2_pos m) - 1)) by lia.
    rewrite !Z.pow_succ_r by lia. lia.
  - cbn. lia.
Qed.

Lemma iter_xO (m d : positive) :
  Zpos (Pos.iter xO m d) = (Zpos m * 2 ^ Zpos d)%Z.
Proof.
  induction d as [|d IH] using Pos.peano_ind.
  - cbn. lia.
  - rewrite Pos.iter_succ, Pos2Z.inj_xO, IH, Pos2Z.inj_succ, Z.pow_succ_r by lia.
    ring.
Qed.

(** A valid float has at most 53 bits, and all 53 above the least
    exponent. *)
Lemma bounded_facts (m : positive) (e : Z) :
  bounded MANT_DIG MAX_EXP m e = true ->
  (Zpos m < 2 ^ 53)%Z /\ (-1074 <= e)%Z /\ (-1074 < e -> 2 ^ 52 <= Zpos m)%Z.
Proof.
  unfold bounded, canonical_mantissa, fexp, emin, MANT_DIG, MAX_EXP.
  intros H. apply andb_true_iff in H. destruct H as [H _].
  apply Z.eqb_eq in H.
  pose proof (digits2_pos_bounds m) as [Hlo Hhi].
  set (n := Zpos (digits2_pos m)) in *.
  assert (Hn : (0 < n)%Z) by (subst n; lia).
  split; [|split].
  - assert (n <= 53)%Z by lia.
    apply (Z.lt_le_trans _ _ _ Hhi). apply Z.pow_le_mono_r; lia.
  - lia.
  - intros He. assert (n = 53)%Z by lia.
    replace 52%Z with (n - 1)%Z by lia. exact Hlo.
Qed.

Lemma aligned_lt (mx : positive) (ex : Z) (my : positive) (ey : Z) :
  bounded MANT_DIG MAX_EXP mx ex = true ->
  bounded MANT_DIG MAX_EXP my ey = true ->
  (ex < ey)%Z ->
  (Zpos (fst (shl_align mx ex (Z.min ex ey)))
   < Zpos (fst (shl_align my ey (Z.min ex ey))))%Z /\
  (Zpos (fst (shl_align mx ex (Z.min ey ex)))
   < Zpos (fst (shl_align my ey (Z.min ey ex))))%Z.
Proof.
  intros Hx Hy Hlt.
  destruct (bounded_facts mx ex Hx) as (Hmx & Hex & _).
  destruct (bounded_facts my ey Hy) as (_ & _ & Hmy).
  specialize (Hmy ltac:(lia)).
  rewrite (Z.min_comm ey ex), Z.min_l by lia.
  assert (G : (Zpos (fst (shl_align mx ex ex)) < Zpos (fst (shl_align my ey ex)))%Z).
  { unfold shl_align. rewrite Z.sub_diag. cbn [fst].
    destruct (ex - ey)%Z as [|d|d] eqn:E; try lia. cbn [fst].
    rewrite iter_xO.
    assert (2 <= 2 ^ Zpos d)%Z.
    { change 2%Z with (2 ^ 1)%Z at 1. apply Z.pow_le_mono_r; lia. }
    change (2 ^ 53)%Z with (2 ^ 52 * 2)%Z in Hmx. nia. }
  split; exact G.
Qed.

Lemma aligned_same (mx my : positive) (e : Z) :
  fst (shl_align mx e (Z.min e e)) = mx /\ fst (shl_align my e (Z.min e e)) = my.
Proof.
  rewrite Z.min_id. unfold shl_align. rewrite Z.sub_diag. split; reflexivity.
Qed.

(** The difference of two valid floats, the first the greater, is not
    negative. *)
Lemma float_sub_nonneg (x y : float) :
  valid_binary MANT_DIG MAX_EXP x = true ->
  valid_binary MANT_DIG MAX_EXP y = true ->
  SFcompare x y = Some Gt ->
  float_not_negative (float_sub x y) = true.
Proof.
  intros Vx Vy H.
  destruct x as [sx|sx| |sx mx ex]; destruct y as [sy|sy| |sy my ey];
    try discriminate H; cbn in H.
  - (* zero, infinity *) destruct sy; [reflexivity|discriminate H].
  - (* zero, finite *) destruct sy; [reflexivity|discriminate H].
  - (* infinity, zero *) destruct sx; [discriminate H|reflexivity].
  - (* infinity, infinity *) destruct sx, sy; try discriminate H; reflexivity.
  - (* infinity, finite *) destruct sx; [discriminate H|reflexivity].
  - (* finite, zero *) destruct sx; [discriminate H|reflexivity].
  - (* finite, infinity *) destruct sy; [reflexivity|discriminate H].
  - (* finite, finite *)
    cbn [valid_binary] in Vx, Vy.
    assert (G : (0 <= cond_Zopp sx (Zpos (fst (shl_align mx ex (Z.min ex ey))))
                      - cond_Zopp sy (Zpos (fst (shl_align my ey (Z.min ex ey)))))%Z).
    { destruct sx, sy; cbn [cond_Zopp]; try discriminate H; [|lia|].
      - destruct (Z.compare_spec ex ey) as [E|E|E]; try discriminate H.
        + subst ey. destruct (aligned_same mx my ex) as [-> ->].
          change (Pos.compare_cont Eq mx my) with (Pos.compare mx my) in H.
          destruct (Pos.compare_spec mx my) as [E|E|E]; try discriminate H.
          lia.
        + destruct (aligned_lt mx ex my ey Vx Vy E) as [L _]. lia.
      - destruct (Z.compare_spec ex ey) as [E|E|E]; try discriminate H.
        + subst ey. destruct (aligned_same mx my ex) as [-> ->].
          change (Pos.compare_cont Eq mx my) with (Pos.compare mx my) in H.
          destruct (Pos.compare_spec mx my) as [E|E|E]; try discriminate H.
          lia.
        + destruct (aligned_lt my ey mx ex Vy Vx E) as [_ L]. lia. }
    unfold float_sub, SFsub.
    apply float_nonneg_not_negative.
    exact (float_literal_nonneg _ (Z.min ex ey) G).
Qed.

Section Matcher_facts.

Variable T : re_tables.


Lemma star_sound k s cont out :
  star T k s cont = Some out ->
  exists pre s', s = pre ++ s' /\ forallb (in_class T k) pre = true /\
                 cont s' = Some out.
Proof.
  induction s as [|c s IH]; simpl; intros H.
  - exists [], []. auto.
  - destruct (in_class T k c) eqn:Hc.
    + destruct (star T k s cont) as [m|] eqn:Hs.
      * inversion H; subst.
        destruct (IH eq_refl) as (pre & s' & -> & Hp & Hk).
        exists (c :: pre), s'. simpl. rewrite Hc, Hp. auto.
      * exists [], (c :: s). auto.
    + exists [], (c :: s). auto.
Qed.

Lemma matches_sound r : forall s m cont out,
  matches T r s m cont = Some out ->
  exists s' m', sem T r s m s' m' /\ cont s' m' = Some out.
Proof.
  induction r as [|k|k|k|k|r1 IH1 r2 IH2|r1 IH1 r2 IH2|i r IH];
    simpl; intros s m cont out H.
  - exists s, m. auto.
  - destruct s as [|c s]; [discriminate|].
    destruct (in_class T k c) eqn:Hc; [|discriminate].
    exists s, m. split; [exists c|]; auto.
  - apply star_sound in H. destruct H as (pre & s' & -> & Hp & Hk).
    exists s', m. split; [exists pre|]; auto.
  - destruct s as [|c s]; [discriminate|].
    destruct (in_class T k c) eqn:Hc; [|discriminate].
    apply star_sound in H. destruct H as (pre & s' & -> & Hp & Hk).
    exists s', m. split; [exists c, pre|]; auto.
  - destruct s as [|c s].
    + exists [], m. auto.
    + destruct (in_class T k c) eqn:Hc.
      * destruct (cont s m) as [m1|] eqn:Hk.
        -- inversion H; subst. exists s, m. split; [|assumption].
           split; [right; exists c|]; auto.
        -- exists (c :: s), m. auto.
      * exists (c :: s), m. auto.
  - apply IH1 in H. destruct H as (s1 & m1 & H1 & H).
    apply IH2 in H. destruct H as (s2 & m2 & H2 & H).
    exists s2, m2. split; [exists s1, m1|]; auto.
  - destruct (matches T r1 s m cont) as [m1|] eqn:H1.
    + inversion H; subst. apply IH1 in H1.
      destruct H1 as (s' & m' & Hs & Hk). exists s', m'. auto.
    + apply IH2 in H. destruct H as (s' & m' & Hs & Hk). exists s', m'. auto.
  - apply IH in H. destruct H as (s' & m0 & Hs & Hk).
    exists s', ((i, consumed s s') :: m0). split; [exists m0|]; auto.
Qed.

(** A search that succeeds returns the groups of a match of some suffix. *)
Lemma re_search_sound r : forall s out,
  re_search T r s = Some out -> exists s0 s', sem T r s0 [] s' out.
Proof.
  induction s as [|c s IH]; simpl; intros out H.
  - unfold re_match in H. destruct (matches T r [] [] _) eqn:Hm; [|discriminate].
    inversion H; subst. apply matches_sound in Hm.
    destruct Hm as (s' & m' & Hs & Hk). inversion Hk; subst. eauto.
  - unfold re_match in H.
    destruct (matches T r (c :: s) [] _) eqn:Hm.
    + inversion H; subst. apply matches_sound in Hm.
      destruct Hm as (s' & m' & Hs & Hk). inversion Hk; subst. eauto.
    + eauto.
Qed.

Lemma consumed_app (p s : str) : consumed (p ++ s) s = p.
Proof.
  unfold consumed. rewrite length_app.
  replace (length p + length s - length s)%nat with (length p + 0)%nat by lia.
  rewrite firstn_app_2. simpl. apply app_nil_r.
Qed.

Lemma sem_no_groups r : forall s m s' m',
  ids r = [] -> sem T r s m s' m' -> m' = m.
Proof.
  induction r as [|k|k|k|k|r1 IH1 r2 IH2|r1 IH1 r2 IH2|i r IH];
    simpl; intros s m s' m' Hi H.
  - tauto.
  - destruct H as (c & _ & _ & ->). reflexivity.
  - destruct H as (pre & _ & _ & ->). reflexivity.
  - destruct H as (c & pre & _ & _ & _ & ->). reflexivity.
  - tauto.
  - apply app_eq_nil in Hi. destruct Hi as [Hi1 Hi2].
    destruct H as (s1 & m1 & H1 & H2).
    apply (IH1 _ _ _ _ Hi1) in H1. apply (IH2 _ _ _ _ Hi2) in H2. congruence.
  - apply app_eq_nil in Hi. destruct Hi as [Hi1 Hi2].
    destruct H as [H|H]; eauto.
  - discriminate.
Qed.

(** The groups a match adds: one per [(\d+)], each holding a number. *)
Lemma sem_groups r : forall s m s' m',
  digit_groups r = true -> sem T r s m s' m' ->
  exists added, m' = added ++ m /\ map fst added = rev (ids r) /\
                Forall (fun p => is_number T (snd p)) added.
Proof.
  induction r as [|k|k|k|k|r1 IH1 r2 IH2|r1 IH1 r2 IH2|i r IH];
    simpl; intros s m s' m' Hw H.
  - exists []. simpl. intuition.
  - destruct H as (c & _ & _ & ->). exists []. auto.
  - destruct H as (pre & _ & _ & ->). exists []. auto.
  - destruct H as (c & pre & _ & _ & _ & ->). exists []. auto.
  - exists []. simpl. intuition.
  - apply andb_true_iff in Hw. destruct Hw as [Hw1 Hw2].
    destruct H as (s1 & m1 & H1 & H2).
    destruct (IH1 _ _ _ _ Hw1 H1) as (a1 & -> & Hf1 & Hn1).
    destruct (IH2 _ _ _ _ Hw2 H2) as (a2 & -> & Hf2 & Hn2).
    exists (a2 ++ a1). rewrite app_assoc, map_app, rev_app_distr, Hf1, Hf2.
    split; [reflexivity|]. split; [reflexivity|].
    apply Forall_app. auto.
  - destruct (ids r1 ++ ids r2) eqn:Hi; [|discriminate].
    apply app_eq_nil in Hi. destruct Hi as [Hi1 Hi2].
    exists []. simpl. split; [|auto].
    destruct H as [H|H];
      [apply (sem_no_groups r1 s m s' m' Hi1 H)|apply (sem_no_groups r2 s m s' m' Hi2 H)].
  - destruct r as [|k|k|k|k|? ?|? ?|? ?]; try discriminate.
    destruct k; try discriminate.
    simpl in H. destruct H as (m0 & (c & pre & -> & Hc & Hp & ->) & ->).
    exists [(i, consumed (c :: pre ++ s') s')]. simpl.
    split; [reflexivity|]. split; [reflexivity|].
    constructor; [|constructor]. simpl.
    change (c :: pre ++ s') with ((c :: pre) ++ s'). rewrite consumed_app.
    split; [discriminate|]. simpl. simpl in Hc. rewrite Hc. exact Hp.
Qed.

Lemma decimal_nonneg : forall t, (0 <= decimal T t)%Z.
Proof.
  induction t as [|c t IH]; cbn [decimal]; [lia|].
  assert (0 <= 10 ^ Z.of_nat (length t))%Z by (apply Z.pow_nonneg; lia).
  destruct (digit_value T c); nia.
Qed.

(** The accumulator of [int] and the positional value agree. *)
Lemma int_digits_decimal : forall t acc,
  forallb (in_class T Digit) t = true ->
  int_digits T acc t
  = Some (acc * 10 ^ Z.of_nat (length t) + decimal T t)%Z.
Proof.
  induction t as [|c t IH]; intros acc Ht;
    cbn [int_digits decimal length]; cbn [forallb in_class] in Ht.
  - f_equal. cbn. lia.
  - destruct (digit_value T c) as [d|]; [|discriminate].
    rewrite (IH _ Ht). f_equal.
    rewrite Nat2Z.inj_succ, Z.pow_succ_r by lia. ring.
Qed.

(** [int] of a number is the number its digits denote, or [ValueError] when
    there are more digits than the limit. *)
Lemma int_number t :
  is_number T t ->
  int T t = if (INT_MAX_STR_DIGITS <? Z.of_nat (length t))%Z
            then Raise (too_many_digits (length t))
            else Ok (decimal T t).
Proof.
  intros [Hne Hd]. destruct t as [|c t]; [congruence|].
  unfold int. rewrite (int_digits_decimal (c :: t) 0%Z Hd).
  rewrite Z.mul_0_l, Z.add_0_l. reflexivity.
Qed.

End Matcher_facts.

(** *** The groups of the five patterns *)

Lemma search_groups T r page m :
  digit_groups r = true -> re_search T r page = Some m ->
  map fst m = rev (ids r) /\ Forall (fun p => is_number T (snd p)) m.
Proof.
  intros Hw H. apply re_search_sound in H. destruct H as (s0 & s' & H).
  apply (sem_groups T r s0 [] s' m Hw) in H.
  destruct H as (added & -> & Hf & Hn). rewrite app_nil_r. auto.
Qed.

Lemma digit_groups_pattern f : digit_groups (pattern_of f) = true.
Proof. destruct f; reflexivity. Qed.

(** Every group a family reads took part in the match and holds a number. *)
Lemma component_group T f page m c i :
  re_search T (pattern_of f) page = Some m ->
  group_of f c = Some i ->
  exists t, group m i = Some t /\ is_number T t.
Proof.
  intros H Hg.
  destruct (search_groups T _ page m (digit_groups_pattern f) H) as [Hf Hn].
  destruct f; vm_compute in Hf;
    repeat (destruct m as [|[? ?] m]; try discriminate Hf);
    injection Hf as; subst;
    repeat match goal with
           | Hx : Forall _ (_ :: _) |- _ => inversion Hx; subst; clear Hx
           end;
    destruct c; try discriminate Hg; injection Hg as <-;
    simpl; eauto.
Qed.

(** What [int] makes of a component: the number its digits denote, or
    [ValueError] beyond the limit on the digits. *)
Lemma component_value_reading T f page m c :
  re_search T (pattern_of f) page = Some m ->
  (0 <= reading T f m c)%Z /\
  ((component_within_limit f m c = true /\
    component_value T f m c = Ok (reading T f m c)) \/
   (component_within_limit f m c = false /\
    exists n, component_value T f m c = Raise (too_many_digits n) /\
              (INT_MAX_STR_DIGITS < Z.of_nat n)%Z)).
Proof.
  intros H.
  unfold reading, component_within_limit, component_value, component_text.
  destruct (group_of f c) as [i|] eqn:Hg; [|split; [lia|left; split; reflexivity]].
  destruct (component_group T f page m c i H Hg) as (t & Ht & Hnum).
  unfold int_group. rewrite Ht, (int_number T t Hnum).
  split; [apply decimal_nonneg|].
  rewrite Z.ltb_antisym.
  destruct (Z.of_nat (length t) <=? INT_MAX_STR_DIGITS)%Z eqn:E; cbn [negb].
  - left. split; reflexivity.
  - right. split; [reflexivity|]. exists (length t). split; [reflexivity|].
    apply Z.leb_gt. exact E.
Qed.

(** The total of three natural numbers: the documented sum within the range
    of a float, [OverflowError] beyond it. *)
Lemma total_days_range (d h mi : Z) :
  (0 <= d)%Z -> (0 <= h)%Z -> (0 <= mi)%Z ->
  (within_float_range d h mi = true -> total_days d h mi = Ok (total_of d h mi)) /\
  (within_float_range d h mi = false ->
   exists e, total_days d h mi = Raise e /\ exn_kind e = OverflowError).
Proof.
  intros Hd Hh Hm.
  unfold total_days, within_float_range, total_of, int_true_div, float_of_int.
  change (24 * 60)%positive with 1440%positive.
  rewrite !Z.abs_eq by assumption.
  generalize OVERFLOW_THRESHOLD. intros OT.
  destruct (Z.leb_spec (OT * 24) h), (Z.ltb_spec h (OT * 24)); try lia;
    destruct (Z.leb_spec OT d), (Z.ltb_spec d OT); try lia;
    destruct (Z.leb_spec (OT * 1440) mi), (Z.ltb_spec mi (OT * 1440)); try lia;
    cbn [rbind andb]; split; intros E; try discriminate E; try reflexivity;
    eexists; (split; [reflexivity|reflexivity]).
Qed.

Lemma total_of_nonneg (d h mi : Z) :
  (0 <= d)%Z -> (0 <= h)%Z -> (0 <= mi)%Z -> float_nonneg (total_of d h mi) = true.
Proof.
  intros Hd Hh Hm. unfold total_of.
  apply float_add_nonneg; [apply float_add_nonneg|].
  - apply float_literal_nonneg. exact Hd.
  - apply nearest_quotient_nonneg. exact Hh.
  - apply nearest_quotient_nonneg. exact Hm.
Qed.

Lemma first_match_found T fams page f m :
  first_match T fams page = Some (f, m) ->
  re_search T (pattern_of f) page = Some m.
Proof.
  induction fams as [|g fams IH]; simpl; [discriminate|].
  destruct (re_search T (pattern_of g) page) eqn:Hg; [|exact IH].
  intros H. injection H as <- <-. exact Hg.
Qed.

Lemma detailed_string_detail_of d h mi :
  (0 <= d)%Z -> (0 <= h)%Z -> (0 <= mi)%Z ->
  detailed_string (Locals d h mi true) = detail_of d h mi.
Proof.
  intros Hd Hh Hm. unfold detailed_string, detail_of, append_if.
  cbn [days_int hours_int minutes_int filter snd fst].
  assert (G : forall z, (0 <= z)%Z -> (z >? 0)%Z = negb (z =? 0)%Z).
  { intros z Hz. destruct (Z.eqb_spec z 0); simpl.
    - subst. reflexivity.
    - apply Z.gtb_lt. lia. }
  rewrite (G d Hd), (G h Hh), (G mi Hm).
  destruct (d =? 0)%Z, (h =? 0)%Z, (mi =? 0)%Z; reflexivity.
Qed.

(** The result of a family on its match, from the documented readings. *)
Lemma family_result_reading T f page m :
  re_search T (pattern_of f) page = Some m ->
  let d := reading T f m Days in
  let h := reading T f m Hours in
  let mi := reading T f m Minutes in
  (within_digit_limit f m = true -> within_float_range d h mi = true ->
   family_result T f m = Ok (detail_of d h mi, total_of d h mi)) /\
  (within_digit_limit f m = false ->
   exists n, family_result T f m = Raise (too_many_digits n) /\
             (INT_MAX_STR_DIGITS < Z.of_nat n)%Z) /\
  (within_digit_limit f m = true -> within_float_range d h mi = false ->
   exists e, family_result T f m = Raise e /\ exn_kind e = OverflowError).
Proof.
  intros H d h mi.
  destruct (component_value_reading T f page m Days H) as [Hd0 Hd].
  destruct (component_value_reading T f page m Hours H) as [Hh0 Hh].
  destruct (component_value_reading T f page m Minutes H) as [Hm0 Hm].
  destruct (total_days_range d h mi Hd0 Hh0 Hm0) as [Hin Hout].
  unfold within_digit_limit, family_result. cbn [forallb].
  destruct Hd as [[Ld Vd]|[Ld (n & Vd & Hn)]]; rewrite Ld, Vd; cbn [rbind andb].
  2:{ split; [discriminate|]. split; [|discriminate]. intros _. exists n. auto. }
  destruct Hh as [[Lh Vh]|[Lh (n & Vh & Hn)]]; rewrite Lh, Vh; cbn [rbind andb].
  2:{ split; [discriminate|]. split; [|discriminate]. intros _. exists n. auto. }
  destruct Hm as [[Lm Vm]|[Lm (n & Vm & Hn)]]; rewrite Lm, Vm; cbn [rbind andb].
  2:{ split; [discriminate|]. split; [|discriminate]. intros _. exists n. auto. }
  split; [|split; [discriminate|]].
  - intros _ Hr. fold d h mi. rewrite (Hin Hr). cbn [rbind].
    rewrite detailed_string_detail_of by assumption. reflexivity.
  - intros _ Hr. fold d h mi. destruct (Hout Hr) as (e & He & Hk).
    exists e. rewrite He. auto.
Qed.

(** A family that matched returns a total that is not negative, or raises
    [ValueError] or [OverflowError]. *)
Lemma family_result_cases T f page m :
  re_search T (pattern_of f) page = Some m ->
  (exists detail total,
      family_result T f m = Ok (detail, total) /\ float_nonneg total = true) \/
  (exists e, family_result T f m = Raise e /\
             (exn_kind e = ValueError \/ exn_kind e = OverflowError)).
Proof.
  intros H.
  destruct (family_result_reading T f page m H) as (Hok & Hdigits & Hrange).
  destruct (component_value_reading T f page m Days H) as [Hd0 _].
  destruct (component_value_reading T f page m Hours H) as [Hh0 _].
  destruct (component_value_reading T f page m Minutes H) as [Hm0 _].
  destruct (within_digit_limit f m).
  - destruct (within_float_range (reading T f m Days) (reading T f m Hours)
                (reading T f m Minutes)).
    + left. do 2 eexists. split; [exact (Hok eq_refl eq_refl)|].
      apply total_of_nonneg; assumption.
    + right. destruct (Hrange eq_refl eq_refl) as (e & He & Hk).
      exists e. auto.
  - right. destruct (Hdigits eq_refl) as (n & He & _).
    eexists. split; [exact He|]. left. reflexivity.
Qed.

(** The parser is the first matching family of the documented order. *)
Lemma extract_is_first_match T page :
  extract_expiry_days T page =
  match first_match T precedence page with
  | Some (f, m) => family_result T f m
  | None => Ok (CANNOT_EXTRACT, UNPARSED)
  end.
Proof.
  unfold extract_expiry_days, try_format1, try_hours_minutes, try_format4,
    try_format5, precedence, first_match, family_result, component_value,
    pattern_of, group_of.
  destruct (re_search T FORMAT1 page) as [m1|].
  { destruct (int_group T m1 1) as [d|e]; [|reflexivity].
    destruct (int_group T m1 2) as [h|e]; [|reflexivity].
    destruct (int_group T m1 3) as [mi|e]; reflexivity. }
  cbn [rbind found negb].
  destruct (re_search T FORMAT2 page) as [m2|].
  { destruct (int_group T m2 1) as [h|e]; [|reflexivity].
    destruct (int_group T m2 2) as [mi|e]; reflexivity. }
  cbn [rbind found negb].
  destruct (re_search T FORMAT3 page) as [m3|].
  { destruct (int_group T m3 1) as [h|e]; [|reflexivity].
    destruct (int_group T m3 2) as [mi|e]; reflexivity. }
  cbn [rbind found negb].
  destruct (re_search T FORMAT4 page) as [m4|].
  { destruct (int_group T m4 1) as [d|e]; [|reflexivity].
    destruct (int_group T m4 2) as [h|e]; [|reflexivity].
    destruct (int_group T m4 3) as [mi|e]; reflexivity. }
  cbn [rbind found negb].
  destruct (re_search T FORMAT5 page) as [m5|].
  { destruct (int_group T m5 1) as [d|e]; reflexivity. }
  reflexivity.
Qed.

(** *** The duration parser *)

(** C2.  The parser applies the five pattern families in the documented order
    and the first one that matches decides the result: for every text the
    parser returns what the earliest matching family of [precedence] gives on
    its own match, and the "could not extract" pair when none matches.  In
    particular a text on which both FORMAT1 and FORMAT2 match gets the result
    of FORMAT1. *)
Theorem extract_first_match_wins (T : re_tables) (page_source : str) :
  extract_expiry_days T page_source =
    match first_match T precedence page_source with
    | Some (f, m) => family_result T f m
    | None => Ok (CANNOT_EXTRACT, UNPARSED)
    end
  /\
  (forall m1 m2,
      re_search T FORMAT1 page_source = Some m1 ->
      re_search T FORMAT2 page_source = Some m2 ->
      extract_expiry_days T page_source = family_result T Legacy m1).
Proof.
  split.
  - apply extract_is_first_match.
  - intros m1 m2 H1 _. rewrite extract_is_first_match.
    unfold precedence. cbn [first_match pattern_of]. rewrite H1. reflexivity.
Qed.

Lemma extract_first_match_wins_witness :
  let page := u "Your server expires in 1D 2H 3M. Expires in 4H 5M" in
  exists m1 m2,
    re_search Ascii_tables.tables FORMAT1 page = Some m1 /\
    re_search Ascii_tables.tables FORMAT2 page = Some m2 /\
    extract_expiry_days Ascii_tables.tables page
    = family_result Ascii_tables.tables Legacy m1 /\
    family_result Ascii_tables.tables Legacy m1
    = Ok (u "1 天 2 小时 3 分钟", total_of 1 2 3) /\
    family_result Ascii_tables.tables HeaderHM m2
    = Ok (u "4 小时 5 分钟", total_of 0 4 5).
Proof.
  intros page.
  exists [(3, u "3"); (2, u "2"); (1, u "1")]%nat, [(2, u "5"); (1, u "4")]%nat.
  assert (H1 : re_search Ascii_tables.tables FORMAT1 page
               = Some [(3, u "3"); (2, u "2"); (1, u "1")]%nat)
    by (vm_compute; reflexivity).
  assert (H2 : re_search Ascii_tables.tables FORMAT2 page
               = Some [(2, u "5"); (1, u "4")]%nat)
    by (vm_compute; reflexivity).
  split; [exact H1|]. split; [exact H2|]. split.
  - exact (proj2 (extract_first_match_wins Ascii_tables.tables page) _ _ H1 H2).
  - split; vm_compute; reflexivity.
Defined.

(** C3, counterexample.  A text that the fifth family matches, with a day
    count of 400 digits: the number is beyond the range of a float, the
    conversion of [days_int] raises [OverflowError], and the parser returns
    no total. *)
Lemma extract_raises_on_matched_text :
  first_match Ascii_tables.tables precedence
    (u "Expires in " ++ repeat 57%N 400 ++ u "D")
  = Some (DaysOnly, [(1%nat, repeat 57%N 400)]) /\
  extract_expiry_days Ascii_tables.tables
    (u "Expires in " ++ repeat 57%N 400 ++ u "D")
  = Raise (Exn OverflowError (u "int too large to convert to float")).
Proof. split; vm_compute; reflexivity. Qed.

(** C3, amended.  When some family matches, the components are the
    numbers the digits of its groups denote, a component the family has no
    group for being 0.  With no more than 4300 digits in a group and the
    three numbers within the range of a float, the parser returns the float
    [days + hours/24 + minutes/1440], each quotient and each sum rounded,
    and the detail string that joins exactly the non-zero components with
    their unit labels.  Beyond the limit on the digits it raises
    [ValueError], and beyond the range of a float [OverflowError]. *)
Theorem extract_total_and_detail (T : re_tables) (page_source : str)
    (f : family) (m : groups) :
  first_match T precedence page_source = Some (f, m) ->
  let d := reading T f m Days in
  let h := reading T f m Hours in
  let mi := reading T f m Minutes in
  (forall c, group_of f c = None -> reading T f m c = 0%Z) /\
  (forall c i, group_of f c = Some i ->
     exists t, group m i = Some t /\ is_number T t /\
               reading T f m c = decimal T t) /\
  (within_digit_limit f m = true -> within_float_range d h mi = true ->
   extract_expiry_days T page_source = Ok (detail_of d h mi, total_of d h mi)) /\
  (within_digit_limit f m = false ->
   exists n, extract_expiry_days T page_source = Raise (too_many_digits n) /\
             (INT_MAX_STR_DIGITS < Z.of_nat n)%Z) /\
  (within_digit_limit f m = true -> within_float_range d h mi = false ->
   exists e, extract_expiry_days T page_source = Raise e /\
             exn_kind e = OverflowError).
Proof.
  intros H d h mi. pose proof (first_match_found T _ _ _ _ H) as Hs.
  split; [|split].
  - intros c Hc. unfold reading, component_text. rewrite Hc. reflexivity.
  - intros c i Hc. destruct (component_group T f page_source m c i Hs Hc)
      as (t & Ht & Hnum).
    exists t. split; [exact Ht|]. split; [exact Hnum|].
    unfold reading, component_text. rewrite Hc, Ht. reflexivity.
  - rewrite extract_is_first_match, H.
    exact (family_result_reading T f page_source m Hs).
Qed.

Lemma extract_total_and_detail_witness :
  let page := u "Your server is expiring in 20 Hours 3 Minutes" in
  let m := [(2, u "3"); (1, u "20")]%nat in
  first_match Ascii_tables.tables precedence page = Some (BodyHM, m) /\
  reading Ascii_tables.tables BodyHM m Days = 0%Z /\
  reading Ascii_tables.tables BodyHM m Hours = 20%Z /\
  reading Ascii_tables.tables BodyHM m Minutes = 3%Z /\
  detail_of 0 20 3 = u "20 小时 3 分钟" /\
  total_of 0 20 3 = S754_finite false 7524764377398204 (-53) /\
  extract_expiry_days Ascii_tables.tables page
  = Ok (u "20 小时 3 分钟", S754_finite false 7524764377398204 (-53)).
Proof.
  intros page m.
  assert (H : first_match Ascii_tables.tables precedence page = Some (BodyHM, m))
    by (vm_compute; reflexivity).
  assert (Hd : reading Ascii_tables.tables BodyHM m Days = 0%Z) by reflexivity.
  assert (Hh : reading Ascii_tables.tables BodyHM m Hours = 20%Z)
    by (vm_compute; reflexivity).
  assert (Hm : reading Ascii_tables.tables BodyHM m Minutes = 3%Z)
    by (vm_compute; reflexivity).
  assert (Hdetail : detail_of 0 20 3 = u "20 小时 3 分钟")
    by (vm_compute; reflexivity).
  assert (Htotal : total_of 0 20 3 = S754_finite false 7524764377398204 (-53))
    by (vm_compute; reflexivity).
  assert (Hl : within_digit_limit BodyHM m = true) by (vm_compute; reflexivity).
  assert (Hr : within_float_range 0 20 3 = true) by (vm_compute; reflexivity).
  repeat (split; [assumption|]).
  destruct (extract_total_and_detail Ascii_tables.tables page BodyHM m H)
    as (_ & _ & Hok & _).
  rewrite Hd, Hh, Hm in Hok. rewrite (Hok Hl Hr), Hdetail, Htotal. reflexivity.
Defined.



(** *** The comparison after the renewals *)

Lemma py_round_near (x : Q) :
  inject_Z (py_round x) - (1 # 2) <= x /\ x <= inject_Z (py_round x) + (1 # 2).
Proof.
  unfold py_round.
  pose proof (Qfloor_le x) as Hlo. pose proof (Qlt_floor x) as Hhi.
  rewrite inject_Z_plus in Hhi. change (inject_Z 1) with 1 in Hhi.
  destruct (Qcompare (x - inject_Z (Qfloor x)) (1 # 2)) eqn:E.
  - apply Qeq_alt in E.
    destruct (Z.even (Qfloor x));
      [|rewrite inject_Z_plus; change (inject_Z 1) with 1]; lra.
  - apply Qlt_alt in E. lra.
  - apply Qgt_alt in E. rewrite inject_Z_plus. change (inject_Z 1) with 1. lra.
Qed.

(** Half-way between two integers [round] takes the even one. *)
Lemma py_round_tie (x : Q) :
  x == inject_Z (py_round x) + (1 # 2) \/ x == inject_Z (py_round x) - (1 # 2) ->
  Z.even (py_round x) = true.
Proof.
  unfold py_round.
  pose proof (Qfloor_le x) as Hlo. pose proof (Qlt_floor x) as Hhi.
  rewrite inject_Z_plus in Hhi. change (inject_Z 1) with 1 in Hhi.
  destruct (Qcompare (x - inject_Z (Qfloor x)) (1 # 2)) eqn:E.
  - intros _. destruct (Z.even (Qfloor x)) eqn:Ev; [exact Ev|].
    rewrite Z.add_1_r, Z.even_succ, <- Z.negb_even, Ev. reflexivity.
  - apply Qlt_alt in E. intros [H|H]; exfalso; lra.
  - apply Qgt_alt in E. rewrite inject_Z_plus. change (inject_Z 1) with 1.
    intros [H|H]; exfalso; lra.
Qed.

Lemma py_round_nonneg (x : Q) : 0 <= x -> (0 <= py_round x)%Z.
Proof.
  intros H. assert (Hf : (0 <= Qfloor x)%Z).
  { change 0%Z with (Qfloor 0). apply Qfloor_resp_le. exact H. }
  unfold py_round.
  destruct (Qcompare _ _); [destruct (Z.even _)| |]; lia.
Qed.

(** The split of whole seconds into days, hours and minutes. *)
Lemma seconds_split (s : Z) :
  (0 <= added_hours s < 24)%Z /\ (0 <= added_minutes s < 60)%Z /\
  (added_days s * 86400 + added_hours s * 3600 + added_minutes s * 60 <= s
   < added_days s * 86400 + added_hours s * 3600 + added_minutes s * 60 + 60)%Z /\
  ((0 <= s)%Z -> (0 <= added_days s)%Z).
Proof.
  unfold added_days, added_hours, added_minutes.
  change (24 * 3600)%Z with 86400%Z.
  split; [Z.to_euclidean_division_equations; lia|].
  split; [Z.to_euclidean_division_equations; lia|].
  split; [Z.to_euclidean_division_equations; lia|].
  intros Hs. Z.to_euclidean_division_equations. lia.
Qed.

(** C1, amended.  Once at least one renewal link was processed,
    [renew_server] parses the reloaded page and compares that snapshot with
    the initial one.  When the final total is strictly greater, the
    difference is multiplied by 24 and by 3600 in floats; when that product
    is finite the outcome is the success message, whose delta is the product
    rounded to the nearest whole second (the even one half-way) and split
    into days, hours and minutes, and when it is infinite [round] raises
    [OverflowError] and there is no outcome.  Equal totals give the "no
    increase" message, a smaller final total the anomaly message, and two
    totals that are numbers always compare.  From 5.0 to 7.5 days the delta
    reads "2 天 12 小时 0 分钟".  The three messages are pairwise
    different. *)
Theorem compare_expiry_outcomes (initial_details final_details : str)
    (initial_value final_value : float) :
  let product :=
    SFmul MANT_DIG MAX_EXP
      (SFmul MANT_DIG MAX_EXP (SFsub MANT_DIG MAX_EXP final_value initial_value)
             (nearest_float 24))
      (nearest_float 3600) in
  (SFcompare final_value initial_value = Some Gt ->
   match product with
   | S754_nan =>
     compare_expiry initial_details initial_value final_details final_value
     = Raise (Exn ValueError (u "cannot convert float NaN to integer"))
   | S754_infinity _ =>
     compare_expiry initial_details initial_value final_details final_value
     = Raise (Exn OverflowError (u "cannot convert float infinity to integer"))
   | _ =>
     exists s : Z,
       (inject_Z s - (1 # 2) <= float_value product /\
        float_value product <= inject_Z s + (1 # 2)) /\
       (float_value product == inject_Z s + (1 # 2) \/
        float_value product == inject_Z s - (1 # 2) -> Z.even s = true) /\
       compare_expiry initial_details initial_value final_details final_value
       = Ok (renew_success initial_details final_details
               (str_of_int (s / 86400) ++ u " 天 "
                ++ str_of_int ((s mod 86400) / 3600) ++ u " 小时 "
                ++ str_of_int ((s mod 3600) / 60) ++ u " 分钟"))
   end) /\
  (SFcompare final_value initial_value = Some Eq ->
   compare_expiry initial_details initial_value final_details final_value
   = Ok (renew_no_increase final_details)) /\
  (SFcompare final_value initial_value = Some Lt ->
   compare_expiry initial_details initial_value final_details final_value
   = Ok RENEW_DECREASED) /\
  (final_value <> S754_nan -> initial_value <> S754_nan ->
   exists c, SFcompare final_value initial_value = Some c) /\
  (float_value (float_literal 5 0) == 5 /\
   float_value (float_literal 15 (-1)) == 15 # 2 /\
   compare_expiry initial_details (float_literal 5 0)
     final_details (float_literal 15 (-1))
   = Ok (renew_success initial_details final_details (u "2 天 12 小时 0 分钟"))) /\
  (forall added,
      str_eqb (renew_success initial_details final_details added)
              (renew_no_increase final_details) = false /\
      str_eqb (renew_success initial_details final_details added)
              RENEW_DECREASED = false /\
      str_eqb (renew_no_increase final_details) RENEW_DECREASED = false) /\
  (forall (T : re_tables) (lower : str -> str) (element : Type)
          (disabled_buttons : list element) (renewed_count : nat)
          (page_source final_page_source : str),
      (0 < renewed_count)%nat ->
      renew_report T lower renewed_count disabled_buttons page_source
        initial_details initial_value final_page_source
      = rbind (extract_expiry_days T final_page_source) (fun final =>
          compare_expiry initial_details initial_value (fst final) (snd final))).
Proof.
  intros product.
  split; [|split; [|split; [|split; [|split; [|split]]]]].
  - intros H. unfold compare_expiry, gt. rewrite H.
    unfold added_string, added_seconds, float_sub, float_mul. fold product.
    destruct product as [sz|sz| |sz mz ez] eqn:P; cbn [round_float rbind];
      try reflexivity.
    + exists (py_round (float_value (S754_zero sz))).
      split; [apply py_round_near|]. split; [apply py_round_tie|reflexivity].
    + exists (py_round (float_value (S754_finite sz mz ez))).
      split; [apply py_round_near|]. split; [apply py_round_tie|reflexivity].
  - intros H. unfold compare_expiry, gt, float_eq, SFeqb. rewrite H. reflexivity.
  - intros H. unfold compare_expiry, gt, float_eq, SFeqb. rewrite H. reflexivity.
  - intros Hf Hi.
    destruct final_value as [sf|sf| |sf mf ef]; try congruence;
      destruct initial_value as [si|si| |si mi ei]; try congruence;
      cbn [SFcompare]; eauto.
  - split; [reflexivity|]. split; [reflexivity|].
    unfold compare_expiry.
    assert (G : gt (float_literal 15 (-1)) (float_literal 5 0) = true)
      by (vm_compute; reflexivity).
    assert (A : added_string (float_literal 5 0) (float_literal 15 (-1))
                = Ok (u "2 天 12 小时 0 分钟")) by (vm_compute; reflexivity).
    rewrite G, A. reflexivity.
  - intros added. split; [|split]; vm_compute; reflexivity.
  - intros T lower element disabled_buttons renewed_count page_source
      final_page_source Hn.
    unfold renew_report, check_renew_result.
    destruct renewed_count as [|n]; [inversion Hn|]. reflexivity.
Qed.

(** C1, counterexample.  The reloaded page parses to a total that is
    strictly greater than the initial 5.0, and so far above it that the
    difference in seconds is beyond the range of a float: the product is an
    infinity, [round] raises [OverflowError], and the comparison has none of
    its three outcomes. *)
Lemma compare_expiry_raises_beyond_float_range :
  extract_expiry_days Ascii_tables.tables
    (u "Expires in 1" ++ repeat 48%N 304 ++ u "D")
  = Ok (u "1" ++ repeat 48%N 304 ++ u " 天", nearest_float (10 ^ 304)) /\
  SFcompare (nearest_float (10 ^ 304)) (nearest_float 5) = Some Gt /\
  check_renew_result Ascii_tables.tables (u "5 天") (nearest_float 5)
    (u "Expires in 1" ++ repeat 48%N 304 ++ u "D")
  = Raise (Exn OverflowError (u "cannot convert float infinity to integer")).
Proof. split; [|split]; vm_compute; reflexivity. Qed.

Lemma compare_expiry_outcomes_witness :
  (check_renew_result Ascii_tables.tables (u "5 天") (float_literal 5 0)
     (u "Expires in 7D 12H 0M")
   = Ok (renew_success (u "5 天") (u "7 天 12 小时") (u "2 天 12 小时 0 分钟"))) /\
  compare_expiry (u "5 天") (nearest_float 5) (u "5 天") (nearest_float 5)
  = Ok (renew_no_increase (u "5 天")) /\
  compare_expiry (u "5 天") (nearest_float 5) (u "4 天") (nearest_float 4)
  = Ok RENEW_DECREASED /\
  (total_of 0 37 0 = S754_finite false 6943049425529515 (-52) /\
   total_of 1 13 0 = S754_finite false 6943049425529514 (-52) /\
   check_renew_result Ascii_tables.tables (u "37 小时") (total_of 0 37 0)
     (u "Expires in 1D 13H 0M")
   = Ok RENEW_DECREASED).
Proof.
  assert (P : extract_expiry_days Ascii_tables.tables (u "Expires in 7D 12H 0M")
              = Ok (u "7 天 12 小时", float_literal 15 (-1)))
    by (vm_compute; reflexivity).
  split; [|split; [|split]].
  - unfold check_renew_result. rewrite P. cbn [rbind fst snd].
    destruct (compare_expiry_outcomes (u "5 天") (u "7 天 12 小时")
                (float_literal 5 0) (float_literal 15 (-1)))
      as (_ & _ & _ & _ & (_ & _ & Hd) & _).
    exact Hd.
  - destruct (compare_expiry_outcomes (u "5 天") (u "5 天")
                (nearest_float 5) (nearest_float 5)) as (_ & He & _).
    apply He. vm_compute. reflexivity.
  - destruct (compare_expiry_outcomes (u "5 天") (u "4 天")
                (nearest_float 5) (nearest_float 4)) as (_ & _ & Hlt & _).
    apply Hlt. vm_compute. reflexivity.
  - split; [vm_compute; reflexivity|]. split; [vm_compute; reflexivity|].
    assert (Q : extract_expiry_days Ascii_tables.tables (u "Expires in 1D 13H 0M")
                = Ok (u "1 天 13 小时", total_of 1 13 0))
      by (vm_compute; reflexivity).
    unfold check_renew_result. rewrite Q. cbn [rbind fst snd].
    destruct (compare_expiry_outcomes (u "37 小时") (u "1 天 13 小时")
                (total_of 0 37 0) (total_of 1 13 0)) as (_ & _ & Hlt & _).
    apply Hlt. vm_compute. reflexivity.
Defined.

(** *** The locator chain *)

Lemma find_element_cons_timeout {world element} (D : webdriver world element)
    (l : locator) (rest : list locator) (timeout : Z) (s : session world)
    (e : exn) (w : world) :
  until_element D (presence_of_element_located l) timeout (browser s) = (Raise e, w) ->
  is_timeout e = true ->
  find_element_with_multiple_selectors D (l :: rest) timeout s
  = find_element_with_multiple_selectors D rest timeout
      (Session w (waits s ++ [Wait_element (presence_of_element_located l) timeout])).
Proof.
  intros Hu Ht. cbn [find_element_with_multiple_selectors].
  unfold try_except, bind, wait_element, except_timeout.
  rewrite Hu, Ht. reflexivity.
Qed.

Lemma find_element_cons_hit {world element} (D : webdriver world element)
    (l : locator) (rest : list locator) (timeout : Z) (s : session world)
    (e : element) (w : world) :
  until_element D (presence_of_element_located l) timeout (browser s) = (Ok e, w) ->
  find_element_with_multiple_selectors D (l :: rest) timeout s
  = (Ok (Some e),
     Session w (waits s ++ [Wait_element (presence_of_element_located l) timeout])).
Proof.
  intros Hu. cbn [find_element_with_multiple_selectors].
  unfold try_except, bind, wait_element, ret.
  rewrite Hu. reflexivity.
Qed.

(** C5.  The chain is tried in order, every candidate with the whole
    [timeout]: when the candidates [before] all time out, the chain [before]
    alone returns [None] without raising, after exactly one wait of [timeout]
    per candidate; and when the next candidate [hit] then resolves to an
    element, the chain [before ++ hit :: after] returns that element after the
    waits for [before] and [hit] only: no candidate of [after] is tried. *)
Theorem find_element_first_hit {world element} (D : webdriver world element)
    (before after : list locator) (hit : locator) (timeout : Z)
    (s : session world) (w1 : world) :
  all_time_out D before timeout (browser s) = Some w1 ->
  find_element_with_multiple_selectors D before timeout s
  = (Ok None, Session w1 (waits s ++ presence_waits before timeout)) /\
  (forall e w2,
      until_element D (presence_of_element_located hit) timeout w1 = (Ok e, w2) ->
      find_element_with_multiple_selectors D (before ++ hit :: after) timeout s
      = (Ok (Some e),
         Session w2 (waits s ++ presence_waits (before ++ [hit]) timeout))).
Proof.
  revert s. induction before as [|l before IH]; intros s H.
  - cbn [all_time_out] in H. injection H as <-. split.
    + cbn. rewrite app_nil_r. destruct s. reflexivity.
    + intros e w2 Hu. cbn [app]. apply find_element_cons_hit. exact Hu.
  - cbn [all_time_out] in H.
    destruct (until_element D (presence_of_element_located l) timeout (browser s))
      as [[el|e] w'] eqn:Hu; [discriminate|].
    destruct (is_timeout e) eqn:Ht; [|discriminate].
    destruct (IH (Session w' (waits s ++ [Wait_element (presence_of_element_located l) timeout])) H)
      as [IHnone IHhit].
    split.
    + rewrite (find_element_cons_timeout D l before timeout s e w' Hu Ht).
      rewrite IHnone. cbn [waits presence_waits map]. rewrite <- app_assoc.
      reflexivity.
    + intros el w2 Hhit. cbn [app].
      rewrite (find_element_cons_timeout D l _ timeout s e w' Hu Ht).
      rewrite (IHhit el w2 Hhit). cbn [waits presence_waits map app].
      rewrite <- app_assoc. reflexivity.
Qed.

Lemma find_element_first_hit_witness :
  let first := (CSS_SELECTOR, u "input[name='identifier']") in
  let second := (CSS_SELECTOR, u "input[type='email']") in
  let third := (XPATH, u "//input[@type='email']") in
  let field := Demo.Element true (u "") in
  let w := Demo.World LOGIN_URL [(second, field)] 0 in
  let w1 := Demo.World LOGIN_URL [(second, field)] 15 in
  all_time_out Demo.driver [first] 15 w = Some w1 /\
  find_element_with_multiple_selectors Demo.driver [first; second; third] 15
    (Session w [])
  = (Ok (Some field),
     Session w1 [Wait_element (presence_of_element_located first) 15;
                 Wait_element (presence_of_element_located second) 15]) /\
  find_element_with_multiple_selectors Demo.driver [first] 15 (Session w [])
  = (Ok None, Session w1 [Wait_element (presence_of_element_located first) 15]).
Proof.
  intros first second third field w w1.
  assert (H : all_time_out Demo.driver [first] 15 (browser (Session w [])) = Some w1)
    by (vm_compute; reflexivity).
  split; [exact H|].
  destruct (find_element_first_hit Demo.driver [first] [third] second 15
              (Session w []) w1 H) as [Hnone Hhit].
  split.
  - exact (Hhit field w1 eq_refl).
  - exact Hnone.
Defined.

(** *** The waits *)

(** C8, counterexample.  On a page without the element the helper does not
    return: after the whole timeout it raises [TimeoutException]. *)
Lemma wait_for_element_clickable_raises :
  wait_for_element_clickable Demo.driver (CSS_SELECTOR, u "#go-link") 10
    (Session (Demo.World HOME_URL [] 0) [])
  = (Raise (Exn TimeoutException (u "Message: ")),
     Session (Demo.World HOME_URL [] 10)
       [Wait_element (element_to_be_clickable (CSS_SELECTOR, u "#go-link")) 10]).
Proof. vm_compute. reflexivity. Qed.

(** C8, amended.  [wait_for_element_clickable] and [wait_for_element_present]
    return the element the wait found, and raise what the wait raised, the
    [TimeoutException] of an elapsed deadline included.  A timeout is an
    ordinary outcome only where the caller catches it: the wait for the page
    to change after the e-mail was submitted returns normally whether the URL
    changed or the wait timed out. *)
Theorem wait_helpers_propagate_timeout {world element}
    (D : webdriver world element) (l : locator) (timeout : Z)
    (initial_url : str) (s : session world) :
  (forall r w,
      until_element D (element_to_be_clickable l) timeout (browser s) = (r, w) ->
      wait_for_element_clickable D l timeout s
      = (r, Session w (waits s ++ [Wait_element (element_to_be_clickable l) timeout]))) /\
  (forall r w,
      until_element D (presence_of_element_located l) timeout (browser s) = (r, w) ->
      wait_for_element_present D l timeout s
      = (r, Session w (waits s ++ [Wait_element (presence_of_element_located l) timeout]))) /\
  (forall r w,
      until_url D (url_changes initial_url) 10 (browser s) = (r, w) ->
      match r with Ok _ => True | Raise e => is_timeout e = true end ->
      wait_for_page_switch D initial_url s
      = (Ok tt, Session w (waits s ++ [Wait_url (url_changes initial_url) 10]))).
Proof.
  split; [|split].
  - intros r w H. unfold wait_for_element_clickable, wait_element.
    rewrite H. reflexivity.
  - intros r w H. unfold wait_for_element_present, wait_element.
    rewrite H. reflexivity.
  - intros r w H Hr. unfold wait_for_page_switch, try_except, wait_url.
    rewrite H. destruct r as [[]|e].
    + reflexivity.
    + unfold except_timeout. rewrite Hr. reflexivity.
Qed.

Lemma wait_helpers_propagate_timeout_witness :
  let l := (CSS_SELECTOR, u "#go-link") in
  let w := Demo.World LOGIN_URL [] 0 in
  let late := Demo.World LOGIN_URL [] 10 in
  let timeout := Exn TimeoutException (u "Message: ") in
  (until_element Demo.driver (element_to_be_clickable l) 10 w = (Raise timeout, late) /\
   wait_for_element_clickable Demo.driver l 10 (Session w [])
   = (Raise timeout, Session late [Wait_element (element_to_be_clickable l) 10])) /\
  (until_url Demo.driver (url_changes LOGIN_URL) 10 w = (Raise timeout, late) /\
   wait_for_page_switch Demo.driver LOGIN_URL (Session w [])
   = (Ok tt, Session late [Wait_url (url_changes LOGIN_URL) 10])).
Proof.
  intros l w late timeout.
  destruct (wait_helpers_propagate_timeout Demo.driver l 10 LOGIN_URL (Session w []))
    as (Hc & _ & Hs).
  split.
  - assert (H : until_element Demo.driver (element_to_be_clickable l) 10 w
                = (Raise timeout, late)) by (vm_compute; reflexivity).
    split; [exact H|]. exact (Hc _ _ H).
  - assert (H : until_url Demo.driver (url_changes LOGIN_URL) 10 w
                = (Raise timeout, late)) by (vm_compute; reflexivity).
    split; [exact H|]. exact (Hs _ _ H eq_refl).
Defined.

(** *** The last step of the login *)

Lemma startswith_app (a b p : str) :
  startswith a p = true -> startswith (a ++ b) p = true.
Proof.
  revert a. induction p as [|x p IH]; intros a H; [destruct (a ++ b); reflexivity|].
  destruct a as [|y a]; [discriminate|]. cbn [startswith app] in *.
  apply andb_true_iff in H. destruct H as [H1 H2].
  rewrite H1, (IH a H2). reflexivity.
Qed.

Lemma contains_app (a b p : str) :
  contains a p = true -> contains (a ++ b) p = true.
Proof.
  induction a as [|y a IH]; intros H.
  - cbn [contains] in H. rewrite orb_false_r in H.
    destruct p; [|discriminate]. destruct b; reflexivity.
  - cbn [contains app] in *. apply orb_true_iff in H. destruct H as [H|H].
    + change (y :: a ++ b) with ((y :: a) ++ b).
      rewrite (startswith_app (y :: a) b p H). reflexivity.
    + rewrite (IH H). apply orb_true_r.
Qed.

(** The session in which the handler of the timeout looks for an error. *)
Lemma wait_for_login_timed_out {world element} (D : webdriver world element)
    (s : session world) (e0 : exn) (w0 : world) :
  until_url D (url_to_be HOME_URL) WAIT_TIME_AFTER_LOGIN (browser s) = (Raise e0, w0) ->
  is_timeout e0 = true ->
  wait_for_login D s
  = bind (check_error_message D) (fun _ =>
      bind (call (current_url D)) (fun url =>
        if contains url (u "accounts.google.com") then
          raise (Exn Exception GOOGLE_REDIRECT)
        else if contains url (u "login") then
          raise (Exn Exception STILL_ON_LOGIN_PAGE)
        else ret true))
      (Session (save_debug_info D (u "error_login_timeout") w0)
         (waits s ++ [Wait_url (url_to_be HOME_URL) WAIT_TIME_AFTER_LOGIN])).
Proof.
  intros Hu Ht. unfold wait_for_login, try_except.
  unfold bind at 1. unfold wait_url. rewrite Hu.
  unfold except_timeout. rewrite Ht. reflexivity.
Qed.

(** C7, counterexample.  The browser has left the login URL for a page of
    the site whose address merely contains "login": the step does not return
    true, it fails with the "still on login page" message.  Likewise an
    address of the site that contains "accounts.google.com" fails as an
    unsupported sign-in although the browser is not on that domain. *)
Lemma login_left_login_url_still_fails :
  let url := u "https://www.pella.app/dashboard?from=login" in
  let sso := u "https://www.pella.app/sso?hint=accounts.google.com" in
  (startswith url LOGIN_URL = false /\
   str_eqb url HOME_URL = false /\
   contains url (u "accounts.google.com") = false /\
   fst (wait_for_login Demo.driver (Session (Demo.World url [] 0) []))
   = Raise (Exn Exception STILL_ON_LOGIN_PAGE)) /\
  (startswith sso (u "https://www.pella.app/") = true /\
   fst (wait_for_login Demo.driver (Session (Demo.World sso [] 0) []))
   = Raise (Exn Exception GOOGLE_REDIRECT)).
Proof. vm_compute. repeat split. Qed.

(** C7, amended.  When the wait for the home page times out, the step ends
    in one of four ways, checked in this order: the first error-message
    candidate that resolves is displayed, and the step fails with its text;
    otherwise the current URL contains "accounts.google.com", and it fails
    with the unsupported-sign-in message; otherwise the current URL contains
    "login", and it fails with the "still on login page" message; otherwise
    it returns true.  The look for an error message ends without a failure
    when no candidate resolves or the one found is not displayed.  The three
    failure messages are different. *)
Theorem wait_for_login_outcomes {world element} (D : webdriver world element)
    (s : session world) (e0 : exn) (w0 : world) :
  until_url D (url_to_be HOME_URL) WAIT_TIME_AFTER_LOGIN (browser s) = (Raise e0, w0) ->
  is_timeout e0 = true ->
  let s1 := Session (save_debug_info D (u "error_login_timeout") w0)
              (waits s ++ [Wait_url (url_to_be HOME_URL) WAIT_TIME_AFTER_LOGIN]) in
  (forall el s2 w3 error_text w4,
      find_element_with_multiple_selectors D error_selectors 2 s1 = (Ok (Some el), s2) ->
      is_displayed D el (browser s2) = (Ok true, w3) ->
      text D el w3 = (Ok error_text, w4) ->
      wait_for_login D s
      = (Raise (Exn Exception (u "❌ 登录失败: " ++ strip error_text)),
         Session w4 (waits s2))) /\
  (forall s2 url w3,
      check_error_message D s1 = (Ok tt, s2) ->
      current_url D (browser s2) = (Ok url, w3) ->
      wait_for_login D s
      = (if contains url (u "accounts.google.com") then
           Raise (Exn Exception GOOGLE_REDIRECT)
         else if contains url (u "login") then
           Raise (Exn Exception STILL_ON_LOGIN_PAGE)
         else Ok true,
         Session w3 (waits s2))) /\
  (forall s2,
      find_element_with_multiple_selectors D error_selectors 2 s1 = (Ok None, s2) ->
      check_error_message D s1 = (Ok tt, s2)) /\
  (forall el s2 w3,
      find_element_with_multiple_selectors D error_selectors 2 s1 = (Ok (Some el), s2) ->
      is_displayed D el (browser s2) = (Ok false, w3) ->
      check_error_message D s1 = (Ok tt, Session w3 (waits s2))) /\
  (forall error_text,
      str_eqb (u "❌ 登录失败: " ++ strip error_text) GOOGLE_REDIRECT = false /\
      str_eqb (u "❌ 登录失败: " ++ strip error_text) STILL_ON_LOGIN_PAGE = false /\
      str_eqb GOOGLE_REDIRECT STILL_ON_LOGIN_PAGE = false).
Proof.
  intros Hu Ht s1.
  pose proof (wait_for_login_timed_out D s e0 w0 Hu Ht) as Hw.
  fold s1 in Hw.
  split; [|split; [|split; [|split]]].
  - intros el s2 w3 error_text w4 Hf Hd Htx. rewrite Hw.
    unfold bind at 1. unfold check_error_message, try_except.
    unfold bind at 1. rewrite Hf.
    unfold bind at 1. unfold call at 1. rewrite Hd.
    unfold bind at 1. unfold call at 1. cbn [browser waits]. rewrite Htx.
    unfold raise at 1. unfold except_exception. cbn [str_of_exn exn_text].
    rewrite (contains_app (u "❌ 登录失败: ") (strip error_text) LOGIN_FAILED eq_refl).
    reflexivity.
  - intros s2 url w3 Hc Hcur. rewrite Hw.
    unfold bind at 1. rewrite Hc.
    unfold bind at 1. unfold call at 1. rewrite Hcur.
    destruct (contains url (u "accounts.google.com")); [reflexivity|].
    destruct (contains url (u "login")); reflexivity.
  - intros s2 Hf. unfold check_error_message, try_except.
    unfold bind at 1. rewrite Hf. reflexivity.
  - intros el s2 w3 Hf Hd. unfold check_error_message, try_except.
    unfold bind at 1. rewrite Hf.
    unfold bind at 1. unfold call at 1. rewrite Hd. reflexivity.
  - intros error_text. split; [|split]; vm_compute; reflexivity.
Qed.

Lemma wait_for_login_outcomes_witness :
  let url := u "https://www.pella.app/dashboard" in
  let w := Demo.World url [] 0 in
  let timeout := Exn TimeoutException (u "Message: ") in
  until_url Demo.driver (url_to_be HOME_URL) WAIT_TIME_AFTER_LOGIN w
  = (Raise timeout, Demo.World url [] 20) /\
  is_timeout timeout = true /\
  fst (wait_for_login Demo.driver (Session w [])) = Ok true.
Proof.
  intros url w timeout.
  assert (Hu : until_url Demo.driver (url_to_be HOME_URL) WAIT_TIME_AFTER_LOGIN
                 (browser (Session w []))
               = (Raise timeout, Demo.World url [] 20)) by (vm_compute; reflexivity).
  split; [exact Hu|]. split; [reflexivity|].
  destruct (wait_for_login_outcomes Demo.driver (Session w []) timeout
              (Demo.World url [] 20) Hu eq_refl) as (_ & Hb & _).
  set (s1 := Session
               (save_debug_info Demo.driver (u "error_login_timeout")
                  (Demo.World url [] 20))
               (waits (Session w [])
                ++ [Wait_url (url_to_be HOME_URL) WAIT_TIME_AFTER_LOGIN])) in Hb.
  set (r := check_error_message Demo.driver s1).
  assert (Hc : r = (Ok tt, snd r)) by (vm_compute; reflexivity).
  assert (Hcur : current_url Demo.driver (browser (snd r))
                 = (Ok url, browser (snd r))) by (vm_compute; reflexivity).
  rewrite (Hb (snd r) url (browser (snd r)) Hc Hcur).
  vm_compute. reflexivity.
Defined.

(** *** One outcome per account *)

Section Batch.

Context {world element : Type}.
Variable D : webdriver world element.
Variable setup_driver : M world unit.
Variable login_form : account -> M world unit.
Variable get_server_url : M world bool.
Variable renew_server : M world str.
Variable telegram_configured : bool.
Variable post_message : str -> world -> world.

Let run_one := run_account D setup_driver login_form get_server_url renew_server.
Let loop := for_accounts D setup_driver login_form get_server_url renew_server.

(** The [try] of [run_all] catches everything: an account always has a
    [(success, result)]. *)
Lemma run_account_returns (a : account) (s : session world) :
  exists r s', run_one a s = (Ok r, s').
Proof.
  unfold run_one, run_account, try_except.
  destruct (bind (init setup_driver a)
              (fun _ => run D login_form get_server_url renew_server a) s)
    as [[r|e] s']; unfold except_exception, ret; eauto.
Qed.

Lemma run_account_fault (a : account) (s : session world) (e : exn)
    (s' : session world) :
  bind (init setup_driver a)
       (fun _ => run D login_form get_server_url renew_server a) s = (Raise e, s') ->
  run_one a s = (Ok (false, u "❌ 处理账号异常: " ++ str_of_exn e), s').
Proof.
  intros H. unfold run_one, run_account, try_except. rewrite H. reflexivity.
Qed.

Lemma for_accounts_step (a : account) (rest : list account)
    (results : list outcome) (s : session world) (r : bool * str)
    (s' : session world) :
  run_one a s = (Ok r, s') ->
  loop (a :: rest) results s = loop rest (results ++ [(email a, fst r, snd r)]) s'.
Proof.
  intros H. unfold loop. cbn [for_accounts]. unfold bind at 1.
  fold run_one. rewrite H. reflexivity.
Qed.

(** The loop never raises; it appends one entry per account, in order, and
    what it appends does not depend on the entries already there. *)
Lemma for_accounts_appends (accounts : list account) :
  forall (results : list outcome) (s : session world),
  exists added s',
    loop accounts results s = (Ok (results ++ added), s') /\
    loop accounts [] s = (Ok added, s') /\
    map outcome_email added = map email accounts.
Proof.
  induction accounts as [|a rest IH]; intros results s.
  - exists [], s. unfold loop. cbn. rewrite app_nil_r. auto.
  - destruct (run_account_returns a s) as (r & s1 & Hr).
    rewrite (for_accounts_step a rest results s r s1 Hr).
    rewrite (for_accounts_step a rest [] s r s1 Hr).
    destruct (IH (results ++ [(email a, fst r, snd r)]) s1)
      as (added & s' & H1 & H2 & H3).
    destruct (IH ([] ++ [(email a, fst r, snd r)]) s1)
      as (added' & s'' & H1' & H2' & _).
    rewrite H2 in H2'. injection H2' as <- <-.
    exists ((email a, fst r, snd r) :: added), s'.
    rewrite H1, <- app_assoc. cbn [app] in H1'. cbn [app]. rewrite H1'.
    cbn [map outcome_email fst]. rewrite H3. auto.
Qed.

Lemma for_accounts_app (before rest : list account) :
  forall (results : list outcome) (s : session world) res1 s1,
  loop before results s = (Ok res1, s1) ->
  loop (before ++ rest) results s = loop rest res1 s1.
Proof.
  induction before as [|a before IH]; intros results s res1 s1 H.
  - unfold loop in H. cbn in H. injection H as <- <-. reflexivity.
  - destruct (run_account_returns a s) as (r & s' & Hr).
    cbn [app]. rewrite (for_accounts_step a _ results s r s' Hr).
    rewrite (for_accounts_step a _ results s r s' Hr) in H.
    exact (IH _ _ _ _ H).
Qed.

Lemma send_notification_returns (results : list outcome) (s : session world) :
  exists s', send_notification telegram_configured post_message results s = (Ok tt, s').
Proof.
  unfold send_notification, ret. destruct telegram_configured; cbn [negb]; eauto.
Qed.

Lemma run_all_results (accounts : list account) (s : session world)
    (results : list outcome) (s1 : session world) :
  loop accounts [] s = (Ok results, s1) ->
  exists overall s',
    run_all D setup_driver login_form get_server_url renew_server
      telegram_configured post_message accounts s
    = (Ok (overall, results), s').
Proof.
  intros H. unfold run_all. unfold bind at 1. fold loop. rewrite H.
  destruct (send_notification_returns results s1) as (s' & Hs).
  unfold bind at 1. rewrite Hs. unfold ret. eauto.
Qed.

(** C6.  [run_all] never raises and its report has exactly one entry per
    credential, in input order.  An account whose run raises gets a failure
    entry carrying the fault, and the entries of the accounts before and
    after it are the ones their own runs produce.  Inside [run], a fault of
    the login is turned into a failure result for that account. *)
Theorem run_all_one_outcome_per_account (accounts : list account)
    (s : session world) :
  (exists overall results s',
      run_all D setup_driver login_form get_server_url renew_server
        telegram_configured post_message accounts s
      = (Ok (overall, results), s') /\
      map outcome_email results = map email accounts) /\
  (forall before a after res1 s1 e s2,
      accounts = before ++ a :: after ->
      loop before [] s = (Ok res1, s1) ->
      bind (init setup_driver a)
           (fun _ => run D login_form get_server_url renew_server a) s1
      = (Raise e, s2) ->
      exists res2 s3 overall s',
        loop after [] s2 = (Ok res2, s3) /\
        run_all D setup_driver login_form get_server_url renew_server
          telegram_configured post_message accounts s
        = (Ok (overall, res1 ++ account_fault a e :: res2), s')) /\
  (forall a s0 e s1 w,
      login D login_form a s0 = (Raise e, s1) ->
      quit D (save_debug_info D (u "error_final") (browser s1)) = (Ok tt, w) ->
      run D login_form get_server_url renew_server a s0
      = (Ok (false, u "❌ 自动续期失败: " ++ str_of_exn e), Session w (waits s1))).
Proof.
  split; [|split].
  - destruct (for_accounts_appends accounts [] s) as (added & s1 & H & _ & Hm).
    cbn [app] in H.
    destruct (run_all_results accounts s added s1 H) as (overall & s' & Hr).
    exists overall, added, s'. auto.
  - intros before a after res1 s1 e s2 -> Hb Hf.
    pose proof (run_account_fault a s1 e s2 Hf) as Hr.
    destruct (for_accounts_appends after (res1 ++ [account_fault a e]) s2)
      as (res2 & s3 & H1 & H2 & _).
    assert (Hl : loop (before ++ a :: after) [] s
                 = (Ok (res1 ++ account_fault a e :: res2), s3)).
    { rewrite (for_accounts_app before (a :: after) [] s res1 s1 Hb).
      rewrite (for_accounts_step a after res1 s1 _ s2 Hr).
      change (loop after (res1 ++ [account_fault a e]) s2
              = (Ok (res1 ++ account_fault a e :: res2), s3)).
      rewrite H1, <- app_assoc. reflexivity. }
    destruct (run_all_results _ s _ s3 Hl) as (overall & s' & Hrun).
    exists res2, s3, overall, s'. auto.
  - intros a s0 e s1 w Hl Hq.
    unfold run, try_finally, try_except. unfold bind at 1. rewrite Hl.
    unfold except_exception, bind, debug, ret, call. cbn [browser waits].
    rewrite Hq. reflexivity.
Qed.

End Batch.

Lemma run_all_one_outcome_per_account_witness :
  let accounts := [Demo_batch.first; Demo_batch.unset; Demo_batch.last] in
  let missing := Exn ValueError (u "邮箱和密码不能为空") in
  (exists overall results s',
      Demo_batch.run_all accounts = (Ok (overall, results), s') /\
      map outcome_email results = map email accounts) /\
  (exists overall s',
      Demo_batch.run_all accounts
      = (Ok (overall,
             [(u "alice@example.com", true, NO_CLICKABLE_BUTTON)]
             ++ account_fault Demo_batch.unset missing
             :: [(u "dave@example.com", true, NO_CLICKABLE_BUTTON)]), s')).
Proof.
  intros accounts missing.
  destruct (run_all_one_outcome_per_account Demo.driver Demo_batch.setup_driver
              Demo_batch.login_form Demo_batch.get_server_url
              Demo_batch.renew_server false (fun _ w => w) accounts
              (Session Demo_batch.world0 [])) as (Hall & Hfault & _).
  split; [exact Hall|].
  set (s1 := Session Demo_batch.world0
               [Wait_url (url_to_be HOME_URL) WAIT_TIME_AFTER_LOGIN]).
  destruct (Hfault [Demo_batch.first] Demo_batch.unset [Demo_batch.last]
              [(u "alice@example.com", true, NO_CLICKABLE_BUTTON)] s1 missing s1
              eq_refl)
    as (res2 & s3 & overall & s' & Hafter & Hrun).
  - vm_compute. reflexivity.
  - vm_compute. reflexivity.
  - assert (E : res2 = [(u "dave@example.com", true, NO_CLICKABLE_BUTTON)]).
    { vm_compute in Hafter. injection Hafter as <- _. vm_compute. reflexivity. }
    subst res2. exists overall, s'. exact Hrun.
Defined.

(** Three credentials, the login of the second one failing: three entries in
    input order, the second marked failed, the others as without it. *)
Example run_all_login_failure :
  fst (Demo_batch.run_all [Demo_batch.first; Demo_batch.rejected; Demo_batch.last])
  = Ok (false,
        [(u "alice@example.com", true, NO_CLICKABLE_BUTTON);
         (u "bob@example.com", false, u "❌ 自动续期失败: ❌ 输入密码失败: rejected");
         (u "dave@example.com", true, NO_CLICKABLE_BUTTON)]).
Proof. vm_compute. reflexivity. Qed.

(** *** The summary sent to Telegram *)

Lemma split_once_app (c : char) (a b : str) :
  ~ In c a -> split_once c (a ++ c :: b) = Some (a, b).
Proof.
  induction a as [|x a IH]; intros H; cbn [app split_once].
  - unfold char_eqb. rewrite N.eqb_refl. reflexivity.
  - destruct (char_eqb x c) eqn:E.
    + apply N.eqb_eq in E. subst. exfalso. apply H. left. reflexivity.
    + rewrite IH; [reflexivity|]. intros Hin. apply H. right. exact Hin.
Qed.

Lemma split_head_app (c : char) (line rest : str) :
  ~ In c line -> (rest = [] \/ exists r, rest = c :: r) ->
  split_head c (line ++ rest) = line.
Proof.
  induction line as [|x line IH]; intros H Hr; cbn [app split_head].
  - destruct Hr as [->|[r ->]]; [reflexivity|].
    cbn [split_head]. unfold char_eqb. rewrite N.eqb_refl. reflexivity.
  - destruct (char_eqb x c) eqn:E.
    + apply N.eqb_eq in E. subst. exfalso. apply H. left. reflexivity.
    + rewrite IH; [reflexivity| |exact Hr]. intros Hin. apply H. right. exact Hin.
Qed.

Lemma message_lines (lines : list outcome) : forall message : str,
  fold_left (fun message o => message ++ account_line o) lines message
  = message ++ concat (map account_line lines).
Proof.
  induction lines as [|o lines IH]; intros message; cbn [fold_left map concat].
  - rewrite app_nil_r. reflexivity.
  - rewrite IH, <- app_assoc. reflexivity.
Qed.

(** C9.  The summary is its header followed by one line per account, in
    order.  The line of an account whose identity is [local_part @ domain]
    shows the first three characters of the local part, then [***@], then the
    domain unchanged; "alice@example.com" shows as "ali***@example.com".  The
    result text of the line is the first line of the result message cut to
    its first 100 characters. *)
Theorem notification_account_lines (results : list outcome) :
  notification_message results
  = summary_header results ++ concat (map account_line results) /\
  (forall local_part domain success result,
      ~ In AT_SIGN local_part ->
      account_line (local_part ++ AT_SIGN :: domain, success, result)
      = status_of success result ++ u " "
        ++ (firstn 3 local_part ++ u "***@" ++ domain)
        ++ u ": " ++ short_result result ++ [NEWLINE]) /\
  masked_email (u "alice@example.com") = u "ali***@example.com" /\
  (forall line rest,
      ~ In NEWLINE line -> (rest = [] \/ exists r, rest = NEWLINE :: r) ->
      short_result (line ++ rest) = firstn 100 line /\
      (length (short_result (line ++ rest)) <= 100)%nat).
Proof.
  split; [|split; [|split]].
  - unfold notification_message. apply message_lines.
  - intros local_part domain success result H.
    unfold account_line, masked_email. rewrite (split_once_app _ _ _ H).
    reflexivity.
  - vm_compute. reflexivity.
  - intros line rest H Hr. unfold short_result, slice_to.
    rewrite (split_head_app _ _ _ H Hr). split; [reflexivity|].
    apply firstn_le_length.
Qed.

Lemma notification_account_lines_witness :
  (~ In AT_SIGN (u "alice") /\
   account_line (u "alice" ++ AT_SIGN :: u "example.com", true,
                 u "✅ 续期成功! 初始 5 天 -> 最终 7 天 (共续期 2 天 0 小时 0 分钟)")
   = u "✅ ali***@example.com: ✅ 续期成功! 初始 5 天 -> 最终 7 天 (共续期 2 天 0 小时 0 分钟)"
     ++ [NEWLINE]) /\
  (~ In NEWLINE (u "first") /\
   short_result (u "first" ++ NEWLINE :: u "second") = u "first").
Proof.
  assert (A : ~ In AT_SIGN (u "alice")).
  { vm_compute. intros H. repeat (destruct H as [H|H]; [discriminate H|]). exact H. }
  assert (N : ~ In NEWLINE (u "first")).
  { vm_compute. intros H. repeat (destruct H as [H|H]; [discriminate H|]). exact H. }
  destruct (notification_account_lines []) as (_ & Hline & _ & Hshort).
  split; split; [exact A| |exact N|].
  - rewrite (Hline (u "alice") (u "example.com") true _ A).
    vm_compute. reflexivity.
  - destruct (Hshort (u "first") (NEWLINE :: u "second") N
                (or_intror (ex_intro _ (u "second") eq_refl))) as [E _].
    rewrite E. vm_compute. reflexivity.
Defined.

Lemma count_if_app (test : outcome -> bool) (a b : list outcome) :
  count_if test (a ++ b) = (count_if test a + count_if test b)%Z.
Proof.
  unfold count_if. rewrite filter_app, length_app. lia.
Qed.

(** C10.  A successful outcome whose message contains neither "续期成功" nor
    "未找到可点击" is counted in none of the three categories: appending it to
    a report adds one to the total and nothing to the renewed, already-done
    and failed counts, and on its own the three counts sum to less than the
    total. *)
Theorem summary_counts_miss_outcomes (results : list outcome) (email result : str) :
  contains result RENEWED_MARK = false ->
  contains result ALREADY_DONE_MARK = false ->
  (success_count (results ++ [(email, true, result)]) = success_count results /\
   already_done_count (results ++ [(email, true, result)]) = already_done_count results /\
   failure_count (results ++ [(email, true, result)]) = failure_count results /\
   total_count (results ++ [(email, true, result)]) = total_count results + 1 /\
   success_count [(email, true, result)] + already_done_count [(email, true, result)]
   + failure_count [(email, true, result)] < total_count [(email, true, result)])%Z.
Proof.
  intros Hr Ha.
  unfold success_count, already_done_count, failure_count, total_count.
  rewrite !count_if_app, length_app.
  unfold count_if. cbn [filter length andb negb]. rewrite Hr, Ha.
  cbn [length]. lia.
Qed.

Lemma summary_counts_miss_outcomes_witness :
  let id (s : str) := s in
  let no_increase := renew_no_increase (u "5 天") in
  renew_report Ascii_tables.tables id 1 (@nil unit) [] (u "5 天") (nearest_float 5)
    (u "Expires in 5D 0H 0M") = Ok no_increase /\
  renew_report Ascii_tables.tables id 0 (@nil unit) (u "<html></html>") (u "5 天")
    (nearest_float 5) []
  = Ok NO_BUTTON_AT_ALL /\
  (success_count [(u "a@b.c", true, no_increase)]
   + already_done_count [(u "a@b.c", true, no_increase)]
   + failure_count [(u "a@b.c", true, no_increase)]
   < total_count [(u "a@b.c", true, no_increase)])%Z /\
  (success_count [(u "a@b.c", true, NO_BUTTON_AT_ALL)]
   + already_done_count [(u "a@b.c", true, NO_BUTTON_AT_ALL)]
   + failure_count [(u "a@b.c", true, NO_BUTTON_AT_ALL)]
   < total_count [(u "a@b.c", true, NO_BUTTON_AT_ALL)])%Z.
Proof.
  intros id no_increase.
  split; [vm_compute; reflexivity|]. split; [vm_compute; reflexivity|].
  split.
  - apply (summary_counts_miss_outcomes [] (u "a@b.c") no_increase);
      vm_compute; reflexivity.
  - apply (summary_counts_miss_outcomes [] (u "a@b.c") NO_BUTTON_AT_ALL);
      vm_compute; reflexivity.
Defined.

(** *** The documented texts, run *)

Example parse_legacy :
  extract_expiry_days Ascii_tables.tables (u "Your server expires in 14D 5H 30M")
  = Ok (u "14 天 5 小时 30 分钟", S754_finite false 8010308712224086 (-49)).
Proof. vm_compute. reflexivity. Qed.

Example parse_header_hours_minutes :
  extract_expiry_days Ascii_tables.tables (u "Expires in 30H 3M")
  = Ok (u "30 小时 3 分钟", S754_finite false 5638882033436809 (-52)).
Proof. vm_compute. reflexivity. Qed.

Example parse_body_hours_minutes :
  extract_expiry_days Ascii_tables.tables
    (u "Your server is expiring in 1 Hour 20 Minutes")
  = Ok (u "1 小时 20 分钟", S754_finite false 8006399337547548 (-57)).
Proof. vm_compute. reflexivity. Qed.

Example parse_header_days_hours_minutes :
  extract_expiry_days Ascii_tables.tables (u "Expires in 5D 10H 30M")
  = Ok (u "5 天 10 小时 30 分钟", S754_finite false 6122080743456768 (-50)).
Proof. vm_compute. reflexivity. Qed.

Example parse_days_only :
  extract_expiry_days Ascii_tables.tables (u "Your server expires in 14D")
  = Ok (u "14 天", S754_finite false 7881299347898368 (-49)).
Proof. vm_compute. reflexivity. Qed.

(** The first format is case-sensitive: in lower case the text is left to
    the fourth. *)
Example parse_lower_case_is_not_legacy :
  first_match Ascii_tables.tables precedence (u "your server expires in 1d 2h 3m")
  = Some (HeaderDHM, [(3, u "3"); (2, u "2"); (1, u "1")]%nat).
Proof. vm_compute. reflexivity. Qed.

(** The second format goes before the fourth, wherever they match. *)
Example parse_hours_minutes_before_days :
  extract_expiry_days Ascii_tables.tables
    (u "Expires in 1D 2H 3M, later: expires in 4H 5M")
  = Ok (u "4 小时 5 分钟", S754_finite false 6129899492809841 (-55)).
Proof. vm_compute. reflexivity. Qed.

(** Floats round as the machine does: 37 hours and 1 day 13 hours are the
    same duration and two different totals. *)
Example totals_are_rounded :
  extract_expiry_days Ascii_tables.tables (u "Expires in 37H 0M")
  = Ok (u "37 小时", S754_finite false 6943049425529515 (-52)) /\
  extract_expiry_days Ascii_tables.tables (u "Expires in 1D 13H 0M")
  = Ok (u "1 天 13 小时", S754_finite false 6943049425529514 (-52)) /\
  gt (total_of 0 37 0) (total_of 1 13 0) = true.
Proof. repeat split; vm_compute; reflexivity. Qed.

(** The largest integers [float] and [/] take, and the first ones they
    refuse. *)
Example float_of_int_limits :
  float_of_int (OVERFLOW_THRESHOLD - 1)
  = Ok (S754_finite false 9007199254740991 971) /\
  nearest_float OVERFLOW_THRESHOLD = S754_infinity false /\
  float_of_int OVERFLOW_THRESHOLD
  = Raise (Exn OverflowError (u "int too large to convert to float")) /\
  int_true_div (OVERFLOW_THRESHOLD * 24 - 1) 24
  = Ok (S754_finite false 9007199254740991 971) /\
  nearest_quotient (OVERFLOW_THRESHOLD * 24) 24 = S754_infinity false /\
  int_true_div (OVERFLOW_THRESHOLD * 24) 24
  = Raise (Exn OverflowError (u "integer division result too large for a float")).
Proof. repeat split; vm_compute; reflexivity. Qed.

(** [int] reads 4300 digits and refuses 4301, leading zeros counted. *)
Example int_digit_limit :
  int Ascii_tables.tables (repeat 48%N 4299 ++ u "7") = Ok 7%Z /\
  int Ascii_tables.tables (repeat 48%N 4300 ++ u "7")
  = Raise (Exn ValueError
             (u "Exceeds the limit (4300 digits) for integer string conversion: value has 4301 digits; use sys.set_int_max_str_digits() to increase the limit")).
Proof. split; vm_compute; reflexivity. Qed.

(** [round] on floats: half-way cases go to the even integer, an infinity
    and a NaN raise. *)
Example round_float_cases :
  round_float (float_literal 5 (-1)) = Ok 2%Z /\
  round_float (float_literal 7 (-1)) = Ok 4%Z /\
  round_float (float_literal (-1) (-1)) = Ok 0%Z /\
  round_float (S754_infinity false)
  = Raise (Exn OverflowError (u "cannot convert float infinity to integer")) /\
  round_float S754_nan
  = Raise (Exn ValueError (u "cannot convert float NaN to integer")).
Proof. repeat split; vm_compute; reflexivity. Qed.

Example py_round_ties_to_even :
  map py_round [1 # 2; 3 # 2; 5 # 2; - (1 # 2); - (3 # 2); 7 # 4; 216000]
  = [0; 2; 2; 0; -2; 2; 216000]%Z.
Proof. vm_compute. reflexivity. Qed.

(** No link was processed and the page says when links are refreshed. *)
Example nothing_to_renew_not_refreshed :
  nothing_to_renew (fun s => s) (@nil unit)
    (u "<p>Links update every 24 hours</p>")
  = LINKS_NOT_REFRESHED.
Proof. vm_compute. reflexivity. Qed.

(** *** Loading the accounts *)

Lemma re_split_not_nil (sep : char -> bool) (s : str) : re_split sep s <> [].
Proof.
  destruct s as [|c s]; cbn [re_split]; [discriminate|].
  destruct (sep c); [discriminate|].
  destruct (re_split sep s); discriminate.
Qed.

Lemma re_split_app (sep : char -> bool) (a b : str) (c : char) :
  sep c = true ->
  re_split sep (a ++ c :: b) = re_split sep a ++ re_split sep b.
Proof.
  intros Hc. induction a as [|x a IH]; cbn [app re_split].
  - rewrite Hc. reflexivity.
  - rewrite IH. destruct (sep x); [reflexivity|].
    destruct (re_split sep a) as [|p ps] eqn:E; [|reflexivity].
    exfalso. exact (re_split_not_nil sep a E).
Qed.

Lemma re_split_no_separator (sep : char -> bool) (s : str) :
  forallb (fun c => negb (sep c)) s = true -> re_split sep s = [s].
Proof.
  induction s as [|c s IH]; cbn [forallb re_split]; [reflexivity|].
  intros H. apply andb_true_iff in H. destruct H as [Hc Hs].
  apply negb_true_iff in Hc. rewrite Hc, (IH Hs). reflexivity.
Qed.

Lemma add_pair_appends (acc : list account) (pair : str) :
  add_pair acc pair = acc ++ add_pair [] pair.
Proof.
  unfold add_pair. destruct (split_once COLON pair) as [[e p]|].
  - destruct (negb (is_empty (strip e)) && negb (is_empty (strip p)));
      [reflexivity|rewrite app_nil_r; reflexivity].
  - rewrite app_nil_r. reflexivity.
Qed.

Lemma fold_add_pair (pairs : list str) : forall acc,
  fold_left add_pair pairs acc = acc ++ fold_left add_pair pairs [].
Proof.
  induction pairs as [|p pairs IH]; intros acc; cbn [fold_left].
  - rewrite app_nil_r. reflexivity.
  - rewrite (IH (add_pair acc p)), (IH (add_pair [] p)), (add_pair_appends acc p).
    rewrite app_assoc. reflexivity.
Qed.

Lemma lstrip_head (c : char) (s : str) :
  py_isspace c = false -> lstrip (c :: s) = c :: s.
Proof. intros H. cbn [lstrip]. rewrite H. reflexivity. Qed.

Lemma rev_last (s : str) (d : char) :
  s <> [] -> rev s = last s d :: rev (removelast s).
Proof.
  intros H. rewrite (app_removelast_last d H) at 1.
  rewrite rev_app_distr. reflexivity.
Qed.

Lemma strip_trimmed (s : str) : trimmed s = true -> strip s = s.
Proof.
  destruct s as [|c s]; [discriminate|]. unfold trimmed. intros H.
  apply andb_true_iff in H. destruct H as [Hc Hl].
  apply negb_true_iff in Hc. apply negb_true_iff in Hl.
  unfold strip. rewrite (lstrip_head c s Hc).
  rewrite (rev_last (c :: s) c) by discriminate.
  rewrite (lstrip_head _ _ Hl).
  rewrite <- (rev_last (c :: s) c) by discriminate.
  apply rev_involutive.
Qed.

Lemma trimmed_not_empty (s : str) : trimmed s = true -> is_empty s = false.
Proof. destruct s; [discriminate|reflexivity]. Qed.

Lemma last_cons_indep (b : str) : forall (y d d' : char),
  last (y :: b) d = last (y :: b) d'.
Proof.
  induction b as [|z b IH]; intros y d d'; [reflexivity|].
  change (last (z :: b) d = last (z :: b) d'). apply IH.
Qed.

Lemma last_app_cons (a b : str) (y d d' : char) :
  last (a ++ y :: b) d = last (y :: b) d'.
Proof.
  induction a as [|x a IH]; cbn [app]; [apply last_cons_indep|].
  destruct (a ++ y :: b) as [|z l] eqn:E.
  - destruct a; discriminate E.
  - change (last (z :: l) d = last (y :: b) d'). exact IH.
Qed.

Lemma trimmed_app (a b : str) (c : char) :
  trimmed a = true -> trimmed b = true -> trimmed (a ++ c :: b) = true.
Proof.
  destruct a as [|x a]; [discriminate|]. destruct b as [|y b]; [discriminate|].
  unfold trimmed. intros Ha Hb.
  apply andb_true_iff in Ha. destruct Ha as [Hx _].
  apply andb_true_iff in Hb. destruct Hb as [_ Hl].
  cbn [app]. rewrite Hx. cbn [andb].
  change (x :: a ++ c :: y :: b) with ((x :: a) ++ c :: y :: b).
  rewrite (last_app_cons (x :: a) (y :: b) c x y).
  change (last (c :: y :: b) y) with (last (y :: b) y). exact Hl.
Qed.

Lemma account_pairs_app (a b : str) (c : char) :
  is_separator c = true ->
  account_pairs (a ++ c :: b) = account_pairs a ++ account_pairs b.
Proof.
  intros Hc. unfold account_pairs.
  rewrite (re_split_app is_separator a b c Hc), filter_app, map_app.
  reflexivity.
Qed.

Lemma parse_accounts_sep (a b : str) (c : char) :
  is_separator c = true ->
  parse_accounts (a ++ c :: b) = parse_accounts a ++ parse_accounts b.
Proof.
  intros Hc. unfold parse_accounts.
  rewrite (account_pairs_app a b c Hc), fold_left_app.
  apply fold_add_pair.
Qed.

(** X1.  Accounts of a multi-account string are read one by one: the accounts
    of [a], a separator, [b] are the accounts of [a] followed by those of
    [b].  A piece without a colon or with an empty side adds nothing and does
    not disturb its neighbours. *)
Theorem parse_accounts_app (a b : str) (c : char) :
  is_separator c = true ->
  parse_accounts (a ++ c :: b) = parse_accounts a ++ parse_accounts b.
Proof. exact (parse_accounts_sep a b c). Qed.

Lemma parse_accounts_app_witness :
  is_separator SEMICOLON = true /\
  parse_accounts (u "a@x.io:pw1 , no-colon" ++ SEMICOLON :: u " b@y.io : p:w2 ")
  = parse_accounts (u "a@x.io:pw1 , no-colon") ++ parse_accounts (u " b@y.io : p:w2 ") /\
  parse_accounts (u "a@x.io:pw1 , no-colon") = [Account (u "a@x.io") (u "pw1")] /\
  parse_accounts (u " b@y.io : p:w2 ") = [Account (u "b@y.io") (u "p:w2")].
Proof.
  split; [reflexivity|]. split.
  - exact (parse_accounts_app (u "a@x.io:pw1 , no-colon") (u " b@y.io : p:w2 ")
             SEMICOLON eq_refl).
  - split; vm_compute; reflexivity.
Defined.

Lemma forallb_not_in (c : char) (s : str) :
  forallb (fun x => negb (char_eqb x c)) s = true -> ~ In c s.
Proof.
  induction s as [|x s IH]; cbn [forallb]; intros H Hin; [exact Hin|].
  apply andb_true_iff in H. destruct H as [Hx Hs].
  destruct Hin as [->|Hin]; [|exact (IH Hs Hin)].
  unfold char_eqb in Hx. rewrite N.eqb_refl in Hx. discriminate.
Qed.

Lemma plain_field_app (a b : str) :
  forallb (fun c => negb (is_separator c)) a = true ->
  forallb (fun c => negb (is_separator c)) b = true ->
  forallb (fun c => negb (is_separator c)) (a ++ COLON :: b) = true.
Proof.
  intros Ha Hb. rewrite forallb_app, Ha. cbn [forallb andb].
  rewrite Hb. reflexivity.
Qed.

(** One plain account, written as [email:password], is read back. *)
Lemma parse_pair_text (a : account) :
  plain_account a = true -> parse_accounts (pair_text a) = [a].
Proof.
  destruct a as [e p]. unfold plain_account, plain_field. cbn [email password].
  intros H. apply andb_true_iff in H. destruct H as [H Hp].
  apply andb_true_iff in H. destruct H as [He Hcolon].
  apply andb_true_iff in He. destruct He as [Het Hes].
  apply andb_true_iff in Hp. destruct Hp as [Hpt Hps].
  unfold parse_accounts, account_pairs, pair_text. cbn [email password].
  rewrite (re_split_no_separator is_separator _ (plain_field_app e p Hes Hps)).
  cbn [filter]. rewrite (strip_trimmed _ (trimmed_app e p COLON Het Hpt)).
  rewrite (trimmed_not_empty _ (trimmed_app e p COLON Het Hpt)).
  cbn [negb map fold_left]. unfold add_pair.
  rewrite (strip_trimmed _ (trimmed_app e p COLON Het Hpt)).
  rewrite (split_once_app COLON e p (forallb_not_in COLON e Hcolon)).
  rewrite (strip_trimmed e Het), (strip_trimmed p Hpt).
  rewrite (trimmed_not_empty e Het), (trimmed_not_empty p Hpt).
  reflexivity.
Qed.

Lemma plain_account_text_trimmed (a : account) :
  plain_account a = true -> trimmed (pair_text a) = true.
Proof.
  destruct a as [e p]. unfold plain_account, plain_field, pair_text.
  cbn [email password]. intros H.
  apply andb_true_iff in H. destruct H as [H Hp].
  apply andb_true_iff in H. destruct H as [He _].
  apply andb_true_iff in He. destruct He as [Het _].
  apply andb_true_iff in Hp. destruct Hp as [Hpt _].
  exact (trimmed_app e p COLON Het Hpt).
Qed.

Lemma accounts_text_cons (a b : account) (rest : list account) :
  accounts_text (a :: b :: rest) = pair_text a ++ COMMA :: accounts_text (b :: rest).
Proof. reflexivity. Qed.

Lemma accounts_text_read (accs : list account) :
  accs <> [] -> forallb plain_account accs = true ->
  parse_accounts (accounts_text accs) = accs /\ trimmed (accounts_text accs) = true.
Proof.
  induction accs as [|a rest IH]; intros Hne H; [congruence|].
  cbn [forallb] in H. apply andb_true_iff in H. destruct H as [Ha Hrest].
  destruct rest as [|b rest].
  - unfold accounts_text. cbn [map join].
    split; [exact (parse_pair_text a Ha)|exact (plain_account_text_trimmed a Ha)].
  - destruct (IH ltac:(discriminate) Hrest) as [IHp IHt].
    rewrite accounts_text_cons. split.
    + rewrite (parse_accounts_sep _ _ COMMA eq_refl), (parse_pair_text a Ha), IHp.
      reflexivity.
    + exact (trimmed_app _ _ COMMA (plain_account_text_trimmed a Ha) IHt).
Qed.

(** X2.  Writing accounts as [email1:password1,email2:password2,...] in
    PELLA_ACCOUNTS and loading them gives the same accounts back in the same
    order, when there is at least one and every field is non-empty, has no
    blank at either end and no [,] or [;], and no e-mail has a colon (a
    password may). *)
Theorem load_accounts_round_trip (env : environ) (accs : list account) :
  accs <> [] ->
  forallb plain_account accs = true ->
  env "PELLA_ACCOUNTS"%string = Some (accounts_text accs) ->
  load_accounts env = Ok accs.
Proof.
  intros Hne Hplain Henv.
  destruct (accounts_text_read accs Hne Hplain) as [Hp Ht].
  unfold load_accounts, getenv. rewrite Henv.
  rewrite (strip_trimmed _ Ht), (trimmed_not_empty _ Ht), Hp.
  cbn [negb]. destruct accs; [congruence|reflexivity].
Qed.

Lemma load_accounts_round_trip_witness :
  let accs := [Account (u "alice@example.com") (u "s3cret:with:colons");
               Account (u "bob@example.com") (u "pass word")] in
  let env : environ := fun key =>
    if String.eqb key "PELLA_ACCOUNTS" then Some (accounts_text accs) else None in
  accs <> [] /\ forallb plain_account accs = true /\
  accounts_text accs
  = u "alice@example.com:s3cret:with:colons,bob@example.com:pass word" /\
  load_accounts env = Ok accs.
Proof.
  intros accs env.
  assert (Hne : accs <> []) by discriminate.
  assert (Hp : forallb plain_account accs = true) by (vm_compute; reflexivity).
  split; [exact Hne|]. split; [exact Hp|]. split; [vm_compute; reflexivity|].
  exact (load_accounts_round_trip env accs Hne Hp eq_refl).
Defined.

Lemma lstrip_suffix (s : str) : exists pre, s = pre ++ lstrip s.
Proof.
  induction s as [|c s [pre IH]]; [exists []; reflexivity|].
  cbn [lstrip]. destruct (py_isspace c).
  - exists (c :: pre). cbn [app]. rewrite <- IH. reflexivity.
  - exists []. reflexivity.
Qed.

Lemma lstrip_head_not_space (s : str) (c : char) (t : str) :
  lstrip s = c :: t -> py_isspace c = false.
Proof.
  induction s as [|x s IH]; cbn [lstrip]; [discriminate|].
  destruct (py_isspace x) eqn:E; [exact IH|].
  intros H. injection H as <- _. exact E.
Qed.

(** What [strip] returns is empty or has no blank at either end. *)
Lemma strip_is_trimmed (s : str) :
  is_empty (strip s) = false -> trimmed (strip s) = true.
Proof.
  unfold strip. set (t := lstrip s).
  destruct (lstrip (rev t)) as [|c r] eqn:Hr; [discriminate|]. intros _.
  pose proof (lstrip_head_not_space _ _ _ Hr) as Hc.
  destruct (lstrip_suffix (rev t)) as [pre Hpre]. rewrite Hr in Hpre.
  assert (Ht : t = rev (c :: r) ++ rev pre).
  { rewrite <- rev_app_distr, <- Hpre, rev_involutive. reflexivity. }
  destruct (rev (c :: r)) as [|h x] eqn:Hx.
  - cbn [rev] in Hx. destruct (rev r); discriminate Hx.
  - unfold trimmed.
    assert (Hh : py_isspace h = false).
    { apply (lstrip_head_not_space s h (x ++ rev pre)). fold t. rewrite Ht.
      reflexivity. }
    rewrite Hh. cbn [negb andb].
    rewrite <- Hx. cbn [rev]. rewrite last_last, Hc. reflexivity.
Qed.

Lemma add_pair_trimmed (acc : list account) (pair : str) :
  forallb trimmed_account acc = true ->
  forallb trimmed_account (add_pair acc pair) = true.
Proof.
  intros H. unfold add_pair.
  destruct (split_once COLON pair) as [[e p]|]; [|exact H].
  destruct (is_empty (strip e)) eqn:He; [exact H|].
  destruct (is_empty (strip p)) eqn:Hp; [exact H|].
  cbn [negb andb]. rewrite forallb_app, H. cbn [forallb andb].
  unfold trimmed_account. cbn [email password].
  rewrite (strip_is_trimmed e He), (strip_is_trimmed p Hp). reflexivity.
Qed.

Lemma fold_add_pair_trimmed (pairs : list str) : forall acc,
  forallb trimmed_account acc = true ->
  forallb trimmed_account (fold_left add_pair pairs acc) = true.
Proof.
  induction pairs as [|p pairs IH]; intros acc H; [exact H|].
  cbn [fold_left]. apply IH. apply add_pair_trimmed. exact H.
Qed.

(** X3.  Every account [load_accounts] returns has an e-mail and a password
    that are not empty and have no blank at either end, and there is at
    least one account; so the constructor of [PellaAutoRenew] never refuses
    a loaded account for an empty field: it goes straight to [setup_driver]. *)
Theorem load_accounts_fields (env : environ) (accs : list account) :
  load_accounts env = Ok accs ->
  accs <> [] /\
  forallb trimmed_account accs = true /\
  (forall (world : Type) (setup_driver : M world unit) (a : account),
      In a accs -> init setup_driver a = setup_driver).
Proof.
  intros H.
  assert (Ht : accs <> [] /\ forallb trimmed_account accs = true).
  { unfold load_accounts in H.
    set (multi := if negb (is_empty _) then parse_accounts _ else []) in H.
    assert (Hm : forallb trimmed_account multi = true).
    { unfold multi. destruct (negb (is_empty _)); [|reflexivity].
      apply fold_add_pair_trimmed. reflexivity. }
    destruct multi as [|a rest].
    - set (e := strip (getenv env "PELLA_EMAIL" _)) in H.
      set (p := strip (getenv env "PELLA_PASSWORD" _)) in H.
      destruct (is_empty e) eqn:He; [discriminate|].
      destruct (is_empty p) eqn:Hp; [discriminate|].
      cbn [negb andb app] in H. injection H as <-.
      split; [discriminate|]. cbn [forallb]. unfold trimmed_account.
      cbn [email password]. unfold e, p.
      rewrite (strip_is_trimmed _ He), (strip_is_trimmed _ Hp). reflexivity.
    - injection H as <-. split; [discriminate|exact Hm]. }
  destruct Ht as [Hne Hall]. split; [exact Hne|]. split; [exact Hall|].
  intros world setup_driver a Hin. unfold init.
  rewrite forallb_forall in Hall. specialize (Hall a Hin).
  unfold trimmed_account in Hall. apply andb_true_iff in Hall.
  destruct Hall as [He Hp].
  rewrite (trimmed_not_empty _ He), (trimmed_not_empty _ Hp). reflexivity.
Qed.

Lemma load_accounts_fields_witness :
  let env : environ := fun key =>
    if String.eqb key "LEAFLOW_ACCOUNTS" then Some (u " a@x.io : pw ;; :x, b@y.io:q ")
    else None in
  let accs := [Account (u "a@x.io") (u "pw"); Account (u "b@y.io") (u "q")] in
  load_accounts env = Ok accs /\
  accs <> [] /\ forallb trimmed_account accs = true.
Proof.
  intros env accs.
  assert (H : load_accounts env = Ok accs) by (vm_compute; reflexivity).
  split; [exact H|].
  destruct (load_accounts_fields env accs H) as (Hne & Hall & _).
  split; assumption.
Defined.

(** X4.  A PELLA_ACCOUNTS that is set but blank hides LEAFLOW_ACCOUNTS:
    [os.getenv] takes the fallback only for a variable that is not set, so
    the accounts listed in LEAFLOW_ACCOUNTS are not read and the result is
    the one of the single-account variables. *)
Theorem load_accounts_blank_hides_fallback (env : environ) (v : str) :
  env "PELLA_ACCOUNTS"%string = Some v ->
  is_empty (strip v) = true ->
  load_accounts env = single_account env.
Proof.
  intros Hv Hb. unfold load_accounts, single_account, getenv.
  rewrite Hv, Hb. reflexivity.
Qed.

Lemma load_accounts_blank_hides_fallback_witness :
  let env : environ := fun key =>
    if String.eqb key "PELLA_ACCOUNTS" then Some (u "  ")
    else if String.eqb key "LEAFLOW_ACCOUNTS" then Some (u "a@x.io:pw")
    else None in
  env "PELLA_ACCOUNTS"%string = Some (u "  ") /\
  is_empty (strip (u "  ")) = true /\
  load_accounts env = Raise (Exn ValueError NO_ACCOUNT_CONFIGURED).
Proof.
  intros env. split; [reflexivity|]. split; [reflexivity|].
  rewrite (load_accounts_blank_hides_fallback env (u "  ") eq_refl eq_refl).
  vm_compute. reflexivity.
Defined.

Lemma count_if_all (test : outcome -> bool) (results : list outcome) :
  Z.eqb (count_if test results) (Z.of_nat (length results)) = forallb test results.
Proof.
  unfold count_if.
  assert (B : forall l : list outcome, (length (filter test l) <= length l)%nat).
  { induction l as [|o l IH]; cbn [filter length]; [lia|].
    destruct (test o); cbn [length]; lia. }
  induction results as [|o results IH]; [reflexivity|].
  cbn [filter forallb length]. destruct (test o); cbn [length andb].
  - rewrite <- IH. destruct (Z.eqb_spec (Z.of_nat (length (filter test results)))
                                          (Z.of_nat (length results)));
      [apply Z.eqb_eq|apply Z.eqb_neq]; lia.
  - apply Z.eqb_neq. specialize (B results). lia.
Qed.

Section Batch_status.

Context {world element : Type}.
Variable D : webdriver world element.
Variable setup_driver : M world unit.
Variable login_form : account -> M world unit.
Variable get_server_url : M world bool.
Variable renew_server : M world str.
Variable telegram_configured : bool.
Variable post_message : str -> world -> world.

(** X5.  The flag [run_all] returns with the report is true exactly when
    every entry of the report is a success, and the report is as long as the
    list of accounts. *)
Theorem run_all_overall_flag (accounts : list account) (s : session world)
    (overall : bool) (results : list outcome) (s' : session world) :
  run_all D setup_driver login_form get_server_url renew_server
    telegram_configured post_message accounts s = (Ok (overall, results), s') ->
  overall = forallb outcome_success results /\
  length results = length accounts.
Proof.
  destruct (for_accounts_appends D setup_driver login_form get_server_url
              renew_server accounts [] s) as (added & s1 & _ & Hl & Hm).
  destruct (send_notification_returns telegram_configured post_message added s1)
    as (s2 & Hs).
  unfold run_all. unfold bind at 1. rewrite Hl.
  unfold bind at 1. rewrite Hs. unfold ret. intros H.
  injection H as <- <- _.
  assert (Hlen : length added = length accounts).
  { rewrite <- (length_map outcome_email added), Hm. apply length_map. }
  split; [|exact Hlen].
  rewrite <- Hlen.
  rewrite <- (count_if_all outcome_success added).
  unfold count_if. f_equal. f_equal. f_equal.
  apply filter_ext. intros [[e ok] r]. reflexivity.
Qed.

(** X6.  [main] ends the process with status 1 exactly when no account can
    be loaded; once accounts are loaded the status is 0 whatever the outcomes
    of the accounts are, also when every one of them failed. *)
Theorem main_exit_status (env : environ) (s : session world) :
  exists s',
    main D setup_driver login_form get_server_url renew_server post_message env s
    = (Ok (match load_accounts env with Ok _ => 0 | Raise _ => 1 end)%Z, s').
Proof.
  unfold main, new_manager.
  destruct (load_accounts env) as [accs|e]; cbn [rbind].
  - cbn [accounts].
    set (configured := has_telegram _).
    destruct (for_accounts_appends D setup_driver login_form get_server_url
                renew_server accs [] s) as (added & s1 & _ & Hl & _).
    destruct (run_all_results D setup_driver login_form get_server_url
                renew_server configured post_message accs s added s1 Hl)
      as (overall & s' & Hr).
    exists s'. unfold try_except. unfold bind at 1. rewrite Hr.
    cbn [fst]. destruct overall; reflexivity.
  - exists s. reflexivity.
Qed.

End Batch_status.

Lemma run_all_overall_flag_witness :
  let mixed := [Demo_batch.first; Demo_batch.rejected; Demo_batch.last] in
  exists results s',
    Demo_batch.run_all mixed = (Ok (false, results), s') /\
    false = forallb outcome_success results /\
    length results = length mixed.
Proof.
  intros mixed.
  set (r := Demo_batch.run_all mixed).
  assert (H : r = (Ok (false, snd (match fst r with Ok x => x | Raise _ => (false, []) end)), snd r))
    by (vm_compute; reflexivity).
  eexists. eexists. split; [exact H|].
  exact (run_all_overall_flag Demo.driver Demo_batch.setup_driver
           Demo_batch.login_form Demo_batch.get_server_url Demo_batch.renew_server
           false (fun _ w => w) mixed (Session Demo_batch.world0 []) _ _ _ H).
Defined.

(** *** What the locator chain and the login never do *)

(** X7.  Only [TimeoutException] makes the chain go on: when the candidates
    [before] time out and the wait for the next candidate raises anything
    else, the chain raises that exception at once and tries no later
    candidate. *)
Theorem find_element_other_exception {world element} (D : webdriver world element)
    (before after : list locator) (c : locator) (timeout : Z)
    (s : session world) (w1 : world) (e : exn) (w2 : world) :
  all_time_out D before timeout (browser s) = Some w1 ->
  until_element D (presence_of_element_located c) timeout w1 = (Raise e, w2) ->
  is_timeout e = false ->
  find_element_with_multiple_selectors D (before ++ c :: after) timeout s
  = (Raise e, Session w2 (waits s ++ presence_waits (before ++ [c]) timeout)).
Proof.
  revert s. induction before as [|l before IH]; intros s H Hu Ht.
  - cbn [all_time_out] in H. injection H as <-.
    cbn [app find_element_with_multiple_selectors].
    unfold try_except, bind, wait_element, except_timeout.
    rewrite Hu, Ht. reflexivity.
  - cbn [all_time_out] in H.
    destruct (until_element D (presence_of_element_located l) timeout (browser s))
      as [[el|e0] w'] eqn:Hl; [discriminate|].
    destruct (is_timeout e0) eqn:Ht0; [|discriminate].
    cbn [app].
    rewrite (find_element_cons_timeout D l _ timeout s e0 w' Hl Ht0).
    rewrite (IH (Session w' (waits s ++ [Wait_element (presence_of_element_located l) timeout]))
               H Hu Ht).
    cbn [waits presence_waits map app]. rewrite <- app_assoc. reflexivity.
Qed.

Lemma find_element_other_exception_witness :
  let broken : webdriver Demo.world Demo.element :=
    Build_webdriver Demo.world Demo.element
      (fun c timeout w =>
         match c with
         | presence_of_element_located (XPATH, _) =>
           (Raise (Exn WebDriverException (u "invalid selector")), w)
         | _ => Demo.poll_element c timeout w
         end)
      Demo.poll_url
      (current_url Demo.driver) (is_displayed Demo.driver) (text Demo.driver)
      (save_debug_info Demo.driver) (quit Demo.driver) in
  let w := Demo.World LOGIN_URL [((CSS_SELECTOR, u "b"), Demo.Element true [])] 0 in
  let w1 := Demo.World LOGIN_URL [((CSS_SELECTOR, u "b"), Demo.Element true [])] 5 in
  find_element_with_multiple_selectors broken
    [(CSS_SELECTOR, u "a"); (XPATH, u "//a"); (CSS_SELECTOR, u "b")] 5 (Session w [])
  = (Raise (Exn WebDriverException (u "invalid selector")),
     Session w1 [Wait_element (presence_of_element_located (CSS_SELECTOR, u "a")) 5;
                 Wait_element (presence_of_element_located (XPATH, u "//a")) 5]).
Proof.
  intros broken w w1.
  assert (H : all_time_out broken [(CSS_SELECTOR, u "a")] 5 (browser (Session w []))
              = Some w1) by (vm_compute; reflexivity).
  exact (find_element_other_exception broken [(CSS_SELECTOR, u "a")]
           [(CSS_SELECTOR, u "b")] (XPATH, u "//a") 5 (Session w []) w1
           (Exn WebDriverException (u "invalid selector")) w1 H eq_refl eq_refl).
Defined.

(** X8.  The look for an error message after a login that timed out lets
    one kind of exception out: one whose text contains "登录失败".  Whatever
    else is raised while the page is searched or the element is read is
    dropped, and the look returns normally. *)
Theorem check_error_message_raises_login_failed {world element}
    (D : webdriver world element) (s : session world) (e : exn)
    (s' : session world) :
  check_error_message D s = (Raise e, s') ->
  contains (str_of_exn e) LOGIN_FAILED = true.
Proof.
  unfold check_error_message, try_except.
  destruct (bind (find_element_with_multiple_selectors D error_selectors 2) _ s)
    as [[[]|e0] s0]; [discriminate|].
  unfold except_exception.
  destruct (contains (str_of_exn e0) LOGIN_FAILED) eqn:Hc.
  - unfold raise. intros H. injection H as <- _. exact Hc.
  - unfold ret. discriminate.
Qed.

Lemma check_error_message_raises_login_failed_witness :
  let alert := Demo.Element true (u "  Password is incorrect ") in
  let w := Demo.World LOGIN_URL [((CSS_SELECTOR, u "[role='alert']"), alert)] 0 in
  let e := Exn Exception (u "❌ 登录失败: Password is incorrect") in
  fst (check_error_message Demo.driver (Session w [])) = Raise e /\
  contains (str_of_exn e) LOGIN_FAILED = true.
Proof.
  intros alert w e.
  set (r := check_error_message Demo.driver (Session w [])).
  assert (H : r = (Raise e, snd r)) by (vm_compute; reflexivity).
  split; [rewrite H; reflexivity|].
  exact (check_error_message_raises_login_failed Demo.driver (Session w []) e
           (snd r) H).
Defined.

(** *** [login], [get_server_url] and [run] together *)

Lemma startswith_prefix (p x : str) : startswith (p ++ x) p = true.
Proof.
  induction p as [|c p IH]; [destruct x; reflexivity|].
  cbn [app startswith]. unfold char_eqb. rewrite N.eqb_refl. exact IH.
Qed.

(** What the login does after a timeout returns [True] or raises. *)
Lemma login_timed_out_true {world element} (D : webdriver world element)
    (s : session world) (b : bool) (s' : session world) :
  login_timed_out D s = (Ok b, s') -> b = true.
Proof.
  unfold login_timed_out. unfold bind at 1. unfold debug at 1.
  unfold bind at 1.
  destruct (check_error_message D _) as [[[]|e2] s2]; [|discriminate].
  unfold bind at 1. unfold call at 1.
  destruct (current_url D (browser s2)) as [[url|e3] w3]; [|discriminate].
  destruct (contains url (u "accounts.google.com")); [discriminate|].
  destruct (contains url (u "login")); [discriminate|].
  unfold ret. intros H. injection H as <- _. reflexivity.
Qed.

(** The last step of the login returns [True] or raises. *)
Lemma wait_for_login_true {world element} (D : webdriver world element)
    (s : session world) (b : bool) (s' : session world) :
  wait_for_login D s = (Ok b, s') -> b = true.
Proof.
  unfold wait_for_login, try_except. unfold bind at 1. unfold wait_url.
  destruct (until_url D (url_to_be HOME_URL) WAIT_TIME_AFTER_LOGIN (browser s))
    as [[[]|e0] w0].
  - unfold bind at 1. unfold call at 1. cbn [browser waits].
    destruct (current_url D w0) as [[url|e1] w1].
    + destruct (startswith url HOME_URL).
      * unfold bind, debug, ret. intros H. injection H as <- _. reflexivity.
      * unfold bind at 1. unfold call at 1. cbn [browser waits].
        destruct (current_url D w1) as [[url2|e2] w2].
        -- unfold raise, except_timeout. cbn [is_timeout exn_kind]. discriminate.
        -- unfold except_timeout. destruct (is_timeout e2); [|discriminate].
           apply login_timed_out_true.
    + unfold except_timeout. destruct (is_timeout e1); [|discriminate].
      apply login_timed_out_true.
  - unfold except_timeout. destruct (is_timeout e0); [|discriminate].
    apply login_timed_out_true.
Qed.

Lemma login_true {world element} (D : webdriver world element)
    (form : account -> M world unit) (a : account)
    (s : session world) (b : bool) (s' : session world) :
  login D form a s = (Ok b, s') -> b = true.
Proof.
  unfold login. unfold bind at 1.
  destruct (form a s) as [[[]|e] s1]; [|discriminate].
  apply wait_for_login_true.
Qed.

Lemma get_server_url_true {world element} (D : webdriver world element)
    (A : page_actions world element)
    (s : session world) (b : bool) (s' : session world) :
  get_server_url D A s = (Ok b, s') -> b = true.
Proof.
  unfold get_server_url. unfold bind at 1.
  destruct (find_server_url D A s) as [[url|e] s1]; [|discriminate].
  unfold ret. intros H. injection H as <- _. reflexivity.
Qed.

(** X9.  [login] and [get_server_url] return [True] or raise, never
    [False]: the results "❌ 登录失败" and "❌ 无法获取服务器URL" of [run]
    cannot occur.  Whenever [run] returns, it returns success with what
    [renew_server] returned, or failure with "❌ 自动续期失败: " followed by
    the text of the exception it caught. *)
Theorem run_results {world element} (D : webdriver world element)
    (A : page_actions world element) (form : account -> M world unit)
    (renew_server : M world str) (a : account)
    (s : session world) (success : bool) (result : str) (s' : session world) :
  run D form (get_server_url D A) renew_server a s = (Ok (success, result), s') ->
  (success = true /\
   exists s1 s2, renew_server s1 = (Ok result, s2)) \/
  (success = false /\ exists e, result = RUN_FAILED ++ str_of_exn e).
Proof.
  unfold run, try_finally, try_except.
  unfold bind at 1.
  destruct (login D form a s) as [[logged_in|e] s1] eqn:Hl.
  - pose proof (login_true D form a s logged_in s1 Hl) as ->.
    unfold bind at 1.
    destruct (get_server_url D A s1) as [[have_url|e] s2] eqn:Hg.
    + pose proof (get_server_url_true D A s1 have_url s2 Hg) as ->.
      unfold bind at 1.
      destruct (renew_server s2) as [[r|e] s3] eqn:Hr.
      * unfold ret. destruct (call (quit D) s3) as [[[]|e] s4]; [|discriminate].
        intros H. injection H as <- <- _. left. split; [reflexivity|].
        exists s2, s3. exact Hr.
      * unfold except_exception, bind, debug, ret.
        destruct (call (quit D) _) as [[[]|e'] s4]; [|discriminate].
        intros H. injection H as <- <- _. right. split; [reflexivity|].
        exists e. reflexivity.
    + unfold except_exception, bind, debug, ret.
      destruct (call (quit D) _) as [[[]|e'] s4]; [|discriminate].
      intros H. injection H as <- <- _. right. split; [reflexivity|].
      exists e. reflexivity.
  - unfold except_exception, bind, debug, ret.
    destruct (call (quit D) _) as [[[]|e'] s4]; [|discriminate].
    intros H. injection H as <- <- _. right. split; [reflexivity|].
    exists e. reflexivity.
Qed.

Lemma run_results_witness :
  let w := Demo.World LOGIN_URL [] 0 in
  let a := Account (u "alice@example.com") (u "secret") in
  let failed := RUN_FAILED ++ EMAIL_STEP_FAILED ++ NO_EMAIL_INPUT in
  exists s',
    run Demo.driver (login_form Demo.driver Demo_actions.actions)
      (get_server_url Demo.driver Demo_actions.actions) (ret NO_CLICKABLE_BUTTON)
      a (Session w [])
    = (Ok (false, failed), s') /\
    ((false = true /\
      exists s1 s2, @ret Demo.world str NO_CLICKABLE_BUTTON s1 = (Ok failed, s2)) \/
     (false = false /\ exists e, failed = RUN_FAILED ++ str_of_exn e)).
Proof.
  intros w a failed.
  set (r := run Demo.driver (login_form Demo.driver Demo_actions.actions)
              (get_server_url Demo.driver Demo_actions.actions)
              (ret NO_CLICKABLE_BUTTON) a (Session w [])).
  assert (H : r = (Ok (false, failed), snd r)) by (vm_compute; reflexivity).
  exists (snd r). split; [exact H|].
  exact (run_results Demo.driver Demo_actions.actions
           (login_form Demo.driver Demo_actions.actions) (ret NO_CLICKABLE_BUTTON)
           a (Session w []) false failed (snd r) H).
Defined.

(** A chain whose candidates all time out returns [None]. *)
Lemma find_element_exhausted {world element} (D : webdriver world element)
    (selectors : list locator) (timeout : Z) :
  forall (s : session world) (w : world),
  all_time_out D selectors timeout (browser s) = Some w ->
  find_element_with_multiple_selectors D selectors timeout s
  = (Ok None, Session w (waits s ++ presence_waits selectors timeout)).
Proof.
  induction selectors as [|l selectors IH]; intros s w H.
  - cbn [all_time_out] in H. injection H as <-. cbn. rewrite app_nil_r.
    destruct s. reflexivity.
  - cbn [all_time_out] in H.
    destruct (until_element D (presence_of_element_located l) timeout (browser s))
      as [[el|e] w'] eqn:Hu; [discriminate|].
    destruct (is_timeout e) eqn:Ht; [|discriminate].
    rewrite (find_element_cons_timeout D l selectors timeout s e w' Hu Ht).
    rewrite (IH (Session w' _) w H). cbn [waits presence_waits map].
    rewrite <- app_assoc. reflexivity.
Qed.

Lemma enter_email_missing {world element} (D : webdriver world element)
    (A : page_actions world element) (address : str)
    (s : session world) (w : world) :
  all_time_out D email_selectors 15 (browser s) = Some w ->
  enter_email D A address s
  = (Raise (Exn Exception (EMAIL_STEP_FAILED ++ NO_EMAIL_INPUT)),
     Session (save_debug_info D (u "error_email_input")
                (save_debug_info D (u "error_no_email_input") w))
             (waits s ++ presence_waits email_selectors 15)).
Proof.
  intros H. unfold enter_email, try_except. unfold bind at 1.
  rewrite (find_element_exhausted D email_selectors 15 s w H).
  reflexivity.
Qed.

(** X10.  When the login page opens and none of the four locators of the
    e-mail field resolves, [run] returns the failure
    "❌ 自动续期失败: ❌ 输入邮箱失败: ❌ 找不到邮箱输入框" after the
    captures error_no_email_input, error_email_input and error_final and
    [quit]: no later step touches the browser, the password is never typed,
    and the only waits started are the four of 15 seconds for the e-mail
    field. *)
Theorem run_reports_missing_email_field {world element}
    (D : webdriver world element) (A : page_actions world element)
    (server_url : M world bool) (renew_server : M world str) (a : account)
    (s : session world) (w0 w1 w2 : world) :
  get A LOGIN_URL (browser s) = (Ok tt, w0) ->
  all_time_out D email_selectors 15
    (save_debug_info D (u "step1_initial_page") w0) = Some w1 ->
  quit D (save_debug_info D (u "error_final")
            (save_debug_info D (u "error_email_input")
               (save_debug_info D (u "error_no_email_input") w1)))
  = (Ok tt, w2) ->
  run D (login_form D A) server_url renew_server a s
  = (Ok (false, RUN_FAILED ++ EMAIL_STEP_FAILED ++ NO_EMAIL_INPUT),
     Session w2 (waits s ++ presence_waits email_selectors 15)).
Proof.
  intros Hget Hchain Hquit.
  assert (Hform : login_form D A a s
                  = (Raise (Exn Exception (EMAIL_STEP_FAILED ++ NO_EMAIL_INPUT)),
                     Session (save_debug_info D (u "error_email_input")
                                (save_debug_info D (u "error_no_email_input") w1))
                             (waits s ++ presence_waits email_selectors 15))).
  { unfold login_form. unfold bind at 1. unfold call at 1. rewrite Hget.
    unfold bind at 1. unfold debug at 1. cbn [browser waits].
    unfold bind at 1.
    rewrite (enter_email_missing D A (email a) (Session _ (waits s)) w1 Hchain).
    reflexivity. }
  unfold run, try_finally, try_except. unfold bind at 1.
  unfold login. unfold bind at 1. rewrite Hform.
  unfold except_exception, bind, debug, ret, call. cbn [browser waits].
  rewrite Hquit. reflexivity.
Qed.

Lemma run_reports_missing_email_field_witness :
  let w := Demo.World (u "about:blank") [] 0 in
  let w0 := Demo.World LOGIN_URL [] 0 in
  let w1 := Demo.World LOGIN_URL [] 60 in
  get Demo_actions.actions LOGIN_URL w = (Ok tt, w0) /\
  all_time_out Demo.driver email_selectors 15 w0 = Some w1 /\
  run Demo.driver (login_form Demo.driver Demo_actions.actions)
    (get_server_url Demo.driver Demo_actions.actions) (ret NO_CLICKABLE_BUTTON)
    (Account (u "alice@example.com") (u "secret")) (Session w [])
  = (Ok (false, RUN_FAILED ++ EMAIL_STEP_FAILED ++ NO_EMAIL_INPUT),
     Session w1 ([] ++ presence_waits email_selectors 15)).
Proof.
  intros w w0 w1.
  assert (Hg : get Demo_actions.actions LOGIN_URL (browser (Session w []))
               = (Ok tt, w0)) by reflexivity.
  assert (Hc : all_time_out Demo.driver email_selectors 15
                 (save_debug_info Demo.driver (u "step1_initial_page") w0)
               = Some w1) by (vm_compute; reflexivity).
  split; [exact Hg|]. split; [exact Hc|].
  exact (run_reports_missing_email_field Demo.driver Demo_actions.actions
           (get_server_url Demo.driver Demo_actions.actions)
           (ret NO_CLICKABLE_BUTTON)
           (Account (u "alice@example.com") (u "secret")) (Session w [])
           w0 w1 w1 Hg Hc eq_refl).
Defined.




(** *** The wait for the login button *)

Lemma wait_until_enabled_S {world element} (A : page_actions world element)
    (fuel : nat) (btn : element) (elapsed : Q) :
  wait_until_enabled A (S fuel) btn elapsed
  = bind (call (is_enabled A btn)) (fun enabled =>
      if negb enabled && negb (Qle_bool MAX_WAIT_FOR_ENABLE elapsed) then
        wait_until_enabled A fuel btn (elapsed + WAIT_INTERVAL)
      else ret tt).
Proof. reflexivity. Qed.

Lemma wait_until_enabled_fuel {world element} (A : page_actions world element)
    (btn : element) :
  forall (fuel m : nat) (elapsed : Q) (s : session world),
  MAX_WAIT_FOR_ENABLE <= elapsed + inject_Z (Z.of_nat fuel) * WAIT_INTERVAL ->
  wait_until_enabled A (S fuel + m) btn elapsed s
  = wait_until_enabled A (S fuel) btn elapsed s.
Proof.
  induction fuel as [|fuel IH]; intros m elapsed s H.
  - change (1 + m)%nat with (S m). rewrite !wait_until_enabled_S.
    unfold bind. destruct (call (is_enabled A btn) s) as [[enabled|e] s1]; [|reflexivity].
    assert (Hle : Qle_bool MAX_WAIT_FOR_ENABLE elapsed = true).
    { apply Qle_bool_iff. change (inject_Z (Z.of_nat 0)) with 0 in H. lra. }
    rewrite Hle, andb_false_r. reflexivity.
  - change (S (S fuel) + m)%nat with (S (S fuel + m)).
    rewrite (wait_until_enabled_S A (S fuel + m)), (wait_until_enabled_S A (S fuel)).
    unfold bind. destruct (call (is_enabled A btn) s) as [[enabled|e] s1]; [|reflexivity].
    destruct (negb enabled && negb (Qle_bool MAX_WAIT_FOR_ENABLE elapsed));
      [|reflexivity].
    apply IH. rewrite Nat2Z.inj_succ in H. unfold Z.succ in H.
    rewrite inject_Z_plus in H. change (inject_Z 1) with 1 in H. lra.
Qed.

Lemma wait_until_enabled_never {world element} (A : page_actions world element)
    (btn : element) (tick : world -> world) :
  (forall w, is_enabled A btn w = (Ok false, tick w)) ->
  forall (fuel : nat) (elapsed : Q) (s : session world),
  elapsed + inject_Z (Z.of_nat fuel) * WAIT_INTERVAL == MAX_WAIT_FOR_ENABLE ->
  wait_until_enabled A (S fuel) btn elapsed s
  = (Ok tt, Session (Nat.iter (S fuel) tick (browser s)) (waits s)).
Proof.
  intros Hf. induction fuel as [|fuel IH]; intros elapsed s H.
  - rewrite wait_until_enabled_S. unfold bind, call. rewrite Hf.
    assert (Hle : Qle_bool MAX_WAIT_FOR_ENABLE elapsed = true).
    { apply Qle_bool_iff. change (inject_Z (Z.of_nat 0)) with 0 in H. lra. }
    rewrite Hle. reflexivity.
  - rewrite wait_until_enabled_S. unfold bind, call. rewrite Hf.
    assert (Hq : 0 <= inject_Z (Z.of_nat fuel)).
    { change 0 with (inject_Z 0). rewrite <- Zle_Qle. lia. }
    rewrite Nat2Z.inj_succ in H. unfold Z.succ in H.
    rewrite inject_Z_plus in H. change (inject_Z 1) with 1 in H.
    assert (Hle : Qle_bool MAX_WAIT_FOR_ENABLE elapsed = false).
    { destruct (Qle_bool MAX_WAIT_FOR_ENABLE elapsed) eqn:E; [|reflexivity].
      apply Qle_bool_iff in E. unfold MAX_WAIT_FOR_ENABLE, WAIT_INTERVAL in *. lra. }
    rewrite Hle. cbn [negb andb].
    rewrite IH by (cbn [browser waits]; lra).
    cbn [browser waits]. rewrite <- (Nat.iter_succ_r (S fuel)). reflexivity.
Qed.

(** X13.  A login button that never becomes enabled is read exactly 21 times
    (elapsed 0, 0.5, ..., 10) and the wait then returns normally: the step
    does not fail there, it goes on to click the disabled button. *)
Theorem wait_until_enabled_rounds {world element} (A : page_actions world element)
    (btn : element) (tick : world -> world) :
  (forall w, is_enabled A btn w = (Ok false, tick w)) ->
  forall (n : nat) (s : session world),
  wait_until_enabled A (ENABLE_ROUNDS + n) btn 0 s
  = (Ok tt, Session (Nat.iter 21 tick (browser s)) (waits s)).
Proof.
  intros Hf n s. change ENABLE_ROUNDS with (S 20).
  rewrite wait_until_enabled_fuel by (vm_compute; discriminate).
  apply (wait_until_enabled_never A btn tick Hf 20 0 s). reflexivity.
Qed.

(** X12.  The wait for the login button to become enabled ends after at most
    21 reads of [is_enabled], whatever the button and the page do: running
    the loop for more rounds than [ENABLE_ROUNDS] changes nothing. *)
Theorem wait_until_enabled_terminates {world element}
    (A : page_actions world element) (btn : element) (n : nat)
    (s : session world) :
  wait_until_enabled A (ENABLE_ROUNDS + n) btn 0 s
  = wait_until_enabled A ENABLE_ROUNDS btn 0 s.
Proof.
  change ENABLE_ROUNDS with (S 20).
  apply wait_until_enabled_fuel. vm_compute. discriminate.
Qed.

Lemma wait_until_enabled_rounds_witness :
  let btn := Demo.Element false [] in
  let s := Session (Demo.World LOGIN_URL [] 0) [] in
  (forall w, is_enabled Demo_actions.actions btn w = (Ok false, w)) /\
  wait_until_enabled Demo_actions.actions (ENABLE_ROUNDS + 0) btn 0 s = (Ok tt, s).
Proof.
  intros btn s.
  assert (Hf : forall w, is_enabled Demo_actions.actions btn w
                         = (Ok false, (fun w => w) w)) by reflexivity.
  split; [exact Hf|].
  exact (wait_until_enabled_rounds Demo_actions.actions btn (fun w => w) Hf 0%nat s).
Defined.

(** *** The page a renewal link opens *)

Lemma firstn_incl {A} (k : nat) (l : list A) (x : A) :
  In x (firstn k l) -> In x l.
Proof.
  intros H. rewrite <- (firstn_skipn k l). apply in_or_app. left. exact H.
Qed.

Lemma click_continue_waits {world element} (D : webdriver world element)
    (A : page_actions world element) :
  forall (selectors : list locator) (s : session world),
  exists (b : bool) (w : world) (k : nat),
    click_continue D A selectors s
    = (Ok b, Session w (waits s ++ clickable_waits (firstn k selectors) 5)) /\
    (k <= length selectors)%nat /\
    (b = false -> k = length selectors) /\
    (b = true -> (1 <= k)%nat).
Proof.
  induction selectors as [|sel rest IH]; intros s.
  - exists false, (browser s), 0%nat. cbn. rewrite app_nil_r. destruct s.
    split; [reflexivity|]. split; [lia|]. split; [reflexivity|discriminate].
  - cbn [click_continue].
    set (probe := try_except _ _).
    assert (Hp : exists b w,
               probe s = (Ok b, Session w (waits s
                            ++ [Wait_element (element_to_be_clickable sel) 5]))).
    { subst probe. unfold try_except, except_exception. unfold bind at 1.
      unfold wait_element.
      destruct (until_element D (element_to_be_clickable sel) 5 (browser s))
        as [[el|e] w1]; [|exists false, w1; reflexivity].
      unfold bind at 1. unfold call at 1. cbn [browser waits].
      destruct (is_displayed D el w1) as [[[]|e] w2];
        [|exists false, w2; reflexivity|exists false, w2; reflexivity].
      unfold bind, call. cbn [browser waits].
      destruct (execute_script A CLICK_SCRIPT [Element_argument el] w2)
        as [[[]|e] w3]; [exists true, w3|exists false, w3]; reflexivity. }
    destruct Hp as (b & w & Hp). unfold bind. rewrite Hp. destruct b.
    + exists true, w, 1%nat. cbn [firstn clickable_waits map length].
      split; [reflexivity|]. split; [lia|]. split; [discriminate|lia].
    + destruct (IH (Session w (waits s
                     ++ [Wait_element (element_to_be_clickable sel) 5])))
        as (b & w' & k & Hc & Hk & Hfalse & Htrue).
      exists b, w', (S k). rewrite Hc.
      cbn [browser waits firstn clickable_waits map length].
      rewrite <- app_assoc. split; [reflexivity|]. split; [lia|].
      split; [|lia]. intros Hb. rewrite (Hfalse Hb). reflexivity.
Qed.

(** X14.  The search for a button on the page a renewal link opened never
    raises, whatever the browser raises: every exception counts as "not this
    selector".  It starts at most 30 waits, each of 5 seconds for one of the
    ten selectors to be clickable, and at least one; it gives up exactly
    after three full rounds over the ten selectors. *)
Theorem pass_ad_page_waits {world element} (D : webdriver world element)
    (A : page_actions world element) (s : session world) :
  exists (continue_clicked : bool) (w : world) (ws : list wait),
    pass_ad_page D A MAX_ATTEMPTS s
    = (Ok continue_clicked, Session w (waits s ++ ws)) /\
    Forall (fun x => exists l, In l continue_selectors /\
                               x = Wait_element (element_to_be_clickable l) 5) ws /\
    (1 <= length ws <= 30)%nat /\
    (continue_clicked = false ->
     ws = concat (repeat (clickable_waits continue_selectors 5) 3)).
Proof.
  assert (Hlen : length continue_selectors = 10%nat) by reflexivity.
  assert (Hround : forall k,
             Forall (fun x => exists l, In l continue_selectors /\
                                x = Wait_element (element_to_be_clickable l) 5)
                    (clickable_waits (firstn k continue_selectors) 5)).
  { intros k. apply Forall_forall. intros x Hx. unfold clickable_waits in Hx.
    apply in_map_iff in Hx. destruct Hx as (l & <- & Hl).
    exists l. split; [exact (firstn_incl k _ l Hl)|reflexivity]. }
  assert (Hgen : forall n s,
             exists b w ws,
               pass_ad_page D A n s = (Ok b, Session w (waits s ++ ws)) /\
               Forall (fun x => exists l, In l continue_selectors /\
                                  x = Wait_element (element_to_be_clickable l) 5) ws /\
               (length ws <= n * 10)%nat /\
               (b = true -> (1 <= length ws)%nat) /\
               (b = false ->
                ws = concat (repeat (clickable_waits continue_selectors 5) n))).
  { clear s. induction n as [|n IH]; intros s.
    - exists false, (browser s), []. cbn. rewrite app_nil_r. destruct s.
      split; [reflexivity|]. split; [constructor|]. split; [lia|].
      split; [discriminate|reflexivity].
    - cbn [pass_ad_page]. unfold bind at 1.
      destruct (click_continue_waits D A continue_selectors s)
        as (b & w & k & Hc & Hk & Hfalse & Htrue).
      rewrite Hc. destruct b.
      + exists true, w, (clickable_waits (firstn k continue_selectors) 5).
        split; [reflexivity|]. split; [apply Hround|].
        unfold clickable_waits. rewrite length_map, length_firstn.
        specialize (Htrue eq_refl). split; [lia|]. split; [lia|discriminate].
      + rewrite (Hfalse eq_refl) in *. rewrite firstn_all in *.
        destruct (IH (Session w (waits s ++ clickable_waits continue_selectors 5)))
          as (b & w' & ws & Hp & Hall & Hn & Ht & Hf).
        exists b, w', (clickable_waits continue_selectors 5 ++ ws).
        rewrite Hp. cbn [browser waits]. rewrite <- app_assoc.
        split; [reflexivity|]. split.
        { apply Forall_app. split; [|exact Hall].
          rewrite <- (firstn_all continue_selectors). apply Hround. }
        rewrite length_app. unfold clickable_waits at 1 2.
        rewrite length_map, Hlen. split; [lia|]. split; [lia|].
        intros Hb. rewrite (Hf Hb). reflexivity. }
  destruct (Hgen MAX_ATTEMPTS s) as (b & w & ws & Hp & Hall & Hn & Ht & Hf).
  exists b, w, ws. split; [exact Hp|]. split; [exact Hall|]. split; [|exact Hf].
  split; [|exact Hn].
  destruct b; [exact (Ht eq_refl)|].
  rewrite (Hf eq_refl). cbn [repeat concat MAX_ATTEMPTS].
  rewrite !length_app. unfold clickable_waits. rewrite length_map, Hlen. lia.
Qed.

(** *** The delta of a successful renewal *)

Lemma float_value_not_negative (x : float) :
  float_not_negative x = true -> 0 <= float_value x.
Proof.
  destruct x as [s|s| |[|] m e]; try discriminate; intros _;
    cbn [float_value cond_Zopp]; try apply Qle_refl.
  apply Qmult_le_0_compat; [|apply Qpower_0_le; discriminate].
  change 0 with (inject_Z 0). rewrite <- Zle_Qle. lia.
Qed.

Lemma round_float_nonneg (x : float) (s : Z) :
  float_not_negative x = true -> round_float x = Ok s -> (0 <= s)%Z.
Proof.
  intros Hx H. destruct x as [sx|sx| |sx mx ex]; try discriminate H;
    cbn [round_float] in H; injection H as <-;
    apply py_round_nonneg; exact (float_value_not_negative _ Hx).
Qed.

(** The seconds of a delta are not negative when the final total is the
    greater. *)
Lemma added_seconds_nonneg (initial_value final_value : float) (s : Z) :
  valid_binary MANT_DIG MAX_EXP initial_value = true ->
  valid_binary MANT_DIG MAX_EXP final_value = true ->
  gt final_value initial_value = true ->
  added_seconds initial_value final_value = Ok s -> (0 <= s)%Z.
Proof.
  intros Vi Vf G H. unfold gt in G.
  destruct (SFcompare final_value initial_value) as [[| |]|] eqn:C;
    try discriminate G.
  pose proof (float_sub_nonneg final_value initial_value Vf Vi C) as N1.
  pose proof (float_mul_not_negative _ (nearest_float 24) N1 eq_refl) as N2.
  pose proof (float_mul_not_negative _ (nearest_float 3600) N2 eq_refl) as N3.
  exact (round_float_nonneg _ s N3 H).
Qed.

(** X15.  The delta shown after a successful renewal is the product
    [(final - initial) * 24 * 3600], computed in floats, rounded to the
    nearest whole second and cut to whole minutes: the hours are below 24 and
    the minutes below 60, days, hours and minutes together are at most the
    rounded seconds and less than a minute short of them, and the rounded
    seconds are within half a second of the float product.  Between two
    valid floats of which the final one is the greater, the seconds and the
    days are not negative. *)
Theorem added_string_parts (initial_value final_value : float) (s : Z) :
  added_seconds initial_value final_value = Ok s ->
  added_string initial_value final_value
  = Ok (str_of_int (added_days s) ++ u " 天 " ++ str_of_int (added_hours s)
        ++ u " 小时 " ++ str_of_int (added_minutes s) ++ u " 分钟") /\
  (0 <= added_hours s < 24)%Z /\
  (0 <= added_minutes s < 60)%Z /\
  (added_days s * 86400 + added_hours s * 3600 + added_minutes s * 60 <= s
   < added_days s * 86400 + added_hours s * 3600 + added_minutes s * 60 + 60)%Z /\
  (inject_Z s - (1 # 2)
   <= float_value
        (SFmul MANT_DIG MAX_EXP
           (SFmul MANT_DIG MAX_EXP
              (SFsub MANT_DIG MAX_EXP final_value initial_value) (nearest_float 24))
           (nearest_float 3600))) /\
  (float_value
     (SFmul MANT_DIG MAX_EXP
        (SFmul MANT_DIG MAX_EXP
           (SFsub MANT_DIG MAX_EXP final_value initial_value) (nearest_float 24))
        (nearest_float 3600))
   <= inject_Z s + (1 # 2)) /\
  (valid_binary MANT_DIG MAX_EXP initial_value = true ->
   valid_binary MANT_DIG MAX_EXP final_value = true ->
   gt final_value initial_value = true ->
   (0 <= s)%Z /\ (0 <= added_days s)%Z).
Proof.
  intros H.
  destruct (seconds_split s) as (Hh & Hm & Hshown & Hd).
  split; [unfold added_string; rewrite H; reflexivity|].
  split; [exact Hh|]. split; [exact Hm|]. split; [exact Hshown|].
  assert (Hs : s = py_round (float_value
                 (SFmul MANT_DIG MAX_EXP
                    (SFmul MANT_DIG MAX_EXP
                       (SFsub MANT_DIG MAX_EXP final_value initial_value)
                       (nearest_float 24))
                    (nearest_float 3600)))).
  { unfold added_seconds, float_mul, float_sub in H.
    destruct (SFmul MANT_DIG MAX_EXP _ (nearest_float 3600));
      try discriminate H; cbn [round_float] in H; injection H as <-; reflexivity. }
  split; [|split].
  - rewrite Hs. apply py_round_near.
  - rewrite Hs. apply py_round_near.
  - intros Vi Vf G.
    pose proof (added_seconds_nonneg initial_value final_value s Vi Vf G H) as P.
    split; [exact P|exact (Hd P)].
Qed.

Lemma added_string_parts_witness :
  let initial_value := float_literal 5 0 in
  let final_value := float_literal 15 (-1) in
  added_seconds initial_value final_value = Ok 216000%Z /\
  added_days 216000 = 2%Z /\ added_hours 216000 = 12%Z /\ added_minutes 216000 = 0%Z /\
  valid_binary MANT_DIG MAX_EXP initial_value = true /\
  valid_binary MANT_DIG MAX_EXP final_value = true /\
  gt final_value initial_value = true /\
  added_string initial_value final_value
  = Ok (str_of_int 2 ++ u " 天 " ++ str_of_int 12 ++ u " 小时 " ++ str_of_int 0
        ++ u " 分钟") /\
  (0 <= added_days 216000)%Z.
Proof.
  intros initial_value final_value.
  assert (H : added_seconds initial_value final_value = Ok 216000%Z)
    by (vm_compute; reflexivity).
  assert (Vi : valid_binary MANT_DIG MAX_EXP initial_value = true)
    by (vm_compute; reflexivity).
  assert (Vf : valid_binary MANT_DIG MAX_EXP final_value = true)
    by (vm_compute; reflexivity).
  assert (G : gt final_value initial_value = true) by (vm_compute; reflexivity).
  destruct (added_string_parts initial_value final_value 216000 H)
    as (Hstr & _ & _ & _ & _ & _ & Hpos).
  split; [exact H|].
  split; [reflexivity|]. split; [reflexivity|]. split; [reflexivity|].
  split; [exact Vi|]. split; [exact Vf|]. split; [exact G|].
  split; [exact Hstr|]. exact (proj2 (Hpos Vi Vf G)).
Defined.

(** *** [renew_server] around its loop *)

Section Renew_server_facts.

Variable T : re_tables.
Variable lower : str -> str.
Context {world element : Type}.
Variable D : webdriver world element.
Variable A : page_actions world element.
Variable page_source : world -> result str * world.
Variable renew_links : str -> M world nat.

Lemma renew_server_reads (server_url : option str) (s : session world)
    (w0 : world) (page : str) (w1 : world) :
  no_url server_url = false ->
  get A (url_of server_url) (browser s) = (Ok tt, w0) ->
  page_source (save_debug_info D (u "renew_start") w0) = (Ok page, w1) ->
  renew_server T lower D A page_source renew_links server_url s
  = match extract_expiry_days T page with
    | Ok initial =>
      (if float_eq (snd initial) UNPARSED
       then raise (Exn Exception NO_INITIAL_EXPIRY)
       else renew_links_and_report T lower D A page_source renew_links
              (url_of server_url) (fst initial) (snd initial))
        (Session w1 (waits s))
    | Raise e => (Raise e, Session w1 (waits s))
    end.
Proof.
  intros Hno Hget Hpage. unfold renew_server. rewrite Hno.
  unfold bind at 1. unfold call at 1. rewrite Hget.
  unfold bind at 1. unfold debug at 1. cbn [browser waits].
  unfold bind at 1. unfold call at 1. cbn [browser waits]. rewrite Hpage.
  unfold bind at 1. unfold lift at 1.
  destruct (extract_expiry_days T page); reflexivity.
Qed.

Lemma message_differs (a b : str) : hd 0%N a <> hd 0%N b -> a <> b.
Proof. intros H E. apply H. rewrite E. reflexivity. Qed.

Lemma report_results (url initial_details : str) (initial_value : float)
    (renewed_count : nat) (s : session world) (result : str) (s' : session world) :
  report T lower D A page_source url initial_details initial_value renewed_count s
  = (Ok result, s') ->
  result <> NOTHING_RENEWED /\
  (In result [LINKS_NOT_REFRESHED; NO_CLICKABLE_BUTTON; NO_BUTTON_AT_ALL;
              RENEW_DECREASED] \/
   (exists final_details added,
       result = renew_success initial_details final_details added) \/
   (exists final_details, result = renew_no_increase final_details)).
Proof.
  unfold report. destruct renewed_count as [|n]; cbn [Nat.eqb Nat.ltb Nat.leb].
  - unfold bind at 1. unfold call at 1.
    destruct (find_elements A disabled_buttons_locator (browser s))
      as [[disabled|e] w1]; [|discriminate].
    unfold bind, call. cbn [browser waits].
    destruct (page_source w1) as [[page|e] w2]; [|discriminate].
    unfold ret. intros H. injection H as <- _. unfold nothing_to_renew.
    destruct (_ || _).
    + split; [intros E; vm_compute in E; discriminate E|].
      left. left. reflexivity.
    + destruct disabled.
      * split; [intros E; vm_compute in E; discriminate E|].
        left. right. right. left. reflexivity.
      * split; [intros E; vm_compute in E; discriminate E|].
        left. right. left. reflexivity.
  - unfold bind at 1. unfold call at 1.
    destruct (get A url (browser s)) as [[[]|e] w1]; [|discriminate].
    unfold bind at 1. unfold debug at 1. cbn [browser waits].
    unfold bind, call. cbn [browser waits].
    destruct (page_source _) as [[page|e] w2]; [|discriminate].
    unfold lift, check_renew_result.
    destruct (extract_expiry_days T page) as [[detail total]|e];
      [|discriminate].
    cbn [rbind fst snd]. unfold compare_expiry.
    destruct (gt total initial_value).
    + destruct (added_string initial_value total) as [added|e]; [|discriminate].
      cbn [rbind]. intros H. injection H as <- _.
      split; [apply message_differs; vm_compute; discriminate|].
      right. left. eauto.
    + destruct (float_eq total initial_value); intros H; injection H as <- _.
      * split; [apply message_differs; vm_compute; discriminate|].
        right. right. eauto.
      * split; [apply message_differs; vm_compute; discriminate|].
        left. right. right. right. left. reflexivity.
Qed.

End Renew_server_facts.

(** X16.  [renew_server] enters its loop over the renewal links exactly when
    the server page shows an expiry time in one of the five formats and the
    parser can return it.  On a page where none matches it raises
    "❌ 无法提取初始过期时间" right after reading the page, whatever the loop
    would do; on a page where a format matches with a number the parser
    cannot take, the [ValueError] or [OverflowError] of the parser goes up as
    it is.  Both are raised before the [try] and do not get the prefix
    "❌ 续期流程错误: ". *)
Theorem renew_server_guard (T : re_tables) (lower : str -> str) {world element}
    (D : webdriver world element) (A : page_actions world element)
    (page_source : world -> result str * world) (renew_links : str -> M world nat)
    (server_url : option str) (s : session world)
    (w0 : world) (page : str) (w1 : world) :
  no_url server_url = false ->
  get A (url_of server_url) (browser s) = (Ok tt, w0) ->
  page_source (save_debug_info D (u "renew_start") w0) = (Ok page, w1) ->
  match first_match T precedence page with
  | None =>
    renew_server T lower D A page_source renew_links server_url s
    = (Raise (Exn Exception NO_INITIAL_EXPIRY), Session w1 (waits s))
  | Some (f, m) =>
    match family_result T f m with
    | Ok (detail, total) =>
      extract_expiry_days T page = Ok (detail, total) /\
      renew_server T lower D A page_source renew_links server_url s
      = renew_links_and_report T lower D A page_source renew_links
          (url_of server_url) detail total (Session w1 (waits s))
    | Raise e =>
      (exn_kind e = ValueError \/ exn_kind e = OverflowError) /\
      renew_server T lower D A page_source renew_links server_url s
      = (Raise e, Session w1 (waits s))
    end
  end.
Proof.
  intros Hno Hget Hpage.
  rewrite (renew_server_reads T lower D A page_source renew_links server_url s
             w0 page w1 Hno Hget Hpage).
  rewrite extract_is_first_match.
  destruct (first_match T precedence page) as [[f m]|] eqn:Hfm; [|reflexivity].
  pose proof (first_match_found T _ _ _ _ Hfm) as Hs.
  destruct (family_result_cases T f page m Hs)
    as [(detail & total & E & Hpos)|(e & E & Hk)]; rewrite E.
  - split; [reflexivity|]. cbn [fst snd].
    rewrite (float_nonneg_not_unparsed total Hpos). reflexivity.
  - split; [exact Hk|reflexivity].
Qed.

Lemma renew_server_guard_witness :
  let text := u "Server settings" in
  let s := Session (Demo.World LOGIN_URL [] 0) [] in
  first_match Ascii_tables.tables precedence text = None /\
  Demo_renew.renew_server text (Some HOME_URL) s
  = (Raise (Exn Exception NO_INITIAL_EXPIRY), Session (Demo.World HOME_URL [] 0) []).
Proof.
  intros text s.
  assert (Hnone : first_match Ascii_tables.tables precedence text = None)
    by (vm_compute; reflexivity).
  split; [exact Hnone|].
  assert (Hno : no_url (Some HOME_URL) = false) by (vm_compute; reflexivity).
  assert (Hget : get Demo_actions.actions (url_of (Some HOME_URL)) (browser s)
                 = (Ok tt, Demo.World HOME_URL [] 0)) by reflexivity.
  assert (Hpage : Demo_renew.page_source text
                    (save_debug_info Demo.driver (u "renew_start")
                       (Demo.World HOME_URL [] 0))
                  = (Ok text, Demo.World HOME_URL [] 0)) by reflexivity.
  generalize (renew_server_guard Ascii_tables.tables (map Ascii_tables.lower)
                Demo.driver Demo_actions.actions (Demo_renew.page_source text)
                Demo_renew.one_link (Some HOME_URL) s
                (Demo.World HOME_URL [] 0) text (Demo.World HOME_URL [] 0)
                Hno Hget Hpage).
  rewrite Hnone. unfold Demo_renew.renew_server. intros H. exact H.
Defined.

(** X17.  What [renew_server] returns is one of the three "nothing to renew"
    messages, the success message, the "no increase" message or the
    "decreased" message.  The message "⏳ 未执行续期操作。" of its last
    branch is never returned: a count that is not 0 is above 0. *)
Theorem renew_server_results (T : re_tables) (lower : str -> str) {world element}
    (D : webdriver world element) (A : page_actions world element)
    (page_source : world -> result str * world) (renew_links : str -> M world nat)
    (server_url : option str) (s : session world) (result : str)
    (s' : session world) :
  renew_server T lower D A page_source renew_links server_url s = (Ok result, s') ->
  result <> NOTHING_RENEWED /\
  (In result [LINKS_NOT_REFRESHED; NO_CLICKABLE_BUTTON; NO_BUTTON_AT_ALL;
              RENEW_DECREASED] \/
   (exists initial_details final_details added,
       result = renew_success initial_details final_details added) \/
   (exists final_details, result = renew_no_increase final_details)).
Proof.
  unfold renew_server. destruct (no_url server_url); [discriminate|].
  unfold bind at 1. unfold call at 1.
  destruct (get A (url_of server_url) (browser s)) as [[[]|e] w0]; [|discriminate].
  unfold bind at 1. unfold debug at 1. cbn [browser waits].
  unfold bind at 1. unfold call at 1. cbn [browser waits].
  destruct (page_source _) as [[page|e] w1]; [|discriminate].
  unfold bind at 1. unfold lift at 1.
  destruct (extract_expiry_days T page) as [[detail total]|e]; [|discriminate].
  cbn [fst snd].
  destruct (float_eq total (SFopp (nearest_float 1))); [discriminate|].
  unfold renew_links_and_report, try_except. unfold bind at 1.
  destruct (renew_links (url_of server_url) _) as [[count|e] s2];
    [|discriminate].
  destruct (report T lower D A page_source (url_of server_url) detail total count s2)
    as [[res|e] s3] eqn:R; [|discriminate].
  intros H. injection H as <- _.
  destruct (report_results T lower D A page_source _ _ _ _ _ _ _ R)
    as [Hne [Hc|[(f & a & Hs)|Hn]]].
  - split; [exact Hne|]. left. exact Hc.
  - split; [exact Hne|]. right. left. exists detail, f, a. exact Hs.
  - split; [exact Hne|]. right. right. exact Hn.
Qed.

Lemma renew_server_results_witness :
  let text := u "Expires in 30H 3M" in
  let s := Session (Demo.World LOGIN_URL [] 0) [] in
  let result := renew_no_increase (u "30 小时 3 分钟") in
  Demo_renew.renew_server text (Some HOME_URL) s
  = (Ok result, Session (Demo.World HOME_URL [] 0) []) /\
  result <> NOTHING_RENEWED.
Proof.
  intros text s result.
  assert (H : Demo_renew.renew_server text (Some HOME_URL) s
              = (Ok result, Session (Demo.World HOME_URL [] 0) []))
    by (vm_compute; reflexivity).
  split; [exact H|].
  destruct (renew_server_results Ascii_tables.tables (map Ascii_tables.lower)
              Demo.driver Demo_actions.actions (Demo_renew.page_source text)
              Demo_renew.one_link (Some HOME_URL) s result _ H) as [Hne _].
  exact Hne.
Defined.

(** X18.  Where a failure of [renew_server] comes from can be read off the
    exception: without a stored URL it is "❌ 缺少服务器 URL，无法执行续期"
    and nothing was done; opening or reading the server page raises as the
    browser did; a page whose expiry time the parser cannot take raises the
    [ValueError] or [OverflowError] of the parser; a page without an expiry
    time gives "❌ 无法提取初始过期时间"; everything raised later, in the loop
    or while the result is checked, is an [Exception] whose text is
    "❌ 续期流程错误: " followed by the text of what was raised. *)
Theorem renew_server_failures (T : re_tables) (lower : str -> str) {world element}
    (D : webdriver world element) (A : page_actions world element)
    (page_source : world -> result str * world) (renew_links : str -> M world nat)
    (server_url : option str) (s : session world) (e : exn) (s' : session world) :
  renew_server T lower D A page_source renew_links server_url s = (Raise e, s') ->
  (no_url server_url = true /\ e = Exn Exception NO_SERVER_URL /\ s' = s) \/
  (exists w, get A (url_of server_url) (browser s) = (Raise e, w)) \/
  (exists w w', page_source w = (Raise e, w')) \/
  (exists w page w' f m,
      page_source w = (Ok page, w') /\
      first_match T precedence page = Some (f, m) /\
      extract_expiry_days T page = Raise e /\
      (exn_kind e = ValueError \/ exn_kind e = OverflowError) /\
      s' = Session w' (waits s)) \/
  (exists w page w',
      page_source w = (Ok page, w') /\ first_match T precedence page = None /\
      e = Exn Exception NO_INITIAL_EXPIRY /\ s' = Session w' (waits s)) \/
  (exists e0, e = Exn Exception (RENEW_FAILED ++ str_of_exn e0)).
Proof.
  unfold renew_server. destruct (no_url server_url).
  { unfold raise. intros H. injection H as <- <-. left. auto. }
  intros H. right. unfold bind at 1 in H. unfold call at 1 in H.
  destruct (get A (url_of server_url) (browser s)) as [[[]|e1] w0].
  2:{ injection H as <- _. left. exists w0. reflexivity. }
  right. unfold bind at 1 in H. unfold debug at 1 in H. cbn [browser waits] in H.
  unfold bind at 1 in H. unfold call at 1 in H. cbn [browser waits] in H.
  destruct (page_source _) as [[page|e1] w1] eqn:Hpage.
  2:{ injection H as <- _. left. eauto. }
  right. unfold bind at 1 in H. unfold lift at 1 in H.
  pose proof (extract_is_first_match T page) as Hx.
  destruct (first_match T precedence page) as [[f m]|] eqn:Hfm.
  - pose proof (first_match_found T _ _ _ _ Hfm) as Hs.
    destruct (family_result_cases T f page m Hs)
      as [(detail & total & E & Hpos)|(e1 & E & Hk)]; rewrite E in Hx;
      rewrite Hx in H.
    + right. right. cbn [fst snd] in H.
      change (SFopp (nearest_float 1)) with UNPARSED in H.
      rewrite (float_nonneg_not_unparsed total Hpos) in H.
      unfold renew_links_and_report, try_except in H.
      destruct (bind (renew_links (url_of server_url)) _ _) as [[res|e1] s2];
        [discriminate|].
      unfold renew_failure, bind, debug, raise in H. injection H as <- _.
      exists e1. reflexivity.
    + left. injection H as <- <-.
      exists (save_debug_info D (u "renew_start") w0), page, w1, f, m.
      rewrite Hx. auto.
  - rewrite Hx in H. cbn [fst snd] in H.
    change (float_eq UNPARSED (SFopp (nearest_float 1))) with true in H.
    unfold raise in H. injection H as <- <-. right. left.
    exists (save_debug_info D (u "renew_start") w0), page, w1. auto.
Qed.

Lemma renew_server_failures_witness :
  let text := u "Expires in " ++ repeat 57%N 400 ++ u "D" in
  let s := Session (Demo.World LOGIN_URL [] 0) [] in
  let e := Exn OverflowError (u "int too large to convert to float") in
  Demo_renew.renew_server text (Some HOME_URL) s
  = (Raise e, Session (Demo.World HOME_URL [] 0) []) /\
  extract_expiry_days Ascii_tables.tables text = Raise e /\
  ((no_url (Some HOME_URL) = true /\ e = Exn Exception NO_SERVER_URL /\
    Session (Demo.World HOME_URL [] 0) [] = s) \/
   (exists w, get Demo_actions.actions (url_of (Some HOME_URL)) (browser s)
              = (Raise e, w)) \/
   (exists w w', Demo_renew.page_source text w = (Raise e, w')) \/
   (exists w page w' f m,
       Demo_renew.page_source text w = (Ok page, w') /\
       first_match Ascii_tables.tables precedence page = Some (f, m) /\
       extract_expiry_days Ascii_tables.tables page = Raise e /\
       (exn_kind e = ValueError \/ exn_kind e = OverflowError) /\
       Session (Demo.World HOME_URL [] 0) [] = Session w' (waits s)) \/
   (exists w page w',
       Demo_renew.page_source text w = (Ok page, w') /\
       first_match Ascii_tables.tables precedence page = None /\
       e = Exn Exception NO_INITIAL_EXPIRY /\
       Session (Demo.World HOME_URL [] 0) [] = Session w' (waits s)) \/
   (exists e0, e = Exn Exception (RENEW_FAILED ++ str_of_exn e0))).
Proof.
  intros text s e.
  assert (H : Demo_renew.renew_server text (Some HOME_URL) s
              = (Raise e, Session (Demo.World HOME_URL [] 0) []))
    by (vm_compute; reflexivity).
  assert (X : extract_expiry_days Ascii_tables.tables text = Raise e)
    by (vm_compute; reflexivity).
  split; [exact H|]. split; [exact X|].
  exact (renew_server_failures Ascii_tables.tables (map Ascii_tables.lower)
           Demo.driver Demo_actions.actions (Demo_renew.page_source text)
           Demo_renew.one_link (Some HOME_URL) s e _ H).
Defined.
